(** * Employee dashboard: the GraphQL service of [src/app/api/graphql/route.ts]

  A shallow embedding of the resolvers, of the cache helpers and of the
  connection and seeding code, with the theorems that settle the
  specification's claims about them.

  Layout of the development:
  - [Js]       strings, numbers and values of the host language;
  - [Bson]     [ObjectId], its textual form and its validity test;
  - [Mongo]    the two collections and the driver operations the file calls;
  - [Lru]      the key/value cache with per-entry time-to-live;
  - [Route]    the code of [route.ts] itself, in a state-and-exception monad;
  - [Threads]  [incrementView] cut at its [await] points, for interleavings;
  - [Props]    the notions the statements are written with;
  - the lemmas and theorems, claim by claim. *)

From Stdlib Require Import ZArith NArith List String Ascii Bool Lia.
From Stdlib Require Import Permutation.
From Stdlib Require Import Floats.SpecFloat.
Import ListNotations.

Set Implicit Arguments.
Set Warnings "-register-all".

Local Open Scope string_scope.
Local Open Scope Z_scope.

(* ===================================================================== *)
(** * The host language: strings, numbers, values *)
(* ===================================================================== *)

Module Js.

(** Strings are sequences of code units; the model keeps the units that
    fit a byte.  [String.prototype.trim] removes white space and line
    terminators: among the byte-sized units these are TAB, LF, VT, FF, CR,
    SPACE and NO-BREAK SPACE. *)
Definition is_space (c : ascii) : bool :=
  let n := N_of_ascii c in
  ((9 <=? n) && (n <=? 13) || (n =? 32) || (n =? 160))%N.

Fixpoint trimStart (s : string) : string :=
  match s with
  | EmptyString => EmptyString
  | String c r => if is_space c then trimStart r else s
  end.

Fixpoint trimEnd (s : string) : string :=
  match s with
  | EmptyString => EmptyString
  | String c r =>
      match trimEnd r with
      | EmptyString => if is_space c then EmptyString else String c EmptyString
      | r' => String c r'
      end
  end.

(** [s.trim()] *)
Definition trim (s : string) : string := trimEnd (trimStart s).

(** [!s] on a string: only the empty string is falsy. *)
Definition falsy_string (s : string) : bool :=
  match s with EmptyString => true | _ => false end.

(** Numbers are IEEE 754 binary64 values, in the Standard Library's
    [spec_float] (one NaN, two zeros, two infinities, finite values as
    sign, mantissa and exponent). *)
Definition number := spec_float.

Definition prec : Z := 53.
Definition emax : Z := 1024.

(** The number an integer literal denotes. *)
Definition of_Z (z : Z) : number := binary_normalize prec emax z 0 false.

Definition NaN : number := S754_nan.

(** [a < b], [a > b], [a <= b] on numbers; false as soon as one side is
    NaN. *)
Definition num_lt (a b : number) : bool := SFltb a b.
Definition num_gt (a b : number) : bool := SFltb b a.
Definition num_le (a b : number) : bool := SFleb a b.

(** [parseFloat(x.toString())]: [Number.prototype.toString] prints the
    shortest decimal that reads back as the same number (and "NaN",
    "Infinity"), and [parseFloat] reads it back; the sign of a zero is
    lost, since [(-0).toString()] is "0". *)
Definition parseFloat_toString (x : number) : number :=
  match x with
  | S754_zero _ => S754_zero false
  | _ => x
  end.

(** Values that resolvers return and that JSON carries.  Integer document
    fields (the [views] counter, a department's [floor]) are kept as exact
    integers; [VNum] is a double. *)
Inductive value : Type :=
| VNull
| VBool (b : bool)
| VInt (z : Z)
| VNum (x : number)
| VStr (s : string)
| VArr (items : list value)
| VObj (fields : list (string * value)).

(** Truthiness, as tested by [if (cached)]. *)
Definition truthy (v : value) : bool :=
  match v with
  | VNull => false
  | VBool b => b
  | VInt z => negb (z =? 0)
  | VNum x =>
      match x with
      | S754_zero _ | S754_nan => false
      | _ => true
      end
  | VStr s => negb (falsy_string s)
  | VArr _ | VObj _ => true
  end.

(** A number as it comes back from [JSON.parse(JSON.stringify(x))]: NaN and
    the infinities are written as [null], and minus zero as [0]. *)
Definition json_number (x : number) : value :=
  match x with
  | S754_nan | S754_infinity _ => VNull
  | S754_zero _ => VNum (S754_zero false)
  | S754_finite _ _ _ => VNum x
  end.

(** [JSON.parse(JSON.stringify(v))]. *)
Fixpoint json_roundtrip (v : value) : value :=
  match v with
  | VNum x => json_number x
  | VArr items => VArr (map json_roundtrip items)
  | VObj fields =>
      VObj (map (fun kv => (fst kv, json_roundtrip (snd kv))) fields)
  | _ => v
  end.


(** [o.k] on an object value. *)
Fixpoint lookup_field (k : string) (fields : list (string * value))
  : option value :=
  match fields with
  | [] => None
  | (k', v) :: rest => if String.eqb k' k then Some v else lookup_field k rest
  end.

Definition field (k : string) (v : value) : option value :=
  match v with
  | VObj fields => lookup_field k fields
  | _ => None
  end.

End Js.

(* ===================================================================== *)
(** * BSON object identifiers *)
(* ===================================================================== *)

Module Bson.

(** An [ObjectId] is twelve bytes, here the natural number they spell in
    big-endian order. *)
Definition ObjectId := N.

Definition ObjectId_bound : N := 2 ^ 96.

Definition hex_digit (c : ascii) : option N :=
  let n := N_of_ascii c in
  if ((48 <=? n) && (n <=? 57))%N then Some (n - 48)%N
  else if ((97 <=? n) && (n <=? 102))%N then Some (n - 87)%N
  else if ((65 <=? n) && (n <=? 70))%N then Some (n - 55)%N
  else None.

Definition is_hex (c : ascii) : bool :=
  match hex_digit c with Some _ => true | None => false end.

Fixpoint all_hex (s : string) : bool :=
  match s with
  | EmptyString => true
  | String c r => is_hex c && all_hex r
  end.

(** Modelled from the spec: the BSON library that provides [ObjectId] is
    not part of the repository.  The specification asks for a "well-formed
    identifier"; the library's test [ObjectId.isValid(s)] accepts, among
    strings, exactly those of twenty-four hexadecimal digits, in either
    case. *)
Definition isValid (s : string) : bool :=
  Nat.eqb (String.length s) 24 && all_hex s.

Fixpoint parse_hex (s : string) (acc : N) : option N :=
  match s with
  | EmptyString => Some acc
  | String c r =>
      match hex_digit c with
      | Some d => parse_hex r (16 * acc + d)%N
      | None => None
      end
  end.

(** [new ObjectId(s)]; [None] stands for the BSONError the constructor
    throws on anything but twenty-four hexadecimal digits. *)
Definition ObjectId_new (s : string) : option ObjectId :=
  if isValid s then parse_hex s 0%N else None.

Definition hex_char (d : N) : ascii :=
  if (d <? 10)%N then ascii_of_N (d + 48) else ascii_of_N (d + 87).

Fixpoint to_hex (digits : nat) (n : N) (acc : string) : string :=
  match digits with
  | O => acc
  | S k => to_hex k (n / 16)%N (String (hex_char (n mod 16)%N) acc)
  end.

(** [oid.toString()]: twenty-four lower-case hexadecimal digits. *)
Definition toString (oid : ObjectId) : string := to_hex 24 oid EmptyString.

End Bson.

(* ===================================================================== *)
(** * The document store *)
(* ===================================================================== *)

Module Mongo.
Import Js Bson.

(** [interface Employee], without its [_id], which keys the collection.
    [views] is optional. *)
Record Employee : Type := mkEmployee {
  name : string;
  position : string;
  department : string;
  salary : number;
  views : option Z
}.

(** [interface Department] ([name] and [floor] in the source). *)
Record Department : Type := mkDepartment {
  dept_name : string;
  floor : Z
}.

(** The operations the service sends to the server, as they are recorded in
    the trace of a database. *)
Inductive Op : Type :=
| CountDocuments (collection : string)
| InsertMany (collection : string) (count : nat)
| InsertOne (collection : string)
| Find (collection : string)
| FindOne (collection : string) (_id : ObjectId)
| UpdateOne (collection : string) (_id : ObjectId)
| UpdateMany (collection : string).

(** Modelled from the spec: the document store and its driver are not part
    of the repository.  The specification (sections 2, 3 and 5) has two
    collections of documents keyed by an identity that the store assigns on
    creation, distinct for distinct documents, with insertion and the
    increment of a field as atomic operations of the store.  Database
    [company_db] is here the two collections in insertion order, the
    generator of the next identifier, and the trace of the operations
    received (latest first). *)
Record Db : Type := mkDb {
  employees : list (ObjectId * Employee);
  departments : list (ObjectId * Department);
  next_id : N;
  oplog : list Op
}.

Definition log (op : Op) (db : Db) : Db :=
  mkDb (employees db) (departments db) (next_id db) (op :: oplog db).

Section Collections.
Variable A : Type.

Definition has_id (oid : ObjectId) (docs : list (ObjectId * A)) : bool :=
  existsb (fun d => N.eqb (fst d) oid) docs.

(** [findOne({ _id })] *)
Definition lookup_id (oid : ObjectId) (docs : list (ObjectId * A))
  : option A :=
  match find (fun d => N.eqb (fst d) oid) docs with
  | Some d => Some (snd d)
  | None => None
  end.

(** [updateOne({ _id }, u)]: the first document with that [_id]. *)
Fixpoint update_first (u : A -> A) (oid : ObjectId)
  (docs : list (ObjectId * A)) : list (ObjectId * A) :=
  match docs with
  | [] => []
  | d :: rest =>
      if N.eqb (fst d) oid then (fst d, u (snd d)) :: rest
      else d :: update_first u oid rest
  end.

(** The identifier the driver gives to the next inserted document. *)
Definition generate (next : N) : ObjectId := (next mod ObjectId_bound)%N.

(** Ordered insertion of several documents; the unique index on [_id]
    refuses a duplicate, and the insertion stops there. *)
Fixpoint insert_all (new : list A) (docs : list (ObjectId * A)) (next : N)
  : bool * list (ObjectId * A) * N :=
  match new with
  | [] => (true, docs, next)
  | d :: rest =>
      let oid := generate next in
      if has_id oid docs then (false, docs, N.succ next)
      else insert_all rest (docs ++ [(oid, d)]) (N.succ next)
  end.

(** [sort({ name: 1 })]: ascending on a string key, byte-wise. *)
Fixpoint insert_sorted (key : A -> string) (d : ObjectId * A)
  (sorted : list (ObjectId * A)) : list (ObjectId * A) :=
  match sorted with
  | [] => [d]
  | x :: rest =>
      if String.leb (key (snd d)) (key (snd x)) then d :: sorted
      else x :: insert_sorted key d rest
  end.

Definition sort_by (key : A -> string) (docs : list (ObjectId * A))
  : list (ObjectId * A) :=
  fold_right (insert_sorted key) [] docs.

End Collections.

Definition duplicate_key : string := "E11000 duplicate key error".

(** [employees.countDocuments()], [departments.countDocuments()] *)
Definition countEmployees (db : Db) : nat * Db :=
  (List.length (employees db), log (CountDocuments "employees") db).

Definition countDepartments (db : Db) : nat * Db :=
  (List.length (departments db), log (CountDocuments "departments") db).

(** [departments.insertMany(docs)], [employees.insertMany(docs)]; the
    boolean tells whether every document went in. *)
Definition insertManyDepartments (docs : list Department) (db : Db)
  : bool * Db :=
  let '(ok, ds, next) := insert_all docs (departments db) (next_id db) in
  (ok, mkDb (employees db) ds next
            (InsertMany "departments" (List.length docs) :: oplog db)).

Definition insertManyEmployees (docs : list Employee) (db : Db)
  : bool * Db :=
  let '(ok, es, next) := insert_all docs (employees db) (next_id db) in
  (ok, mkDb es (departments db) next
            (InsertMany "employees" (List.length docs) :: oplog db)).

(** [employees.insertOne(doc)]: the [insertedId], or nothing on a duplicate
    key. *)
Definition insertOneEmployee (doc : Employee) (db : Db)
  : option ObjectId * Db :=
  let oid := generate (next_id db) in
  let '(ok, es, next) := insert_all [doc] (employees db) (next_id db) in
  (if ok then Some oid else None,
   mkDb es (departments db) next (InsertOne "employees" :: oplog db)).

(** [employees.find({}).sort({ name: 1 }).toArray()] *)
Definition findEmployeesSorted (db : Db) : list (ObjectId * Employee) * Db :=
  (sort_by name (employees db), log (Find "employees") db).

(** [employees.find({ department }).toArray()] *)
Definition findEmployeesByDepartment (dept : string) (db : Db)
  : list (ObjectId * Employee) * Db :=
  (filter (fun d => String.eqb (department (snd d)) dept) (employees db),
   log (Find "employees") db).

(** [departments.find({}).sort({ name: 1 }).toArray()] *)
Definition findDepartmentsSorted (db : Db)
  : list (ObjectId * Department) * Db :=
  (sort_by dept_name (departments db), log (Find "departments") db).

(** [employees.findOne({ _id })] *)
Definition findOneEmployee (oid : ObjectId) (db : Db)
  : option Employee * Db :=
  (lookup_id oid (employees db), log (FindOne "employees" oid) db).

(** [$inc: { views: 1 }]; a missing field is created with the increment. *)
Definition inc_views (e : Employee) : Employee :=
  mkEmployee (name e) (position e) (department e) (salary e)
    (Some (match views e with Some v => v + 1 | None => 1 end)).

(** [employees.updateOne({ _id }, { $inc: { views: 1 } })]: one atomic
    update of the document at the server. *)
Definition incrementViews (oid : ObjectId) (db : Db) : Db :=
  mkDb (update_first inc_views oid (employees db)) (departments db)
       (next_id db) (UpdateOne "employees" oid :: oplog db).

(** [$set: { views: 0 }] under the filter [{ views: { $exists: false } }]. *)
Definition default_views (e : Employee) : Employee :=
  match views e with
  | Some _ => e
  | None => mkEmployee (name e) (position e) (department e) (salary e) (Some 0)
  end.

Definition modified_by_default (db : Db) : nat :=
  List.length
    (filter (fun d => match views (snd d) with None => true | Some _ => false end)
            (employees db)).

(** [employees.updateMany({ views: { $exists: false } }, { $set: { views: 0 } })],
    with its [modifiedCount]. *)
Definition setMissingViews (db : Db) : nat * Db :=
  (modified_by_default db,
   mkDb (map (fun d => (fst d, default_views (snd d))) (employees db))
        (departments db) (next_id db) (UpdateMany "employees" :: oplog db)).

End Mongo.

(* ===================================================================== *)
(** * The result cache *)
(* ===================================================================== *)

Module Lru.
Import Js.

(** Modelled from the spec: the cache is an instance of a library class
    ([InMemoryLRUCache]) whose code is not part of the repository.  Section
    4.2 of the specification describes it: keys to serialized values, a
    time-to-live per entry, entries expiring by time whether read or not, a
    bound on the number of entries, and eviction of the least recently used
    entry to admit a new one.  A cache is the list of its entries, the most
    recently used first. *)
Record Entry : Type := mkEntry {
  entry_key : string;
  entry_value : value;
  entry_expires : Z
}.

Definition Cache := list Entry.

(** [maxSize: 1000] *)
Definition maxSize : nat := 1000.

Definition lookup (key : string) (c : Cache) : option Entry :=
  find (fun e => String.eqb (entry_key e) key) c.

Definition remove (key : string) (c : Cache) : Cache :=
  filter (fun e => negb (String.eqb (entry_key e) key)) c.

(** An entry can be read up to the end of its time-to-live. *)
Definition fresh (now : Z) (e : Entry) : bool := now <=? entry_expires e.

(** [cache.get(key)]: the value of a live entry, which becomes the most
    recently used; an expired entry is dropped. *)
Definition get (now : Z) (key : string) (c : Cache) : option value * Cache :=
  match lookup key c with
  | None => (None, c)
  | Some e =>
      if fresh now e then (Some (entry_value e), e :: remove key c)
      else (None, remove key c)
  end.

(** [cache.set(key, value, { ttl })] *)
Definition set (now : Z) (key : string) (v : value) (ttl : Z) (c : Cache)
  : Cache :=
  firstn maxSize (mkEntry key v (now + ttl) :: remove key c).

(** [cache.delete(key)] *)
Definition delete (key : string) (c : Cache) : Cache := remove key c.

End Lru.

(* ===================================================================== *)
(** * The service: [route.ts] *)
(* ===================================================================== *)

Module Route.
Import Js Bson Mongo.

(** What the module's code runs against: the database behind the
    connection, the process-wide handle [cachedDb] (here whether it is
    set), and the process-wide [cache]. *)
Record State : Type := mkState {
  store : Db;
  cachedDb : bool;
  cache : Lru.Cache
}.

(** An [async] function either fulfils with a value or rejects with an
    [Error] and its message; its effects stay in both cases. *)
Inductive Outcome (A : Type) : Type :=
| Fulfilled (a : A)
| Rejected (message : string).
Arguments Fulfilled {A} a.
Arguments Rejected {A} message.

Definition Async (A : Type) : Type := State -> Outcome A * State.

Definition ret (A : Type) (a : A) : Async A := fun st => (Fulfilled a, st).

Definition throw (A : Type) (message : string) : Async A :=
  fun st => (Rejected message, st).
Arguments throw {A} message.

Definition bind (A B : Type) (m : Async A) (k : A -> Async B) : Async B :=
  fun st =>
    match m st with
    | (Fulfilled a, st') => k a st'
    | (Rejected message, st') => (Rejected message, st')
    end.

(** [try { m } catch (error) { handler(error.message) }] *)
Definition try_catch (A : Type) (m : Async A) (handler : string -> Async A)
  : Async A :=
  fun st =>
    match m st with
    | (Fulfilled a, st') => (Fulfilled a, st')
    | (Rejected message, st') => handler message st'
    end.

Notation "x <- m ;; k" := (bind m (fun x => k))
  (at level 61, m at next level, right associativity).
Notation "m ;;; k" := (bind m (fun _ => k))
  (at level 61, right associativity).

(** A driver call on the database behind the connection. *)
Definition on_store (A : Type) (f : Db -> A * Db) : Async A :=
  fun st =>
    let (a, db) := f (store st) in
    (Fulfilled a, mkState db (cachedDb st) (cache st)).

Definition on_cache (f : Lru.Cache -> Lru.Cache) : Async unit :=
  fun st => (Fulfilled tt, mkState (store st) (cachedDb st) (f (cache st))).

(** ** Cache keys and helpers *)

Module CACHE_KEYS.
Definition EMPLOYEES : string := "employees:all".
Definition EMPLOYEE_DETAILS (id : string) : string := "employee:" ++ id.
Definition DEPARTMENTS : string := "departments:all".
Definition EMPLOYEES_BY_DEPT (dept : string) : string :=
  "employees:dept:" ++ dept.
End CACHE_KEYS.

(** [getFromCache(key)]: the parsed entry, or [null]. *)
Definition getFromCache (now : Z) (key : string) : Async value :=
  fun st =>
    let (cached, c) := Lru.get now key (cache st) in
    (Fulfilled (match cached with Some v => v | None => VNull end),
     mkState (store st) (cachedDb st) c).

(** [setInCache(key, data, ttl)] ([ttl] is 300000 when the caller gives
    none): the entry holds the text [JSON.stringify(data)], kept here as the
    value that text parses to. *)
Definition setInCache (now : Z) (key : string) (data : value) (ttl : Z)
  : Async unit :=
  on_cache (Lru.set now key (json_roundtrip data) ttl).

(** [invalidateCache(keys)] *)
Definition invalidateCache (keys : list string) : Async unit :=
  on_cache (fun c => fold_left (fun c key => Lru.delete key c) keys c).

(** ** Seeding and connection *)

Definition seedDepartments : list Department :=
  [ mkDepartment "Engineering" 3;
    mkDepartment "Marketing" 2;
    mkDepartment "Human Resources" 1 ].

Definition seedEmployees : list Employee :=
  [ mkEmployee "Alice Johnson" "Senior Developer" "Engineering"
               (of_Z 95000) (Some 0);
    mkEmployee "Bob Smith" "Backend Developer" "Engineering"
               (of_Z 80000) (Some 0);
    mkEmployee "Carol Williams" "Marketing Manager" "Marketing"
               (of_Z 75000) (Some 0);
    mkEmployee "David Brown" "Content Strategist" "Marketing"
               (of_Z 65000) (Some 0);
    mkEmployee "Emma Davis" "HR Director" "Human Resources"
               (of_Z 85000) (Some 0);
    mkEmployee "Frank Miller" "Frontend Developer" "Engineering"
               (of_Z 78000) (Some 0) ].

(** A rejected [insertMany]. *)
Definition insertMany (ins : Db -> bool * Db) : Async unit :=
  ok <- on_store ins ;;
  if ok then ret tt else throw duplicate_key.

Definition seedData : Async unit :=
  employeeCount <- on_store countEmployees ;;
  departmentCount <- on_store countDepartments ;;
  if (0 <? employeeCount)%nat || (0 <? departmentCount)%nat then ret tt
  else
    insertMany (insertManyDepartments seedDepartments) ;;;
    insertMany (insertManyEmployees seedEmployees) ;;;
    ret tt.

Definition ensureViewsField : Async unit :=
  try_catch
    (result <- on_store setMissingViews ;; ret tt)
    (fun _ => ret tt).

Definition set_cachedDb : Async unit :=
  fun st => (Fulfilled tt, mkState (store st) true (cache st)).

Definition connectDB : Async unit :=
  fun st =>
    if cachedDb st then (Fulfilled tt, st)
    else
      try_catch
        (set_cachedDb ;;;
         seedData ;;;
         ensureViewsField ;;;
         ret tt)
        (fun _ => throw "Database connection failed")
        st.

(** The process ends and a new one starts: the handle and the cache are
    gone, the database stays. *)
Definition restart (st : State) : State := mkState (store st) false [].

(** ** Resolvers *)

(** The object a resolver builds from a document: the fields of the GraphQL
    type [Employee]. *)
Definition employee_value (d : ObjectId * Employee) : value :=
  VObj [ ("id", VStr (toString (fst d)));
         ("name", VStr (name (snd d)));
         ("position", VStr (position (snd d)));
         ("department", VStr (department (snd d)));
         ("salary", VNum (salary (snd d)));
         ("views", VInt (match views (snd d) with Some v => v | None => 0 end)) ].

Definition department_value (d : ObjectId * Department) : value :=
  VObj [ ("id", VStr (toString (fst d)));
         ("name", VStr (dept_name (snd d)));
         ("floor", VInt (floor (snd d))) ].

Definition getAllEmployees (now : Z) : Async value :=
  try_catch
    (let cacheKey := CACHE_KEYS.EMPLOYEES in
     cached <- getFromCache now cacheKey ;;
     if truthy cached then ret cached
     else
       employees <- on_store findEmployeesSorted ;;
       let result := VArr (map employee_value employees) in
       setInCache now cacheKey result 300000 ;;;
       ret result)
    (fun _ => throw "Failed to fetch employees").

Definition getEmployeeDetails (now : Z) (id : string) : Async value :=
  try_catch
    (if negb (isValid id) then throw "Invalid employee ID format"
     else
       let cacheKey := CACHE_KEYS.EMPLOYEE_DETAILS id in
       cached <- getFromCache now cacheKey ;;
       if truthy cached then ret cached
       else
         match ObjectId_new id with
         | None => throw "input must be a 24 character hex string"
         | Some _id =>
             employee <- on_store (findOneEmployee _id) ;;
             match employee with
             | None => throw "Employee not found"
             | Some employee =>
                 let result := employee_value (_id, employee) in
                 setInCache now cacheKey result 600000 ;;;
                 ret result
             end
         end)
    (fun message => throw ("Error fetching employee: " ++ message)).

Definition getEmployeesByDepartment (department : string) : Async value :=
  try_catch
    (employees <- on_store (findEmployeesByDepartment department) ;;
     ret (VArr (map employee_value employees)))
    (fun _ => throw "Failed to fetch employees by department").

Definition getDepartments (now : Z) : Async value :=
  try_catch
    (let cacheKey := CACHE_KEYS.DEPARTMENTS in
     cached <- getFromCache now cacheKey ;;
     if truthy cached then ret cached
     else
       departments <- on_store findDepartmentsSorted ;;
       let result := VArr (map department_value departments) in
       setInCache now cacheKey result 1800000 ;;;
       ret result)
    (fun _ => throw "Failed to fetch departments").

(** The four checks of [addEmployee], in order; [None] when all pass. *)
Definition validate (name position department : string) (salary : number)
  : option string :=
  if falsy_string name || (String.length (trim name) <? 2)%nat
  then Some "Name must be at least 2 characters"
  else if falsy_string position || (String.length (trim position) <? 2)%nat
  then Some "Position must be at least 2 characters"
  else if falsy_string department
          || (String.length (trim department) =? 0)%nat
  then Some "Department is required"
  else if num_lt salary (of_Z 1000) || num_gt salary (of_Z 1000000)
  then Some "Salary must be between $1,000 and $1,000,000"
  else None.

Definition addEmployee (name position department : string) (salary : number)
  : Async value :=
  try_catch
    (match validate name position department salary with
     | Some message => throw message
     | None =>
         let newEmployee :=
           mkEmployee (trim name) (trim position) (trim department)
                      (parseFloat_toString salary) (Some 0) in
         insert <- on_store (insertOneEmployee newEmployee) ;;
         match insert with
         | None => throw duplicate_key
         | Some insertedId =>
             let result := employee_value (insertedId, newEmployee) in
             invalidateCache
               [ CACHE_KEYS.EMPLOYEES;
                 CACHE_KEYS.EMPLOYEES_BY_DEPT department ] ;;;
             ret result
         end
     end)
    (fun message => throw ("Error adding employee: " ++ message)).

Definition incrementView (id : string) : Async value :=
  try_catch
    (let cleanId := trim id in
     if negb (isValid cleanId) then throw "Invalid employee ID format"
     else
       match ObjectId_new cleanId with
       | None => throw "input must be a 24 character hex string"
       | Some _id =>
           employee <- on_store (findOneEmployee _id) ;;
           match employee with
           | None => throw "Employee not found"
           | Some _ =>
               on_store (fun db => (tt, incrementViews _id db)) ;;;
               result <- on_store (findOneEmployee _id) ;;
               match result with
               | None => throw "Failed to update employee views"
               | Some result =>
                   invalidateCache
                     [ CACHE_KEYS.EMPLOYEE_DETAILS id;
                       CACHE_KEYS.EMPLOYEES;
                       CACHE_KEYS.EMPLOYEES_BY_DEPT (department result) ] ;;;
                   ret (employee_value (_id, result))
               end
           end
       end)
    (fun message => throw ("Error incrementing view: " ++ message)).

(** ** Errors as the server reports them *)

(** The error handed to [formatError]: its message and, when it has one,
    the code in its extensions. *)
Record GraphQLError : Type := mkGraphQLError {
  message : string;
  extensions_code : option string
}.

Record FormattedError : Type := mkFormattedError {
  formatted_message : string;
  formatted_code : string;
  formatted_timestamp : string
}.

(** [formatError]; [timestamp] is [new Date().toISOString()]. *)
Definition formatError (timestamp : string) (error : GraphQLError)
  : FormattedError :=
  mkFormattedError
    (message error)
    (match extensions_code error with
     | Some code => if falsy_string code then "INTERNAL_SERVER_ERROR" else code
     | None => "INTERNAL_SERVER_ERROR"
     end)
    timestamp.

(** A resolver rejects with [new Error(message)]: an error without
    extensions. *)
Definition thrown (message : string) : GraphQLError :=
  mkGraphQLError message None.

(** What the caller receives when a resolver rejects. *)
Definition surfaced (A : Type) (timestamp : string) (o : Outcome A)
  : option FormattedError :=
  match o with
  | Fulfilled _ => None
  | Rejected message => Some (formatError timestamp (thrown message))
  end.

End Route.

(* ===================================================================== *)
(** * [incrementView] between its [await]s *)
(* ===================================================================== *)

Module Threads.
Import Js Bson Mongo Route.

(** A call of [incrementView] in flight.  The code between two [await]s
    runs without interruption, and each awaited driver call is one
    operation at the server; a call is therefore at one of these points:
    not started, after the existence read, after the update, after the
    second read, or settled. *)
Inductive Thread : Type :=
| Called (id : string)
| Verified (id : string) (_id : ObjectId)
| Updated (id : string) (_id : ObjectId)
| Refetched (id : string) (_id : ObjectId) (result : Employee)
| Settled (o : Outcome value).

(** The [catch] clause of [incrementView]. *)
Definition caught (message : string) : Thread :=
  Settled (Rejected ("Error incrementing view: " ++ message)).

Definition with_store (db : Db) (st : State) : State :=
  mkState db (cachedDb st) (cache st).

(** One stretch of the call, up to and including its next awaited
    operation. *)
Definition step (t : Thread) (st : State) : Thread * State :=
  match t with
  | Called id =>
      let cleanId := trim id in
      if negb (isValid cleanId) then (caught "Invalid employee ID format", st)
      else
        match ObjectId_new cleanId with
        | None => (caught "input must be a 24 character hex string", st)
        | Some _id =>
            let (employee, db) := findOneEmployee _id (store st) in
            match employee with
            | None => (caught "Employee not found", with_store db st)
            | Some _ => (Verified id _id, with_store db st)
            end
        end
  | Verified id _id =>
      (Updated id _id, with_store (incrementViews _id (store st)) st)
  | Updated id _id =>
      let (result, db) := findOneEmployee _id (store st) in
      match result with
      | None => (caught "Failed to update employee views", with_store db st)
      | Some result => (Refetched id _id result, with_store db st)
      end
  | Refetched id _id result =>
      let (_, st') :=
        invalidateCache
          [ CACHE_KEYS.EMPLOYEE_DETAILS id;
            CACHE_KEYS.EMPLOYEES;
            CACHE_KEYS.EMPLOYEES_BY_DEPT (department result) ] st in
      (Settled (Fulfilled (employee_value (_id, result))), st')
  | Settled o => (Settled o, st)
  end.

(** A call running alone. *)
Fixpoint run (fuel : nat) (t : Thread) (st : State) : Thread * State :=
  match fuel with
  | O => (t, st)
  | S fuel' => let (t', st') := step t st in run fuel' t' st'
  end.

(** Two calls in flight; the schedule says, stretch after stretch, which
    of the two goes on ([true] for the first). *)
Fixpoint interleave (schedule : list bool) (a b : Thread) (st : State)
  : Thread * Thread * State :=
  match schedule with
  | [] => (a, b, st)
  | turn :: rest =>
      if turn then let (a', st') := step a st in interleave rest a' b st'
      else let (b', st') := step b st in interleave rest a b' st'
  end.

(** Stretches a call still has to run. *)
Definition remaining (t : Thread) : nat :=
  match t with
  | Called _ => 4
  | Verified _ _ => 3
  | Updated _ _ => 2
  | Refetched _ _ _ => 1
  | Settled _ => 0
  end.

End Threads.

(* ===================================================================== *)
(** * Notions used in the statements *)
(* ===================================================================== *)

Module Props.
Import Js Bson Mongo Route Threads.

(** [views ?? 0] *)
Definition views_or_0 (e : Employee) : Z :=
  match views e with Some v => v | None => 0 end.




(** The range the specification documents for a salary. *)
Definition in_documented_range (salary : number) : bool :=
  num_le (of_Z 1000) salary && num_le salary (of_Z 1000000).

(** The salary check of [addEmployee] lets the value through. *)
Definition salary_accepted (salary : number) : bool :=
  negb (num_lt salary (of_Z 1000) || num_gt salary (of_Z 1000000)).

(** The three text fields pass their checks. *)
Definition valid_texts (name position department : string) : bool :=
  negb (falsy_string name || (String.length (trim name) <? 2)%nat)
  && negb (falsy_string position || (String.length (trim position) <? 2)%nat)
  && negb (falsy_string department
           || (String.length (trim department) =? 0)%nat).

(** Only white space. *)
Fixpoint all_space (s : string) : bool :=
  match s with
  | EmptyString => true
  | String c r => is_space c && all_space r
  end.

(** What is left of a cache key after a prefix, if it starts with it. *)
Fixpoint strip_prefix (p s : string) : option string :=
  match p with
  | EmptyString => Some s
  | String c p' =>
      match s with
      | EmptyString => None
      | String d s' => if Ascii.eqb c d then strip_prefix p' s' else None
      end
  end.

(** An entry under a per-employee key is about a document of the
    collection. *)
Definition entry_sound (db : Db) (e : Lru.Entry) : bool :=
  match strip_prefix "employee:" (Lru.entry_key e) with
  | None => true
  | Some id =>
      match ObjectId_new id with
      | None => true
      | Some oid => has_id oid (employees db)
      end
  end.

(** Well-formed states: the identifiers in the collection were produced by
    the generator, which has not run out of twelve-byte values, and the
    per-employee cache entries are about documents of the collection. *)
Definition well_formed (st : State) : bool :=
  forallb (fun d => (fst d <? next_id (store st))%N) (employees (store st))
  && (next_id (store st) <? ObjectId_bound)%N
  && forallb (entry_sound (store st)) (cache st).

(** The time-to-live of the list of employees, in the unit of the clock. *)
Definition T1 : Z := 300000.

Definition salary_message : string :=
  "Salary must be between $1,000 and $1,000,000".

(** The document [addEmployee] writes. *)
Definition newEmployee (n p d : string) (s : number) : Employee :=
  mkEmployee (trim n) (trim p) (trim d) (parseFloat_toString s) (Some 0).

(** The state [addEmployee] leaves when it succeeds. *)
Definition added (n p d : string) (s : number) (st : State) : State :=
  mkState
    (mkDb (employees (store st)
             ++ [(generate (next_id (store st)), newEmployee n p d s)])
          (departments (store st))
          (N.succ (next_id (store st)))
          (InsertOne "employees" :: oplog (store st)))
    (cachedDb st)
    (Lru.delete (CACHE_KEYS.EMPLOYEES_BY_DEPT d)
       (Lru.delete CACHE_KEYS.EMPLOYEES (cache st))).

(** A database just seeded and a process just started, for examples. *)
Definition empty_state : State := mkState (mkDb [] [] 0 []) false [].

Definition seeded_state : State := snd (connectDB empty_state).

(** No white space at all. *)
Fixpoint no_space (s : string) : bool :=
  match s with
  | EmptyString => true
  | String c r => negb (is_space c) && no_space r
  end.

(** The state [incrementView] leaves when it succeeds on the document
    [oid], whose department is [dept]. *)
Definition viewed (id : string) (oid : ObjectId) (dept : string) (st : State)
  : State :=
  mkState
    (mkDb (update_first inc_views oid (employees (store st)))
          (departments (store st))
          (next_id (store st))
          (FindOne "employees" oid :: UpdateOne "employees" oid
             :: FindOne "employees" oid :: oplog (store st)))
    (cachedDb st)
    (Lru.delete (CACHE_KEYS.EMPLOYEES_BY_DEPT dept)
       (Lru.delete CACHE_KEYS.EMPLOYEES
          (Lru.delete (CACHE_KEYS.EMPLOYEE_DETAILS id) (cache st)))).

(** The state a resolver leaves when all it did was look for [oid]. *)
Definition looked_up (oid : ObjectId) (st : State) : State :=
  mkState (log (FindOne "employees" oid) (store st)) (cachedDb st) (cache st).

(** The state [getEmployeeDetails] leaves after reading the document [d]
    from the store at time [now]. *)
Definition detailed (now : Z) (id : string) (d : ObjectId * Employee)
  (st : State) : State :=
  mkState (log (FindOne "employees" (fst d)) (store st)) (cachedDb st)
    (Lru.set now (CACHE_KEYS.EMPLOYEE_DETAILS id)
       (json_roundtrip (employee_value d)) 600000 (cache st)).

Definition invalid_id_message : string :=
  "Error fetching employee: Invalid employee ID format".

Definition not_found_message : string :=
  "Error fetching employee: Employee not found".

(** The documents of an ordered insertion with the identifiers they get. *)
Fixpoint assign (A : Type) (new : list A) (next : N) : list (ObjectId * A) :=
  match new with
  | [] => []
  | d :: rest => (generate next, d) :: assign rest (N.succ next)
  end.




(** The state the first connection to an empty database leaves. *)
Definition seeded (st : State) : State :=
  let next := next_id (store st) in
  mkState
    (mkDb (assign seedEmployees (next + 3)%N)
          (assign seedDepartments next)
          (next + 3 + 6)%N
          (UpdateMany "employees" :: InsertMany "employees" 6
             :: InsertMany "departments" 3 :: CountDocuments "departments"
             :: CountDocuments "employees" :: oplog (store st)))
    true (cache st).

(** The state a connection leaves when it finds documents. *)
Definition connected (st : State) : State :=
  mkState
    (mkDb (map (fun d => (fst d, default_views (snd d))) (employees (store st)))
          (departments (store st))
          (next_id (store st))
          (UpdateMany "employees" :: CountDocuments "departments"
             :: CountDocuments "employees" :: oplog (store st)))
    true (cache st).


(** What the cache answers [getAllEmployees] with at time [now], if it
    does: the value of a live entry, when truthy. *)
Definition served (now : Z) (st : State) : option Lru.Entry :=
  match Lru.lookup CACHE_KEYS.EMPLOYEES (cache st) with
  | Some e =>
      if Lru.fresh now e && truthy (Lru.entry_value e) then Some e else None
  | None => None
  end.


(** The list [getAllEmployees] builds from the store. *)
Definition all_employees (st : State) : value :=
  VArr (map employee_value (sort_by name (employees (store st)))).

(** The state [getAllEmployees] leaves after reading the store at [now]. *)
Definition listed (now : Z) (st : State) : State :=
  mkState (log (Find "employees") (store st)) (cachedDb st)
    (Lru.set now CACHE_KEYS.EMPLOYEES (json_roundtrip (all_employees st)) T1
       (snd (Lru.get now CACHE_KEYS.EMPLOYEES (cache st)))).




(** A call in flight that works on the document [oid] and has not failed. *)
Definition bound_to (oid : ObjectId) (t : Thread) : Prop :=
  match t with
  | Called id => isValid (trim id) = true /\ ObjectId_new (trim id) = Some oid
  | Verified _ o | Updated _ o | Refetched _ o _ => o = oid
  | Settled (Fulfilled _) => True
  | Settled (Rejected _) => False
  end.

(** Whether the call has sent its update: 1 if so, 0 if not yet. *)
Definition counted (t : Thread) : Z :=
  match t with
  | Called _ | Verified _ _ => 0
  | _ => 1
  end.

(** How often each of the two calls is given the turn. *)
Definition turns (who : bool) (schedule : list bool) : nat :=
  count_occ bool_dec schedule who.

End Props.

(* ===================================================================== *)
(** * Requests to the endpoint *)
(* ===================================================================== *)

Module Service.
Import Js Bson Mongo Route.

(** The operations of the schema, with their arguments; the queries that
    use the cache are made at a time. *)
Inductive Request : Type :=
| GetAllEmployees (now : Z)
| GetEmployeeDetails (now : Z) (id : string)
| GetEmployeesByDepartment (department : string)
| GetDepartments (now : Z)
| AddEmployee (name position department : string) (salary : number)
| IncrementView (id : string).

(** The resolver of an operation. *)
Definition resolve (r : Request) : Async value :=
  match r with
  | GetAllEmployees now => getAllEmployees now
  | GetEmployeeDetails now id => getEmployeeDetails now id
  | GetEmployeesByDepartment department => getEmployeesByDepartment department
  | GetDepartments now => getDepartments now
  | AddEmployee name position department salary =>
      addEmployee name position department salary
  | IncrementView id => incrementView id
  end.

(** One request through the handler: its [context] function awaits
    [connectDB()], then the resolver runs with the connection. *)
Definition handler (r : Request) : Async value :=
  connectDB ;;; resolve r.

(** Requests handled one after the other; before any of them the process
    may have been restarted ([true]). *)
Fixpoint serve (script : list (bool * Request)) (st : State) : State :=
  match script with
  | [] => st
  | (restarted, r) :: rest =>
      serve rest (snd (handler r (if restarted then restart st else st)))
  end.

End Service.

(* ===================================================================== *)
(** * Notions for the properties of requests *)
(* ===================================================================== *)

Module Notions.
Import Js Bson Mongo Route Service Props.

(** The same employee, whatever its counter. *)
Definition same_person (e e' : Employee) : Prop :=
  name e' = name e /\ position e' = position e
  /\ department e' = department e /\ salary e' = salary e.

(** What a request adds to the counter of document [oid]: 1 for an
    [incrementView] whose trimmed argument is a valid spelling of [oid]. *)
Definition views_added (oid : ObjectId) (r : Request) : Z :=
  match r with
  | IncrementView id =>
      if isValid (trim id)
      then match ObjectId_new (trim id) with
           | Some o => if N.eqb o oid then 1 else 0
           | None => 0
           end
      else 0
  | _ => 0
  end.

Fixpoint total_views_added (oid : ObjectId) (script : list (bool * Request))
  : Z :=
  match script with
  | [] => 0
  | (_, r) :: rest => views_added oid r + total_views_added oid rest
  end.

(** Requests that change documents. *)
Definition is_mutation (r : Request) : bool :=
  match r with
  | AddEmployee _ _ _ _ | IncrementView _ => true
  | _ => false
  end.

(** Ascending by name, each document with the next. *)
Fixpoint ascending (A : Type) (key : A -> string) (docs : list (ObjectId * A))
  : Prop :=
  match docs with
  | [] => True
  | d :: rest =>
      match rest with
      | [] => True
      | d' :: _ => String.leb (key (snd d)) (key (snd d')) = true
      end /\ ascending key rest
  end.

(** The list [getDepartments] builds from the store. *)
Definition all_departments (st : State) : value :=
  VArr (map department_value (sort_by dept_name (departments (store st)))).

(** The time-to-live of the list of departments and of one employee. *)
Definition T3 : Z := 1800000.
Definition T2 : Z := 600000.

(** The live, truthy entry under a key at time [now], if there is one. *)
Definition served_under (key : string) (now : Z) (st : State)
  : option Lru.Entry :=
  match Lru.lookup key (cache st) with
  | Some e =>
      if Lru.fresh now e && truthy (Lru.entry_value e) then Some e else None
  | None => None
  end.


(** The state [getDepartments] leaves after reading the store at [now]. *)
Definition departments_listed (now : Z) (st : State) : State :=
  mkState (log (Find "departments") (store st)) (cachedDb st)
    (Lru.set now CACHE_KEYS.DEPARTMENTS (json_roundtrip (all_departments st))
       T3 (snd (Lru.get now CACHE_KEYS.DEPARTMENTS (cache st)))).

(** A script of mutations handled by one process, without restart. *)
Definition mutations_only (script : list (bool * Request)) : bool :=
  forallb (fun x => negb (fst x) && is_mutation (snd x)) script.

(** A script of queries handled by one process, without restart. *)
Definition queries_only (script : list (bool * Request)) : bool :=
  forallb (fun x => negb (fst x) && negb (is_mutation (snd x))) script.

(** The operations that only read the database. *)
Definition is_read (op : Op) : bool :=
  match op with
  | Find _ | FindOne _ _ | CountDocuments _ => true
  | _ => false
  end.

End Notions.

(* ===================================================================== *)
(** * More of the host language's strings *)
(* ===================================================================== *)

Module JsText.
Import Js.

(** [s.startsWith(t)] *)
Fixpoint startsWith (s t : string) {struct t} : bool :=
  match t with
  | EmptyString => true
  | String c t' =>
      match s with
      | EmptyString => false
      | String d s' => Ascii.eqb d c && startsWith s' t'
      end
  end.

(** [s.includes(t)]: [t] occurs in [s] at some position. *)
Fixpoint includes (s t : string) : bool :=
  startsWith s t
  || match s with
     | EmptyString => false
     | String _ r => includes r t
     end.

(** The lower-case form of a code unit that fits a byte: the letters A to
    Z, and the letters from U+00C0 to U+00DE but for the multiplication
    sign U+00D7, move up by 32; nothing else changes. *)
Definition lower_unit (c : ascii) : ascii :=
  let n := N_of_ascii c in
  if ((65 <=? n) && (n <=? 90)
      || (192 <=? n) && (n <=? 222) && negb (n =? 215))%N
  then ascii_of_N (n + 32)
  else c.

(** [s.toLowerCase()] *)
Fixpoint toLowerCase (s : string) : string :=
  match s with
  | EmptyString => EmptyString
  | String c r => String (lower_unit c) (toLowerCase r)
  end.

End JsText.

(* ===================================================================== *)
(** * The pages that call the service *)
(* ===================================================================== *)

(** The row of the employee table, [EmployeeRow]: what [openPopup] does
    with the answer to its [incrementView] request. *)
Module EmployeeRow.
Import Js JsText Route Service.





End EmployeeRow.

(** The page of one employee, [EmployeeDetailPage]: which page an error of
    [getEmployeeDetails] leads to. *)
Module EmployeeDetailPage.
Import Js JsText Route Service.




End EmployeeDetailPage.

(** The form of [AddEmployeePage]. *)
Module AddEmployeePage.
Import Js Route Service.

Record FormData : Type := mkFormData {
  name : string;
  position : string;
  department : string;
  salary : string
}.

(** [newErrors], one message at most for each field. *)
Record Errors : Type := mkErrors {
  name_error : option string;
  position_error : option string;
  department_error : option string;
  salary_error : option string
}.

Section Form.

(** [parseFloat] on a string, a function of the host language. *)
Variable parseFloat : string -> number.

(** [isNaN(x)] *)
Definition isNaN (x : number) : bool :=
  match x with S754_nan => true | _ => false end.

(** The messages [validate] sets. *)
Definition check (formData : FormData) : Errors :=
  mkErrors
    (if falsy_string (trim (name formData)) then Some "Name is required"
     else if (String.length (trim (name formData)) <? 2)%nat
          then Some "Name must be at least 2 characters"
          else None)
    (if falsy_string (trim (position formData))
     then Some "Position is required"
     else if (String.length (trim (position formData)) <? 2)%nat
          then Some "Position must be at least 2 characters"
          else None)
    (if falsy_string (department formData) then Some "Department is required"
     else None)
    (if falsy_string (salary formData) then Some "Salary is required"
     else
       let salaryValue := parseFloat (salary formData) in
       if isNaN salaryValue || num_le salaryValue (of_Z 0)
       then Some "Salary must be a positive number"
       else if num_lt salaryValue (of_Z 1000)
            then Some "Salary must be at least $1,000"
            else if num_gt salaryValue (of_Z 1000000)
                 then Some "Salary cannot exceed $1,000,000"
                 else None).

(** [Object.keys(newErrors).length === 0], the result of [validate]. *)
Definition validate (formData : FormData) : bool :=
  match check formData with
  | mkErrors None None None None => true
  | _ => false
  end.

(** The mutation [handleSubmit] sends when [validate] passes: the
    variables, and the resolver they reach. *)
Definition submitted (formData : FormData) : Async value :=
  handler (AddEmployee (trim (name formData)) (trim (position formData))
                       (department formData)
                       (parseFloat (salary formData))).

Definition handleSubmit (formData : FormData) (st : State)
  : option (Outcome value) * State :=
  if validate formData
  then let (o, st') := submitted formData st in (Some o, st')
  else (None, st).

End Form.

End AddEmployeePage.

(** The list of employees with its filters, [HomePage]. *)
Module HomePage.
Import Js JsText.

Record Employee : Type := mkEmployee {
  id : string;
  name : string;
  position : string;
  department : string;
  views : Z;
  salary : string
}.

Record Department : Type := mkDepartment {
  dept_id : string;
  dept_name : string;
  floor : Z
}.

(** The state of the component. *)
Record Filters : Type := mkFilters {
  selectedDepartment : string;
  searchTerm : string;
  isFilterOpen : bool;
  departmentSearch : string
}.

(** [useState("all")], [useState("")], [useState(false)], [useState("")] *)
Definition initial : Filters := mkFilters "all" "" false "".

(** The test of the department filter on one employee. *)
Definition in_department (selectedDepartment : string) (emp : Employee)
  : bool :=
  negb (falsy_string (department emp))
  && String.eqb (toLowerCase (department emp))
                (toLowerCase selectedDepartment).

(** The test of the search on one employee. *)
Definition matches (term : string) (emp : Employee) : bool :=
  includes (toLowerCase (name emp)) term
  || includes (toLowerCase (position emp)) term.

Definition filteredEmployees (allEmployees : list Employee)
  (selectedDepartment searchTerm : string) : list Employee :=
  let result := allEmployees in
  if (List.length result =? 0)%nat then result
  else
    let result :=
      if negb (String.eqb selectedDepartment "all")
      then filter (in_department selectedDepartment) result
      else result in
    let result :=
      if negb (falsy_string (trim searchTerm))
      then let term := trim (toLowerCase searchTerm) in
           filter (matches term) result
      else result in
    result.

Definition filteredDepartments (departments : list Department)
  (departmentSearch : string) : list Department :=
  if falsy_string (trim departmentSearch) then departments
  else filter (fun dept => includes (toLowerCase (dept_name dept))
                                    (toLowerCase departmentSearch))
              departments.

Definition handleSearchChange (value : string) (s : Filters) : Filters :=
  mkFilters (selectedDepartment s) value (isFilterOpen s)
            (departmentSearch s).

Definition handleDepartmentSearchChange (value : string) (s : Filters)
  : Filters :=
  mkFilters (selectedDepartment s) (searchTerm s) (isFilterOpen s) value.

Definition handleDepartmentSelect (deptName : string) (s : Filters)
  : Filters :=
  mkFilters (toLowerCase deptName) (searchTerm s) false "".

Definition handleClearDepartmentFilter (s : Filters) : Filters :=
  mkFilters "all" (searchTerm s) false "".

Definition handleToggleFilter (s : Filters) : Filters :=
  mkFilters (selectedDepartment s) (searchTerm s) (negb (isFilterOpen s))
            (if negb (isFilterOpen s) then "" else departmentSearch s).

Inductive Key : Type := Escape | Enter | OtherKey.

Definition handleKeyDown (departments : list Department) (key : Key)
  (s : Filters) : Filters :=
  if negb (isFilterOpen s) then s
  else
    match key with
    | Escape =>
        mkFilters (selectedDepartment s) (searchTerm s) false ""
    | Enter =>
        match filteredDepartments departments (departmentSearch s) with
        | [dept] => handleDepartmentSelect (dept_name dept) s
        | _ => s
        end
    | OtherKey => s
    end.

(** The employees the table shows in a state of the filters. *)
Definition shown (allEmployees : list Employee) (s : Filters)
  : list Employee :=
  filteredEmployees allEmployees (selectedDepartment s) (searchTerm s).

(** What the user can do on the page.  An element that is not rendered in
    a state cannot be used in it. *)
Inductive Event : Type :=
| TypeSearch (value : string)
| ClickFilterButton
| TypeDepartmentSearch (value : string)
| ClickAllDepartments
| ClickDepartment (n : nat)
| ClickClearFilter
| ClickOutside
| PressKey (key : Key)
| ClickDepartmentChip
| ClickSearchChip
| ClickClearAllFilters.

(** The condition under which the status of the filters is rendered. *)
Definition filtered (s : Filters) : bool :=
  negb (String.eqb (selectedDepartment s) "all")
  || negb (falsy_string (trim (searchTerm s))).

Definition step (departments : list Department) (e : Event) (s : Filters)
  : Filters :=
  match e with
  | TypeSearch value => handleSearchChange value s
  | ClickFilterButton => handleToggleFilter s
  | TypeDepartmentSearch value =>
      if isFilterOpen s then handleDepartmentSearchChange value s else s
  | ClickAllDepartments =>
      if isFilterOpen s then handleClearDepartmentFilter s else s
  | ClickDepartment n =>
      if isFilterOpen s
      then match nth_error
                   (filteredDepartments departments (departmentSearch s)) n
           with
           | Some dept => handleDepartmentSelect (dept_name dept) s
           | None => s
           end
      else s
  | ClickClearFilter =>
      if isFilterOpen s && negb (String.eqb (selectedDepartment s) "all")
      then handleClearDepartmentFilter s else s
  | ClickOutside =>
      if isFilterOpen s
      then mkFilters (selectedDepartment s) (searchTerm s) false
                     (departmentSearch s)
      else s
  | PressKey key =>
      if isFilterOpen s then handleKeyDown departments key s else s
  | ClickDepartmentChip =>
      if negb (String.eqb (selectedDepartment s) "all")
      then handleClearDepartmentFilter s else s
  | ClickSearchChip =>
      if negb (falsy_string (trim (searchTerm s)))
      then mkFilters (selectedDepartment s) "" (isFilterOpen s)
                     (departmentSearch s)
      else s
  | ClickClearAllFilters =>
      if filtered s
      then mkFilters "all" "" (isFilterOpen s) (departmentSearch s)
      else s
  end.

Definition run (departments : list Department) (events : list Event)
  (s : Filters) : Filters :=
  fold_left (fun s e => step departments e s) events s.

(** The name on the button and on the chip of the department filter:
    [departments.find(d => d.name.toLowerCase() === selectedDepartment)?.name] *)
Definition selectedName (departments : list Department) (s : Filters)
  : option string :=
  option_map dept_name
    (find (fun d => String.eqb (toLowerCase (dept_name d))
                               (selectedDepartment s))
          departments).

End HomePage.

(* ===================================================================== *)
(** * Performance utilities *)
(* ===================================================================== *)

Module Performance.
Import Js Bson Mongo.

(** [a.slice(start, end)]: a negative index counts from the end, and both
    are brought into the bounds of the array. *)
Definition slice (T : Type) (a : list T) (start end_ : Z) : list T :=
  let len := Z.of_nat (List.length a) in
  let k := if start <? 0 then Z.max (len + start) 0 else Z.min start len in
  let final := if end_ <? 0 then Z.max (len + end_) 0 else Z.min end_ len in
  firstn (Z.to_nat (final - k)) (skipn (Z.to_nat k) a).

(** ** [PerformanceMonitor] *)

Record PerformanceMetrics : Type := mkMetrics {
  queryTime : number;
  cacheHit : bool;
  dataSize : number;
  timestamp : number
}.

Definition maxMetrics : Z := 1000.

(** The field [metrics] after [recordMetric(metric)]. *)
Definition recordMetric (metric : PerformanceMetrics)
  (metrics : list PerformanceMetrics) : list PerformanceMetrics :=
  let metrics := (metrics ++ [metric])%list in
  if Z.of_nat (List.length metrics) >? maxMetrics
  then slice metrics (- maxMetrics) (Z.of_nat (List.length metrics))
  else metrics.

(** The field [metrics] after [clearOldMetrics()] when [Date.now()] is
    [now]. *)
Definition clearOldMetrics (now : number)
  (metrics : list PerformanceMetrics) : list PerformanceMetrics :=
  let oneHourAgo := SFsub prec emax now (of_Z 3600000) in
  filter (fun m => num_gt (timestamp m) oneHourAgo) metrics.

Record Stats : Type := mkStats {
  averageQueryTime : number;
  cacheHitRate : number;
  totalQueries : Z;
  averageDataSize : number
}.

Definition getStats (metrics : list PerformanceMetrics) : Stats :=
  if (List.length metrics =? 0)%nat
  then mkStats (of_Z 0) (of_Z 0) 0 (of_Z 0)
  else
    let length := of_Z (Z.of_nat (List.length metrics)) in
    let totalTime :=
      fold_left (fun sum m => SFadd prec emax sum (queryTime m)) metrics
                (of_Z 0) in
    let cacheHits :=
      of_Z (Z.of_nat (List.length (filter cacheHit metrics))) in
    let totalDataSize :=
      fold_left (fun sum m => SFadd prec emax sum (dataSize m)) metrics
                (of_Z 0) in
    mkStats (SFdiv prec emax totalTime length)
            (SFmul prec emax (SFdiv prec emax cacheHits length) (of_Z 100))
            (Z.of_nat (List.length metrics))
            (SFdiv prec emax totalDataSize length).

(** The calls made on the monitor. *)
Inductive MonitorCall : Type :=
| RecordMetric (metric : PerformanceMetrics)
| ClearOldMetrics (now : number).

Definition monitor_call (c : MonitorCall)
  (metrics : list PerformanceMetrics) : list PerformanceMetrics :=
  match c with
  | RecordMetric metric => recordMetric metric metrics
  | ClearOldMetrics now => clearOldMetrics now metrics
  end.

(** The monitor starts with no metrics. *)
Definition monitor (calls : list MonitorCall) : list PerformanceMetrics :=
  fold_left (fun metrics c => monitor_call c metrics) calls [].

Definition recorded (calls : list MonitorCall) : list PerformanceMetrics :=
  flat_map (fun c => match c with
                     | RecordMetric metric => [metric]
                     | ClearOldMetrics _ => []
                     end) calls.

(** The last [n] elements of a list. *)
Definition latest (T : Type) (n : nat) (l : list T) : list T :=
  skipn (List.length l - n) l.

(** ** [PerformanceOptimizer.batch] and [DatabaseOptimizer.batchInsert] *)

(** The loop of [batch], for a batch size that is an integer: [i] runs
    from 0 in steps of [batchSize] while it is below the number of items;
    [fuel] bounds the number of rounds, and [None] says that it did not
    suffice. *)
Fixpoint batch_loop (T : Type) (fuel : nat) (items : list T)
  (batchSize i : Z) (batches : list (list T)) : option (list (list T)) :=
  if i <? Z.of_nat (List.length items)
  then match fuel with
       | O => None
       | S fuel' =>
           batch_loop fuel' items batchSize (i + batchSize)
             (batches ++ [slice items i (i + batchSize)])
       end
  else Some batches.

(** The batches that [batch] hands to the processor, in the order in which
    it starts it on them. *)
Definition batch (T : Type) (fuel : nat) (items : list T) (batchSize : Z)
  : option (list (list T)) :=
  batch_loop fuel items batchSize 0 [].

Section BatchInsert.

(** The collection is any object with an [insertMany]: the state of the
    collection, and what [insertMany(batch)] makes of it, with [false] for
    a rejected promise. *)
Variables (T C : Type).
Variable insertMany : list T -> C -> bool * C.



End BatchInsert.


(** ** [PerformanceOptimizer.memoize] *)

Section Memoize.

Variables (Args Result : Type).
Variable func : Args -> Result.
Variable keyGenerator : option (Args -> string).

(** [JSON.stringify(args)] *)
Variable stringify : Args -> string.

(** The [Map] of the closure in insertion order, and the arguments [func]
    has been called with. *)
Record Memo : Type := mkMemo {
  memo_cache : list (string * Result);
  evaluated : list Args
}.

Definition memo_empty : Memo := mkMemo [] [].

Definition memo_key (args : Args) : string :=
  match keyGenerator with
  | Some g => g args
  | None => stringify args
  end.

(** [cache.has(key)] and [cache.get(key)] *)
Definition memo_get (key : string) (cache : list (string * Result))
  : option Result :=
  option_map snd (find (fun kv => String.eqb (fst kv) key) cache).

(** One call of the function [memoize] returns. *)
Definition memoized (args : Args) (m : Memo) : Result * Memo :=
  let key := memo_key args in
  match memo_get key (memo_cache m) with
  | Some cached => (cached, m)
  | None =>
      let result := func args in
      (result,
       mkMemo (memo_cache m ++ [(key, result)]) (evaluated m ++ [args]))
  end.

(** Calls one after the other, with their results. *)
Fixpoint memoized_all (calls : list Args) (m : Memo) : list Result * Memo :=
  match calls with
  | [] => ([], m)
  | args :: rest =>
      let (r, m') := memoized args m in
      let (rs, m'') := memoized_all rest m' in
      (r :: rs, m'')
  end.

(** The arguments that have the key of [args]. *)
Definition same_key (args a : Args) : bool :=
  String.eqb (memo_key a) (memo_key args).

(** The first of the arguments that has the key of [args]. *)
Definition first_with_key (args : Args) (calls : list Args) : Args :=
  match find (same_key args) calls with
  | Some a => a
  | None => args
  end.

(** The cache holds the result of every evaluation under its key, and no
    key twice. *)
Definition memo_inv (m : Memo) : Prop :=
  memo_cache m = map (fun a => (memo_key a, func a)) (evaluated m)
  /\ NoDup (map memo_key (evaluated m)).

End Memoize.

(** ** [PerformanceOptimizer.throttle] and [PerformanceOptimizer.debounce] *)

Section Timers.

Variable Args : Type.

(** What happens to the function that [throttle] or [debounce] returns:
    it is called with arguments at a time, or the host runs the callback of
    a timer, which it does at a time that is no earlier than the delay
    after the timer was set.  Times are whole milliseconds, and events come
    in the order of time. *)
Inductive TimerEvent : Type :=
| Called (t : Z) (args : Args)
| TimerRuns (t : Z).

Definition time_of (e : TimerEvent) : Z :=
  match e with Called t _ => t | TimerRuns t => t end.

(** The closure of [throttle]: [inThrottle] (undefined at first, which is
    falsy), the times at which the timers that were set may run, oldest
    first, and the calls of [func] made so far, with their times. *)
Record Throttle : Type := mkThrottle {
  inThrottle : bool;
  throttle_timers : list Z;
  throttle_clock : Z;
  throttle_invoked : list (Z * Args)
}.

Definition throttle_start (t : Z) : Throttle := mkThrottle false [] t [].

(** One event; [None] when the host cannot produce it in this state. *)
Definition throttle_step (limit : Z) (e : TimerEvent) (s : Throttle)
  : option Throttle :=
  if time_of e <? throttle_clock s then None
  else
    match e with
    | Called t args =>
        if negb (inThrottle s)
        then Some (mkThrottle true (throttle_timers s ++ [t + limit]) t
                              (throttle_invoked s ++ [(t, args)]))
        else Some (mkThrottle (inThrottle s) (throttle_timers s) t
                              (throttle_invoked s))
    | TimerRuns t =>
        match throttle_timers s with
        | due :: rest =>
            if due <=? t
            then Some (mkThrottle false rest t (throttle_invoked s))
            else None
        | [] => None
        end
    end.

Fixpoint throttle_run (limit : Z) (trace : list TimerEvent) (s : Throttle)
  : option Throttle :=
  match trace with
  | [] => Some s
  | e :: rest =>
      match throttle_step limit e s with
      | Some s' => throttle_run limit rest s'
      | None => None
      end
  end.

(** Each call of [func] is at least [limit] after the one before. *)
Fixpoint spaced (limit : Z) (invoked : list (Z * Args)) : Prop :=
  match invoked with
  | [] => True
  | (t1, _) :: rest =>
      match rest with
      | [] => True
      | (t2, _) :: _ => t1 + limit <= t2
      end
      /\ spaced limit rest
  end.

(** The closure of [debounce]: the pending timer with the arguments its
    callback holds, and the calls of [func] made so far. *)
Record Debounce : Type := mkDebounce {
  timeout : option (Z * Args);
  debounce_clock : Z;
  debounce_invoked : list (Z * Args)
}.

Definition debounce_start (t : Z) : Debounce := mkDebounce None t [].

Definition debounce_step (wait : Z) (e : TimerEvent) (s : Debounce)
  : option Debounce :=
  if time_of e <? debounce_clock s then None
  else
    match e with
    | Called t args =>
        Some (mkDebounce (Some (t + wait, args)) t (debounce_invoked s))
    | TimerRuns t =>
        match timeout s with
        | Some (due, args) =>
            if due <=? t
            then Some (mkDebounce None t (debounce_invoked s ++ [(t, args)]))
            else None
        | None => None
        end
    end.

Fixpoint debounce_run (wait : Z) (trace : list TimerEvent) (s : Debounce)
  : option Debounce :=
  match trace with
  | [] => Some s
  | e :: rest =>
      match debounce_step wait e s with
      | Some s' => debounce_run wait rest s'
      | None => None
      end
  end.

(** The calls that are served: a timer that runs serves the last call
    before it, if no timer has served it yet. *)
Fixpoint settled_from (pending : option Args) (trace : list TimerEvent)
  : list (Z * Args) :=
  match trace with
  | [] => []
  | Called _ args :: rest => settled_from (Some args) rest
  | TimerRuns t :: rest =>
      match pending with
      | Some args => (t, args) :: settled_from None rest
      | None => settled_from None rest
      end
  end.

Definition settled (trace : list TimerEvent) : list (Z * Args) :=
  settled_from None trace.

End Timers.

(** ** [CacheOptimizer] *)

(** [version] is 'v1' when the caller gives none. *)
Definition generateCacheKey (baseKey : string) (version : option string)
  : string :=
  baseKey ++ ":" ++ match version with Some v => v | None => "v1" end.

(** [isCacheValid(timestamp, ttl)] when [Date.now()] is [now]; times are
    whole milliseconds. *)
Definition isCacheValid (now timestamp ttl : Z) : bool :=
  now - timestamp <? ttl.

Inductive DataType : Type := employees_type | departments_type
                           | employee_details_type.

Definition calculateTTL (dataType : DataType) : Z :=
  match dataType with
  | employees_type => 300000
  | departments_type => 1800000
  | employee_details_type => 600000
  end.

End Performance.

(* ===================================================================== *)
(** * Lemmas *)
(* ===================================================================== *)

Import Js Bson Mongo Route Threads Props.

Unset Implicit Arguments.

Arguments lookup_id : simpl never.
Arguments has_id : simpl never.
Arguments trim : simpl never.
Arguments isValid : simpl never.
Arguments ObjectId_new : simpl never.
Arguments toString : simpl never.
Arguments generate : simpl never.
Arguments Lru.set : simpl never.
Arguments Lru.maxSize : simpl never.

(** ** Comparisons of numbers *)

Lemma SFcompare_antisym (a b : spec_float) :
  SFcompare b a = option_map CompOpp (SFcompare a b).
Proof.
  destruct a as [sa|sa| |sa ma ea], b as [sb|sb| |sb mb eb]; simpl;
    try reflexivity;
    try (destruct sa; reflexivity); try (destruct sb; reflexivity);
    try (destruct sa, sb; reflexivity).
  destruct sa, sb; simpl; try reflexivity;
    rewrite (Z.compare_antisym ea eb);
    destruct (ea ?= eb); simpl; try reflexivity;
    rewrite (Pos.compare_cont_antisym ma mb Eq); reflexivity.
Qed.

Lemma SFcompare_None (a b : spec_float) :
  SFcompare a b = None <-> a = S754_nan \/ b = S754_nan.
Proof.
  destruct a as [sa|sa| |sa ma ea], b as [sb|sb| |sb mb eb]; simpl;
    split; intros H; try discriminate; auto;
    destruct H; discriminate.
Qed.

Lemma num_le_not_gt (a b : number) :
  a <> NaN -> b <> NaN -> num_le a b = negb (num_lt b a).
Proof.
  intros Ha Hb. unfold num_le, num_lt, SFleb, SFltb.
  rewrite (SFcompare_antisym a b).
  destruct (SFcompare a b) as [c|] eqn:E.
  - destruct c; reflexivity.
  - apply SFcompare_None in E. destruct E; contradiction.
Qed.

Lemma NaN_dec (s : number) : s = NaN \/ s <> NaN.
Proof.
  destruct s; [right | right | left | right]; unfold NaN; congruence.
Qed.

Lemma salary_accepted_iff (s : number) :
  salary_accepted s = true <-> in_documented_range s = true \/ s = NaN.
Proof.
  destruct (NaN_dec s) as [-> | Hs].
  - split; [right; reflexivity | reflexivity].
  - unfold salary_accepted, in_documented_range.
    rewrite !num_le_not_gt by (assumption || discriminate).
    unfold num_gt, num_lt. rewrite negb_orb.
    split; [left; assumption | intros [H | H]; [assumption | contradiction]].
Qed.

(** ** Trimming *)

Lemma hex_not_space (c : ascii) : is_hex c = true -> is_space c = false.
Proof.
  destruct c as [b0 b1 b2 b3 b4 b5 b6 b7].
  destruct b0, b1, b2, b3, b4, b5, b6, b7; vm_compute; congruence.
Qed.

Lemma all_hex_no_space (s : string) : all_hex s = true -> no_space s = true.
Proof.
  induction s as [| c r IH]; simpl; [reflexivity |].
  intros H. apply andb_prop in H. destruct H as [Hc Hr].
  rewrite (hex_not_space c Hc), (IH Hr). reflexivity.
Qed.

Lemma trimStart_spaces (l x : string) :
  all_space l = true -> trimStart (l ++ x) = trimStart x.
Proof.
  induction l as [| c l IH]; simpl; [reflexivity |].
  intros H. apply andb_prop in H. destruct H as [Hc Hl].
  rewrite Hc. exact (IH Hl).
Qed.

Lemma trimEnd_spaces (r : string) : all_space r = true -> trimEnd r = "".
Proof.
  induction r as [| c r IH]; simpl; [reflexivity |].
  intros H. apply andb_prop in H. destruct H as [Hc Hr].
  rewrite (IH Hr), Hc. reflexivity.
Qed.

Lemma trimEnd_app_spaces (s r : string) :
  all_space r = true -> trimEnd (s ++ r) = trimEnd s.
Proof.
  intros Hr. induction s as [| c s IH]; simpl.
  - apply trimEnd_spaces; assumption.
  - rewrite IH. reflexivity.
Qed.

Lemma trimEnd_no_space (s : string) : no_space s = true -> trimEnd s = s.
Proof.
  induction s as [| c s IH]; simpl; [reflexivity |].
  intros H. apply andb_prop in H. destruct H as [Hc Hs].
  rewrite (IH Hs). apply negb_true_iff in Hc. rewrite Hc.
  destruct s; reflexivity.
Qed.

Lemma trim_padded (l s r : string) :
  all_space l = true -> all_space r = true -> no_space s = true ->
  trim (l ++ s ++ r) = s.
Proof.
  intros Hl Hr Hs. unfold trim.
  rewrite (trimStart_spaces l (s ++ r) Hl).
  destruct s as [| c s].
  - simpl. rewrite (trimEnd_spaces (trimStart r)); [reflexivity|].
    clear - Hr. induction r as [| c r IH]; simpl; [reflexivity|].
    simpl in Hr. apply andb_prop in Hr. destruct Hr as [Hc Hr]. rewrite Hc. auto.
  - assert (Hc : is_space c = false).
    { simpl in Hs. apply andb_prop in Hs. destruct Hs as [Hc _].
      apply negb_true_iff in Hc. exact Hc. }
    change ((String c s ++ r)%string) with (String c (s ++ r)).
    cbn [trimStart]. rewrite Hc.
    change (String c (s ++ r)) with ((String c s ++ r)%string).
    rewrite (trimEnd_app_spaces _ r Hr). apply trimEnd_no_space. assumption.
Qed.

(** ** Identifiers and their text *)

Lemma hex_digit_hex_char (d : N) :
  (d < 16)%N -> hex_digit (hex_char d) = Some d.
Proof.
  intros H.
  assert (E : d = N.of_nat (N.to_nat d)) by (symmetry; apply N2Nat.id).
  assert (L : (N.to_nat d < 16)%nat) by lia.
  rewrite E. generalize dependent (N.to_nat d). intros k _ L.
  do 16 (destruct k as [| k]; [reflexivity |]). lia.
Qed.

Lemma length_to_hex (k : nat) (n : N) (acc : string) :
  String.length (to_hex k n acc) = (k + String.length acc)%nat.
Proof.
  revert n acc. induction k as [| k IH]; intros n acc; simpl; [reflexivity |].
  rewrite IH. simpl. lia.
Qed.

Lemma all_hex_to_hex (k : nat) (n : N) (acc : string) :
  all_hex (to_hex k n acc) = all_hex acc.
Proof.
  revert n acc. induction k as [| k IH]; intros n acc; simpl; [reflexivity |].
  rewrite IH. simpl. unfold is_hex.
  rewrite hex_digit_hex_char; [reflexivity |].
  apply N.mod_lt. discriminate.
Qed.

Lemma parse_hex_to_hex (k : nat) (n : N) (acc : string) (a : N) :
  parse_hex (to_hex k n acc) a
  = parse_hex acc (a * 16 ^ N.of_nat k + n mod 16 ^ N.of_nat k)%N.
Proof.
  revert n acc a. induction k as [| k IH]; intros n acc a.
  - simpl. rewrite N.mod_1_r. f_equal. lia.
  - cbn [to_hex]. rewrite IH. cbn [parse_hex].
    rewrite hex_digit_hex_char by (apply N.mod_lt; discriminate).
    f_equal. rewrite Nat2N.inj_succ, N.pow_succ_r'.
    rewrite (N.Div0.mod_mul_r n 16 (16 ^ N.of_nat k)). lia.
Qed.

Lemma toString_valid (oid : ObjectId) : isValid (toString oid) = true.
Proof.
  unfold isValid, toString. rewrite length_to_hex, all_hex_to_hex. reflexivity.
Qed.

Lemma ObjectId_new_toString (oid : ObjectId) :
  (oid < ObjectId_bound)%N -> ObjectId_new (toString oid) = Some oid.
Proof.
  intros H. unfold ObjectId_new. rewrite toString_valid.
  unfold toString. rewrite parse_hex_to_hex. simpl parse_hex.
  f_equal. change (16 ^ N.of_nat 24)%N with ObjectId_bound.
  rewrite N.mod_small by assumption. lia.
Qed.

Lemma all_hex_parse (s : string) (acc : N) :
  all_hex s = true -> exists n, parse_hex s acc = Some n.
Proof.
  revert acc. induction s as [| c s IH]; intros acc; simpl.
  - eauto.
  - unfold is_hex. destruct (hex_digit c) as [d |]; [| discriminate].
    simpl. intros H. apply IH. assumption.
Qed.

Lemma isValid_new (s : string) :
  isValid s = true -> exists oid, ObjectId_new s = Some oid.
Proof.
  intros H. unfold ObjectId_new. rewrite H.
  apply all_hex_parse. unfold isValid in H.
  apply andb_prop in H. tauto.
Qed.

Lemma length_append (a b : string) :
  String.length (a ++ b) = (String.length a + String.length b)%nat.
Proof. induction a as [| c a IH]; simpl; [reflexivity | rewrite IH; reflexivity]. Qed.

(** ** [addEmployee], case by case *)

Lemma validate_texts (n p d : string) (s : number) :
  valid_texts n p d = true ->
  validate n p d s =
    if salary_accepted s then None else Some salary_message.
Proof.
  unfold valid_texts, validate, salary_accepted. intros H.
  apply andb_prop in H. destruct H as [H Hd].
  apply andb_prop in H. destruct H as [Hn Hp].
  apply negb_true_iff in Hn, Hp, Hd. rewrite Hn, Hp, Hd.
  destruct (num_lt s (of_Z 1000) || num_gt s (of_Z 1000000)); reflexivity.
Qed.

Lemma addEmployee_rejects_salary (n p d : string) (s : number) (st : State) :
  valid_texts n p d = true ->
  salary_accepted s = false ->
  addEmployee n p d s st =
    (Rejected ("Error adding employee: " ++ salary_message), st).
Proof.
  intros Ht Hs. unfold addEmployee, try_catch.
  rewrite (validate_texts _ _ _ s Ht), Hs. reflexivity.
Qed.

Lemma addEmployee_succeeds (n p d : string) (s : number) (st : State) :
  valid_texts n p d = true ->
  salary_accepted s = true ->
  has_id (generate (next_id (store st))) (employees (store st)) = false ->
  addEmployee n p d s st =
    (Fulfilled
       (employee_value (generate (next_id (store st)), newEmployee n p d s)),
     added n p d s st).
Proof.
  intros Ht Hs Hf. unfold addEmployee, try_catch.
  rewrite (validate_texts _ _ _ s Ht), Hs.
  unfold bind, on_store, insertOneEmployee, insert_all.
  rewrite Hf. reflexivity.
Qed.

Lemma addEmployee_duplicate (n p d : string) (s : number) (st : State) :
  valid_texts n p d = true ->
  salary_accepted s = true ->
  has_id (generate (next_id (store st))) (employees (store st)) = true ->
  fst (addEmployee n p d s st) =
    Rejected ("Error adding employee: " ++ duplicate_key).
Proof.
  intros Ht Hs Hf. unfold addEmployee, try_catch.
  rewrite (validate_texts _ _ _ s Ht), Hs.
  unfold bind, on_store, insertOneEmployee, insert_all.
  rewrite Hf. reflexivity.
Qed.

Lemma lookup_id_app_new {A : Type} (oid : ObjectId) (doc : A)
  (docs : list (ObjectId * A)) :
  has_id oid docs = false ->
  lookup_id oid (docs ++ [(oid, doc)]) = Some doc.
Proof.
  unfold has_id, lookup_id. induction docs as [| [i x] docs IH]; simpl.
  - intros _. rewrite N.eqb_refl. reflexivity.
  - intros H. apply orb_false_iff in H. destruct H as [H1 H2].
    rewrite H1. exact (IH H2).
Qed.

Lemma addEmployee_fulfils_iff (n p d : string) (s : number) (st : State) :
  valid_texts n p d = true ->
  has_id (generate (next_id (store st))) (employees (store st)) = false ->
  (exists r, fst (addEmployee n p d s st) = Fulfilled r)
  <-> salary_accepted s = true.
Proof.
  intros Ht Hf. destruct (salary_accepted s) eqn:Hs.
  - rewrite (addEmployee_succeeds _ _ _ _ _ Ht Hs Hf). simpl.
    split; [reflexivity | eauto].
  - rewrite (addEmployee_rejects_salary _ _ _ _ st Ht Hs). simpl.
    split; [intros [r Hr]; discriminate | discriminate].
Qed.

(* ===================================================================== *)
(** * The salary check (claims C4 and C9) *)
(* ===================================================================== *)


(** The four boundary values and the values the check lets through.  With
    the other fields valid (and the store accepting the insertion), salary
    999 fails with the salary validation error, 1000 succeeds, 1,000,000
    succeeds and 1,000,001 fails; the check lets through exactly the values
    for which neither [salary < 1000] nor [salary > 1000000] holds, that is
    the numbers of the range 1000 <= salary <= 1,000,000 and NaN. *)
Lemma salary_range_check :
  forall (n p d : string) (st : State),
    valid_texts n p d = true ->
    has_id (generate (next_id (store st))) (employees (store st)) = false ->
    fst (addEmployee n p d (of_Z 999) st)
      = Rejected ("Error adding employee: " ++ salary_message)
    /\ fst (addEmployee n p d (of_Z 1000) st)
       = Fulfilled (employee_value (generate (next_id (store st)),
                                    newEmployee n p d (of_Z 1000)))
    /\ fst (addEmployee n p d (of_Z 1000000) st)
       = Fulfilled (employee_value (generate (next_id (store st)),
                                    newEmployee n p d (of_Z 1000000)))
    /\ fst (addEmployee n p d (of_Z 1000001) st)
       = Rejected ("Error adding employee: " ++ salary_message)
    /\ forall s : number,
         (exists r, fst (addEmployee n p d s st) = Fulfilled r)
         <-> (in_documented_range s = true \/ s = NaN).
Proof.
  intros n p d st Ht Hf. repeat split.
  - rewrite (addEmployee_rejects_salary n p d (of_Z 999) st Ht); reflexivity.
  - rewrite (addEmployee_succeeds n p d (of_Z 1000) st Ht); reflexivity || assumption.
  - rewrite (addEmployee_succeeds n p d (of_Z 1000000) st Ht);
      reflexivity || assumption.
  - rewrite (addEmployee_rejects_salary n p d (of_Z 1000001) st Ht);
      reflexivity.
  - intros H. apply salary_accepted_iff.
    apply (addEmployee_fulfils_iff n p d s st Ht Hf). exact H.
  - intros H. apply (addEmployee_fulfils_iff n p d s st Ht Hf).
    apply salary_accepted_iff. exact H.
Qed.

Example salary_range_check_at_seed :
  fst (addEmployee "Jane Doe" "Engineer" "Engineering" (of_Z 999) seeded_state)
    = Rejected ("Error adding employee: " ++ salary_message)
  /\ fst (addEmployee "Jane Doe" "Engineer" "Engineering" (of_Z 1000)
            seeded_state)
     = Fulfilled (employee_value
                    (generate (next_id (store seeded_state)),
                     newEmployee "Jane Doe" "Engineer" "Engineering"
                                 (of_Z 1000))).
Proof.
  destruct (salary_range_check "Jane Doe" "Engineer" "Engineering"
              seeded_state)
    as (H999 & H1000 & _).
  - reflexivity.
  - reflexivity.
  - split; assumption.
Qed.

(** C9.  With the text fields valid, [addEmployee] raises the salary error
    exactly when [salary < 1000 || salary > 1000000] evaluates to true.
    For NaN both comparisons are false: the input is accepted, and (the
    store accepting the insertion) a document whose salary is NaN, outside
    the documented range, is written and returned. *)
Theorem addEmployee_accepts_NaN :
  forall (n p d : string) (st : State),
    valid_texts n p d = true ->
    (forall s : number,
        fst (addEmployee n p d s st)
          = Rejected ("Error adding employee: " ++ salary_message)
        <-> num_lt s (of_Z 1000) || num_gt s (of_Z 1000000) = true)
    /\ num_lt NaN (of_Z 1000) = false
    /\ num_gt NaN (of_Z 1000000) = false
    /\ in_documented_range NaN = false
    /\ (has_id (generate (next_id (store st))) (employees (store st)) = false ->
        let oid := generate (next_id (store st)) in
        let doc := mkEmployee (trim n) (trim p) (trim d) NaN (Some 0) in
        addEmployee n p d NaN st
          = (Fulfilled (employee_value (oid, doc)), added n p d NaN st)
        /\ lookup_id oid (employees (store (added n p d NaN st))) = Some doc
        /\ field "salary" (employee_value (oid, doc)) = Some (VNum NaN)).
Proof.
  intros n p d st Ht. split; [| repeat split].
  - intros s. split.
    + intros H.
      destruct (num_lt s (of_Z 1000) || num_gt s (of_Z 1000000)) eqn:Hc;
        [reflexivity |].
      assert (Hs : salary_accepted s = true)
        by (unfold salary_accepted; rewrite Hc; reflexivity).
      destruct (has_id (generate (next_id (store st))) (employees (store st)))
        eqn:Hf.
      * rewrite (addEmployee_duplicate n p d s st Ht Hs Hf) in H.
        vm_compute in H. discriminate.
      * rewrite (addEmployee_succeeds n p d s st Ht Hs Hf) in H.
        discriminate.
    + intros Hc.
      rewrite (addEmployee_rejects_salary n p d s st Ht); [reflexivity |].
      unfold salary_accepted. rewrite Hc. reflexivity.
  - apply (addEmployee_succeeds n p d NaN st Ht); [reflexivity | assumption].
  - simpl. apply lookup_id_app_new. assumption.
Qed.

Lemma addEmployee_accepts_NaN_witness :
  addEmployee "Jane Doe" "Engineer" "Engineering" NaN seeded_state
  = (Fulfilled
       (employee_value
          (generate (next_id (store seeded_state)),
           mkEmployee "Jane Doe" "Engineer" "Engineering" NaN (Some 0))),
     added "Jane Doe" "Engineer" "Engineering" NaN seeded_state).
Proof.
  destruct (addEmployee_accepts_NaN "Jane Doe" "Engineer" "Engineering"
              seeded_state)
    as (_ & _ & _ & _ & H).
  - reflexivity.
  - destruct H as (H & _); [reflexivity | exact H].
Defined.

(* ===================================================================== *)
(** * Counting views (claim C1) *)
(* ===================================================================== *)

Lemma lookup_update_first {A : Type} (u : A -> A) (oid : ObjectId) (doc : A)
  (docs : list (ObjectId * A)) :
  lookup_id oid docs = Some doc ->
  lookup_id oid (update_first u oid docs) = Some (u doc).
Proof.
  unfold lookup_id. induction docs as [| [i x] docs IH]; simpl;
    [discriminate |].
  destruct (N.eqb i oid) eqn:E; simpl; rewrite E.
  - intros H. injection H as <-. reflexivity.
  - exact IH.
Qed.


Lemma incrementView_invalid (id : string) (st : State) :
  isValid (trim id) = false ->
  incrementView id st
  = (Rejected "Error incrementing view: Invalid employee ID format", st).
Proof.
  intros H. unfold incrementView, try_catch. rewrite H. reflexivity.
Qed.

Lemma incrementView_absent (id : string) (oid : ObjectId) (st : State) :
  isValid (trim id) = true ->
  ObjectId_new (trim id) = Some oid ->
  lookup_id oid (employees (store st)) = None ->
  incrementView id st
  = (Rejected "Error incrementing view: Employee not found",
     looked_up oid st).
Proof.
  intros Hv Hn Hl. unfold incrementView, try_catch. rewrite Hv, Hn.
  unfold bind, on_store, findOneEmployee. simpl. rewrite Hl. reflexivity.
Qed.

Lemma incrementView_found (id : string) (oid : ObjectId) (e : Employee)
  (st : State) :
  isValid (trim id) = true ->
  ObjectId_new (trim id) = Some oid ->
  lookup_id oid (employees (store st)) = Some e ->
  incrementView id st
  = (Fulfilled (employee_value (oid, inc_views e)),
     viewed id oid (department e) st).
Proof.
  intros Hv Hn Hl. unfold incrementView, try_catch. rewrite Hv, Hn.
  unfold bind, on_store, findOneEmployee. simpl. rewrite Hl. simpl.
  rewrite (lookup_update_first inc_views oid _ _ Hl). reflexivity.
Qed.



Lemma views_or_0_inc_views (e : Employee) :
  views_or_0 (inc_views e) = views_or_0 e + 1.
Proof. unfold inc_views, views_or_0. simpl. destruct (views e); reflexivity. Qed.




(* ===================================================================== *)
(** * Reading one employee *)
(* ===================================================================== *)

Lemma has_id_lookup_id {A : Type} (oid : ObjectId)
  (docs : list (ObjectId * A)) :
  has_id oid docs = false <-> lookup_id oid docs = None.
Proof.
  unfold has_id, lookup_id. induction docs as [| [i x] docs IH]; simpl.
  - tauto.
  - destruct (N.eqb i oid); simpl; [split; discriminate | exact IH].
Qed.

Lemma strip_prefix_app (p s : string) : strip_prefix p (p ++ s) = Some s.
Proof.
  induction p as [| c p IH]; simpl; [reflexivity |].
  rewrite Ascii.eqb_refl. exact IH.
Qed.

Lemma get_absent (now : Z) (key : string) (c : Lru.Cache) :
  Lru.lookup key c = None -> Lru.get now key c = (None, c).
Proof. intros H. unfold Lru.get. rewrite H. reflexivity. Qed.

Lemma sound_no_entry (db : Db) (c : Lru.Cache) (id : string) (oid : ObjectId) :
  forallb (entry_sound db) c = true ->
  ObjectId_new id = Some oid ->
  has_id oid (employees db) = false ->
  Lru.lookup (CACHE_KEYS.EMPLOYEE_DETAILS id) c = None.
Proof.
  intros Hs Hn Hf. unfold Lru.lookup.
  induction c as [| e c IH]; simpl; [reflexivity |].
  simpl in Hs. apply andb_prop in Hs. destruct Hs as [He Hc].
  destruct (String.eqb_spec (Lru.entry_key e) (CACHE_KEYS.EMPLOYEE_DETAILS id))
    as [Ek | _]; [| exact (IH Hc)].
  unfold entry_sound in He. rewrite Ek in He.
  unfold CACHE_KEYS.EMPLOYEE_DETAILS in He.
  rewrite strip_prefix_app, Hn, Hf in He. discriminate.
Qed.

Lemma getEmployeeDetails_invalid (now : Z) (id : string) (st : State) :
  isValid id = false ->
  getEmployeeDetails now id st = (Rejected invalid_id_message, st).
Proof.
  intros H. unfold getEmployeeDetails, try_catch. rewrite H. reflexivity.
Qed.

Lemma getEmployeeDetails_absent (now : Z) (id : string) (oid : ObjectId)
  (st : State) :
  isValid id = true ->
  ObjectId_new id = Some oid ->
  Lru.lookup (CACHE_KEYS.EMPLOYEE_DETAILS id) (cache st) = None ->
  lookup_id oid (employees (store st)) = None ->
  getEmployeeDetails now id st = (Rejected not_found_message, looked_up oid st).
Proof.
  intros Hv Hn Hc Hl. unfold getEmployeeDetails, try_catch. rewrite Hv, Hn.
  unfold bind, getFromCache. cbn [negb]. cbv beta iota zeta. rewrite (get_absent now _ _ Hc).
  unfold on_store, findOneEmployee. simpl. rewrite Hl. reflexivity.
Qed.

Lemma getEmployeeDetails_reads (now : Z) (id : string) (oid : ObjectId)
  (e : Employee) (st : State) :
  isValid id = true ->
  ObjectId_new id = Some oid ->
  Lru.lookup (CACHE_KEYS.EMPLOYEE_DETAILS id) (cache st) = None ->
  lookup_id oid (employees (store st)) = Some e ->
  getEmployeeDetails now id st
  = (Fulfilled (employee_value (oid, e)), detailed now id (oid, e) st).
Proof.
  intros Hv Hn Hc Hl. unfold getEmployeeDetails, try_catch. rewrite Hv, Hn.
  unfold bind, getFromCache. cbn [negb]. cbv beta iota zeta. rewrite (get_absent now _ _ Hc).
  unfold on_store, findOneEmployee. simpl. rewrite Hl. reflexivity.
Qed.

Lemma trim_padded_id (l s r : string) :
  isValid s = true -> all_space l = true -> all_space r = true ->
  trim (l ++ s ++ r) = s.
Proof.
  intros Hv Hl Hr. apply trim_padded; try assumption.
  apply all_hex_no_space. unfold isValid in Hv.
  apply andb_prop in Hv. tauto.
Qed.

Lemma padded_invalid (l s r : string) :
  isValid s = true -> (l ++ r)%string <> EmptyString ->
  isValid (l ++ s ++ r) = false.
Proof.
  unfold isValid. intros Hs Hne.
  apply andb_prop in Hs. destruct Hs as [Hlen _].
  apply Nat.eqb_eq in Hlen.
  apply andb_false_iff. left. apply Nat.eqb_neq.
  rewrite !length_append, Hlen.
  destruct l as [| c l]; [destruct r as [| c r] |]; simpl in *;
    [congruence | lia | lia].
Qed.

(* ===================================================================== *)
(** * Trimmed and untrimmed identifiers (claim C10) *)
(* ===================================================================== *)

(** C10.  [incrementView] trims its argument before testing its format and
    [getEmployeeDetails] tests the raw string: for a valid identifier [s] of
    an existing document, padded with white space [l] and [r] (not both
    empty), [incrementView] succeeds and returns the incremented record,
    and [getEmployeeDetails] fails with the invalid-identifier error. *)
Theorem padded_identifier :
  forall (now : Z) (l s r : string) (oid : ObjectId) (e : Employee)
         (st : State),
    isValid s = true ->
    ObjectId_new s = Some oid ->
    lookup_id oid (employees (store st)) = Some e ->
    all_space l = true ->
    all_space r = true ->
    (l ++ r)%string <> EmptyString ->
    trim (l ++ s ++ r) = s
    /\ incrementView (l ++ s ++ r) st
       = (Fulfilled (employee_value (oid, inc_views e)),
          viewed (l ++ s ++ r) oid (department e) st)
    /\ getEmployeeDetails now (l ++ s ++ r) st
       = (Rejected invalid_id_message, st).
Proof.
  intros now l s r oid e st Hv Hn Hl Hsl Hsr Hne.
  assert (Ht : trim (l ++ s ++ r) = s)
    by (apply trim_padded_id; assumption).
  split; [exact Ht | split].
  - apply incrementView_found; try rewrite Ht; assumption.
  - apply getEmployeeDetails_invalid. apply padded_invalid; assumption.
Qed.

Lemma padded_identifier_witness :
  incrementView "  000000000000000000000003 " seeded_state
  = (Fulfilled
       (employee_value
          (3%N, mkEmployee "Alice Johnson" "Senior Developer" "Engineering"
                           (of_Z 95000) (Some 1))),
     viewed "  000000000000000000000003 " 3%N "Engineering" seeded_state)
  /\ getEmployeeDetails 0 "  000000000000000000000003 " seeded_state
     = (Rejected invalid_id_message, seeded_state).
Proof.
  destruct (padded_identifier 0 "  " "000000000000000000000003" " " 3%N
              (mkEmployee "Alice Johnson" "Senior Developer" "Engineering"
                          (of_Z 95000) (Some 0))
              seeded_state)
    as (_ & H1 & H2);
    [reflexivity | reflexivity | reflexivity | reflexivity | reflexivity
    | discriminate | ].
  split; [exact H1 | exact H2].
Defined.

(* ===================================================================== *)
(** * Errors and their codes (claim C5) *)
(* ===================================================================== *)

(** C5, counterexample.  A malformed identifier and a well-formed one that
    names no document both surface with the code INTERNAL_SERVER_ERROR: the
    code does not tell them apart. *)
Lemma invalid_and_absent_share_code :
  option_map formatted_code
    (surfaced "2025-01-01T00:00:00.000Z"
       (fst (getEmployeeDetails 0 "not-a-valid-id" seeded_state)))
  = Some "INTERNAL_SERVER_ERROR"
  /\ option_map formatted_code
       (surfaced "2025-01-01T00:00:00.000Z"
          (fst (getEmployeeDetails 0 "0000000000000000000000ff" seeded_state)))
     = Some "INTERNAL_SERVER_ERROR".
Proof. split; reflexivity. Qed.

(** C5, as amended.  Every error surfaced to the caller carries a message
    and a non-empty machine-readable code; a rejection of a resolver
    surfaces with its message and the code INTERNAL_SERVER_ERROR.
    [getEmployeeDetails] on a malformed identifier fails with "Invalid
    employee ID format", and on a well-formed identifier that names no
    document (in a well-formed state) with "Employee not found": the two
    cases carry the same code and differ by the message text only. *)
Theorem errors_differ_by_message_only :
  (forall (timestamp : string) (error : GraphQLError),
      formatted_message (formatError timestamp error) = message error
      /\ falsy_string (formatted_code (formatError timestamp error)) = false)
  /\ (forall (A : Type) (timestamp message : string),
         surfaced timestamp (@Rejected A message)
         = Some (mkFormattedError message "INTERNAL_SERVER_ERROR" timestamp))
  /\ (forall (now : Z) (id : string) (st : State),
         isValid id = false ->
         fst (getEmployeeDetails now id st) = Rejected invalid_id_message)
  /\ (forall (now : Z) (id : string) (st : State),
         isValid id = true ->
         well_formed st = true ->
         (forall oid, ObjectId_new id = Some oid ->
                      lookup_id oid (employees (store st)) = None) ->
         fst (getEmployeeDetails now id st) = Rejected not_found_message)
  /\ invalid_id_message <> not_found_message.
Proof.
  split; [| split; [| split; [| split]]].
  - intros timestamp [msg [code |]]; simpl; [| split; reflexivity].
    split; [reflexivity |]. destruct code; reflexivity.
  - reflexivity.
  - intros now id st H. rewrite getEmployeeDetails_invalid by exact H.
    reflexivity.
  - intros now id st Hv Hw Ha.
    destruct (isValid_new id Hv) as [oid Hn].
    specialize (Ha oid Hn).
    unfold well_formed in Hw. apply andb_prop in Hw. destruct Hw as [_ Hs].
    rewrite (getEmployeeDetails_absent now id oid st Hv Hn); [reflexivity | | exact Ha].
    apply (sound_no_entry (store st) (cache st) id oid Hs Hn).
    apply has_id_lookup_id. exact Ha.
  - discriminate.
Qed.

Lemma errors_differ_by_message_only_witness :
  fst (getEmployeeDetails 0 "not-a-valid-id" seeded_state)
  = Rejected invalid_id_message
  /\ fst (getEmployeeDetails 0 "0000000000000000000000ff" seeded_state)
     = Rejected not_found_message.
Proof.
  destruct errors_differ_by_message_only as (_ & _ & H1 & H2 & _).
  split.
  - apply H1. reflexivity.
  - apply H2; [reflexivity | reflexivity |].
    intros oid H. vm_compute in H. injection H as <-. reflexivity.
Defined.

(* ===================================================================== *)
(** * Seeding (claim C7) *)
(* ===================================================================== *)

Lemma generate_apart (n j k : N) :
  (j < k)%N -> (k < ObjectId_bound)%N -> generate (n + j) <> generate (n + k).
Proof.
  unfold generate. intros Hjk Hk E.
  pose proof (N.div_mod (n + j) ObjectId_bound) as D1.
  pose proof (N.div_mod (n + k) ObjectId_bound) as D2.
  rewrite E in D1.
  assert (B : ObjectId_bound <> 0%N) by discriminate.
  specialize (D1 B). specialize (D2 B).
  set (q1 := ((n + j) / ObjectId_bound)%N) in *.
  set (q2 := ((n + k) / ObjectId_bound)%N) in *.
  set (r := ((n + k) mod ObjectId_bound)%N) in *.
  assert (Hd : (k - j = ObjectId_bound * (q2 - q1))%N) by nia.
  destruct (N.eq_dec q2 q1) as [-> | Hq]; [lia |].
  assert (ObjectId_bound <= k - j)%N by nia. lia.
Qed.

Lemma assign_app {A : Type} (pre new : list A) (next : N) :
  assign (pre ++ new)%list next
  = (assign pre next
       ++ assign new (next + N.of_nat (List.length pre))%N)%list.
Proof.
  revert next. induction pre as [| d pre IH]; intros next.
  - simpl. rewrite N.add_0_r. reflexivity.
  - cbn [app assign List.length]. rewrite IH. do 3 f_equal. lia.
Qed.

Lemma has_id_assign {A : Type} (pre : list A) (next : N) (k : N) :
  (N.of_nat (List.length pre) <= k)%N -> (k < ObjectId_bound)%N ->
  has_id (generate (next + k)) (assign pre next) = false.
Proof.
  unfold has_id. revert next k.
  induction pre as [| d pre IH]; intros next k Hle Hk; [reflexivity |].
  cbn [assign existsb fst List.length] in *.
  apply orb_false_iff. split.
  - apply N.eqb_neq. replace next with (next + 0)%N at 1 by lia.
    apply generate_apart; lia.
  - replace (next + k)%N with (N.succ next + (k - 1))%N by lia.
    apply IH; lia.
Qed.

Lemma insert_all_assign {A : Type} (new pre : list A) (next : N) :
  (N.of_nat (List.length pre + List.length new) <= ObjectId_bound)%N ->
  insert_all new (assign pre next) (next + N.of_nat (List.length pre))
  = (true, assign (pre ++ new)%list next,
     (next + N.of_nat (List.length pre + List.length new))%N).
Proof.
  revert pre. induction new as [| d new IH]; intros pre Hb.
  - cbn [insert_all List.length]. rewrite app_nil_r, Nat.add_0_r. reflexivity.
  - cbn [insert_all]. cbn [List.length] in Hb.
    rewrite has_id_assign by lia.
    replace (assign pre next
               ++ [(generate (next + N.of_nat (List.length pre)), d)])%list
      with (assign (pre ++ [d])%list next)
      by (rewrite assign_app; reflexivity).
    replace (N.succ (next + N.of_nat (List.length pre)))
      with (next + N.of_nat (List.length (pre ++ [d])%list))%N
      by (rewrite length_app; simpl; lia).
    rewrite IH by (rewrite length_app; simpl; lia).
    rewrite <- app_assoc, length_app. cbn [app List.length].
    do 2 f_equal. lia.
Qed.

Lemma insert_all_empty {A : Type} (new : list A) (next : N) :
  (N.of_nat (List.length new) <= ObjectId_bound)%N ->
  insert_all new [] next
  = (true, assign new next, (next + N.of_nat (List.length new))%N).
Proof.
  intros Hb.
  pose proof (insert_all_assign new [] next) as H.
  cbn [assign List.length app Nat.add] in H.
  rewrite N.add_0_r in H. apply H. exact Hb.
Qed.

Lemma connectDB_connected (st : State) :
  cachedDb st = true -> connectDB st = (Fulfilled tt, st).
Proof. intros H. unfold connectDB. rewrite H. reflexivity. Qed.

Lemma connectDB_seeds (st : State) :
  cachedDb st = false ->
  employees (store st) = [] ->
  departments (store st) = [] ->
  connectDB st = (Fulfilled tt, seeded st).
Proof.
  intros Hc He Hd. unfold connectDB. rewrite Hc.
  unfold try_catch, bind, set_cachedDb, seedData, bind, on_store,
    countEmployees, countDepartments.
  cbn [store cachedDb cache log employees departments fst snd].
  rewrite He, Hd. cbn [List.length Nat.ltb Nat.leb orb].
  unfold insertMany, bind, on_store, insertManyDepartments.
  cbn [store cachedDb cache log employees departments next_id oplog].
  rewrite Hd, insert_all_empty by (vm_compute; discriminate).
  cbn [store cachedDb cache log employees departments next_id oplog ret].
  unfold insertManyEmployees.
  cbn [store cachedDb cache log employees departments next_id oplog].
  rewrite He, insert_all_empty by (vm_compute; discriminate).
  cbn [store cachedDb cache log employees departments next_id oplog ret].
  unfold ensureViewsField, try_catch, bind, on_store, setMissingViews, ret.
  cbn [store cachedDb cache log employees departments next_id oplog].
  unfold seeded. cbn -[of_Z N.add]. reflexivity.
Qed.

Lemma connectDB_finds_documents (st : State) :
  cachedDb st = false ->
  employees (store st) <> [] \/ departments (store st) <> [] ->
  connectDB st = (Fulfilled tt, connected st).
Proof.
  intros Hc Hne. unfold connectDB. rewrite Hc.
  unfold try_catch, bind, set_cachedDb, seedData, bind, on_store,
    countEmployees, countDepartments.
  cbn [store cachedDb cache log employees departments fst snd].
  assert (Hb : ((0 <? List.length (employees (store st)))%nat
                || (0 <? List.length (departments (store st)))%nat) = true).
  { apply orb_true_iff.
    destruct Hne as [H | H]; [left | right]; apply Nat.ltb_lt.
    - destruct (employees (store st)); [congruence | simpl; lia].
    - destruct (departments (store st)); [congruence | simpl; lia]. }
  rewrite Hb. reflexivity.
Qed.






(* ===================================================================== *)
(** * Adding an employee and reading it back (claim C3) *)
(* ===================================================================== *)

Lemma lookup_remove_absent (key key' : string) (c : Lru.Cache) :
  Lru.lookup key c = None -> Lru.lookup key (Lru.remove key' c) = None.
Proof.
  unfold Lru.lookup, Lru.remove. induction c as [| e c IH]; simpl;
    [reflexivity |].
  destruct (String.eqb (Lru.entry_key e) key) eqn:Ek; [discriminate |].
  intros H. destruct (negb (String.eqb (Lru.entry_key e) key')); simpl.
  - rewrite Ek. exact (IH H).
  - exact (IH H).
Qed.

Lemma accepted_salary_kept (s : number) :
  salary_accepted s = true -> parseFloat_toString s = s.
Proof.
  destruct s as [[|] | | |]; try reflexivity; vm_compute; discriminate.
Qed.

Lemma well_formed_fresh (st : State) :
  well_formed st = true ->
  generate (next_id (store st)) = next_id (store st)
  /\ (next_id (store st) < ObjectId_bound)%N
  /\ has_id (next_id (store st)) (employees (store st)) = false.
Proof.
  unfold well_formed. intros H.
  apply andb_prop in H. destruct H as [H _].
  apply andb_prop in H. destruct H as [Hids Hb].
  apply N.ltb_lt in Hb.
  split; [apply N.mod_small; exact Hb |]. split; [exact Hb |].
  unfold has_id. generalize dependent (employees (store st)).
  induction l as [| [i e] l IH]; simpl; [reflexivity |].
  intros H. apply andb_prop in H. destruct H as [Hi Hl].
  apply N.ltb_lt in Hi. rewrite (IH Hl), orb_false_r.
  apply N.eqb_neq. lia.
Qed.

Lemma getEmployeeDetails_after_add (now : Z) (n p d : string) (s : number)
  (st : State) :
  well_formed st = true ->
  getEmployeeDetails now (toString (next_id (store st)))
    (added n p d s st)
  = (Fulfilled (employee_value (next_id (store st), newEmployee n p d s)),
     detailed now (toString (next_id (store st)))
       (next_id (store st), newEmployee n p d s) (added n p d s st)).
Proof.
  intros Hw. destruct (well_formed_fresh st Hw) as (Hg & Hb & Hf).
  apply getEmployeeDetails_reads.
  - apply toString_valid.
  - apply ObjectId_new_toString. exact Hb.
  - unfold added. cbn [cache]. unfold Lru.delete.
    do 2 apply lookup_remove_absent.
    unfold well_formed in Hw. apply andb_prop in Hw. destruct Hw as [_ Hs].
    apply (sound_no_entry (store st) (cache st) _ (next_id (store st)) Hs).
    + apply ObjectId_new_toString. exact Hb.
    + exact Hf.
  - unfold added. cbn [store employees]. rewrite Hg.
    apply lookup_id_app_new. exact Hf.
Qed.

(** C3, counterexample.  A name with surrounding white space is a valid
    input; the record read back after [addEmployee] carries the trimmed
    name, not the name that was given. *)
Lemma read_back_name_differs :
  fst (addEmployee " Jane Doe " "Engineer" "Engineering" (of_Z 90000)
         seeded_state)
  = Fulfilled
      (VObj [ ("id", VStr "000000000000000000000009");
              ("name", VStr "Jane Doe");
              ("position", VStr "Engineer");
              ("department", VStr "Engineering");
              ("salary", VNum (of_Z 90000));
              ("views", VInt 0) ])
  /\ fst (getEmployeeDetails 0 "000000000000000000000009"
            (snd (addEmployee " Jane Doe " "Engineer" "Engineering"
                    (of_Z 90000) seeded_state)))
     = Fulfilled
         (VObj [ ("id", VStr "000000000000000000000009");
                 ("name", VStr "Jane Doe");
                 ("position", VStr "Engineer");
                 ("department", VStr "Engineering");
                 ("salary", VNum (of_Z 90000));
                 ("views", VInt 0) ])
  /\ VStr "Jane Doe" <> VStr " Jane Doe ".
Proof. split; [reflexivity | split; [reflexivity | discriminate]]. Qed.

(** C3, as amended.  In a well-formed state, for all valid inputs,
    [addEmployee] returns a record with a fresh identifier, and
    [getEmployeeDetails] on that identifier yields the same record: its
    name, position and department are the inputs with the surrounding white
    space trimmed (the inputs themselves when they have none, as "Jane Doe",
    "Engineer", "Engineering"), its salary is the salary given, and its
    views are 0. *)
Theorem add_then_read_back :
  forall (now : Z) (n p d : string) (s : number) (st : State),
    well_formed st = true ->
    valid_texts n p d = true ->
    salary_accepted s = true ->
    let id := toString (next_id (store st)) in
    let record :=
      VObj [ ("id", VStr id);
             ("name", VStr (trim n));
             ("position", VStr (trim p));
             ("department", VStr (trim d));
             ("salary", VNum s);
             ("views", VInt 0) ] in
    fst (addEmployee n p d s st) = Fulfilled record
    /\ fst (getEmployeeDetails now id (snd (addEmployee n p d s st)))
       = Fulfilled record
    /\ (trim n = n -> trim p = p -> trim d = d ->
        fst (getEmployeeDetails now id (snd (addEmployee n p d s st)))
        = Fulfilled
            (VObj [ ("id", VStr id);
                    ("name", VStr n);
                    ("position", VStr p);
                    ("department", VStr d);
                    ("salary", VNum s);
                    ("views", VInt 0) ])).
Proof.
  intros now n p d s st Hw Ht Hs id record.
  destruct (well_formed_fresh st Hw) as (Hg & Hb & Hf).
  assert (Hf' : has_id (generate (next_id (store st))) (employees (store st))
                = false) by (rewrite Hg; exact Hf).
  rewrite (addEmployee_succeeds n p d s st Ht Hs Hf'). cbn [fst snd].
  rewrite Hg.
  assert (Hr : fst (getEmployeeDetails now id (added n p d s st))
               = Fulfilled record).
  { unfold id. rewrite (getEmployeeDetails_after_add now n p d s st Hw).
    cbn [fst]. unfold record, employee_value, newEmployee.
    cbn [fst snd name position department salary views].
    rewrite (accepted_salary_kept s Hs). reflexivity. }
  split; [| split].
  - unfold record, id, employee_value, newEmployee.
    cbn [fst snd name position department salary views].
    rewrite (accepted_salary_kept s Hs). reflexivity.
  - exact Hr.
  - intros Hn Hp Hd. rewrite Hr. unfold record.
    rewrite Hn, Hp, Hd. reflexivity.
Qed.

Lemma add_then_read_back_witness :
  fst (getEmployeeDetails 0 (toString (next_id (store seeded_state)))
         (snd (addEmployee "Jane Doe" "Engineer" "Engineering" (of_Z 90000)
                 seeded_state)))
  = Fulfilled
      (VObj [ ("id", VStr (toString (next_id (store seeded_state))));
              ("name", VStr (trim "Jane Doe"));
              ("position", VStr (trim "Engineer"));
              ("department", VStr (trim "Engineering"));
              ("salary", VNum (of_Z 90000));
              ("views", VInt 0) ]).
Proof.
  destruct (add_then_read_back 0 "Jane Doe" "Engineer" "Engineering"
              (of_Z 90000) seeded_state)
    as (_ & H & _); [reflexivity | reflexivity | reflexivity | exact H].
Defined.

(* ===================================================================== *)
(** * The cached list of employees (claim C6) *)
(* ===================================================================== *)


Lemma lookup_front (key : string) (e : Lru.Entry) (c : Lru.Cache) :
  Lru.entry_key e = key -> Lru.lookup key (e :: c) = Some e.
Proof.
  intros H. unfold Lru.lookup. simpl. rewrite H, String.eqb_refl. reflexivity.
Qed.

Lemma lookup_set (now : Z) (key : string) (v : value) (ttl : Z)
  (c : Lru.Cache) :
  Lru.lookup key (Lru.set now key v ttl c)
  = Some (Lru.mkEntry key v (now + ttl)).
Proof.
  unfold Lru.set, Lru.maxSize. change 1000%nat with (S 999).
  rewrite firstn_cons. apply lookup_front. reflexivity.
Qed.

Lemma getAllEmployees_hit (now : Z) (st : State) (e : Lru.Entry) :
  served now st = Some e ->
  getAllEmployees now st
  = (Fulfilled (Lru.entry_value e),
     mkState (store st) (cachedDb st)
             (e :: Lru.remove CACHE_KEYS.EMPLOYEES (cache st))).
Proof.
  unfold served. intros H.
  destruct (Lru.lookup CACHE_KEYS.EMPLOYEES (cache st)) as [e' |] eqn:Hl;
    [| discriminate].
  destruct (Lru.fresh now e' && truthy (Lru.entry_value e')) eqn:Hb;
    [| discriminate].
  injection H as <-. apply andb_prop in Hb. destruct Hb as [Hf Ht].
  unfold getAllEmployees, try_catch, bind, getFromCache, Lru.get.
  cbv zeta. rewrite Hl, Hf, Ht. reflexivity.
Qed.

Lemma getAllEmployees_miss (now : Z) (st : State) :
  served now st = None ->
  getAllEmployees now st = (Fulfilled (all_employees st), listed now st).
Proof.
  unfold served. intros H.
  unfold getAllEmployees, try_catch, bind, getFromCache, listed, Lru.get.
  cbv zeta.
  destruct (Lru.lookup CACHE_KEYS.EMPLOYEES (cache st)) as [e |] eqn:Hl.
  - destruct (Lru.fresh now e) eqn:Hf.
    + destruct (truthy (Lru.entry_value e)) eqn:Ht; [discriminate |].
      reflexivity.
    + reflexivity.
  - reflexivity.
Qed.











(* ===================================================================== *)
(** * Invalidation after mutations (claim C2) *)
(* ===================================================================== *)

Lemma lookup_remove_same (key : string) (c : Lru.Cache) :
  Lru.lookup key (Lru.remove key c) = None.
Proof.
  unfold Lru.lookup, Lru.remove. induction c as [| e c IH]; simpl;
    [reflexivity |].
  destruct (String.eqb (Lru.entry_key e) key) eqn:Ek; simpl.
  - exact IH.
  - rewrite Ek. exact IH.
Qed.

Lemma In_insert_sorted {A : Type} (key : A -> string) (x d : ObjectId * A)
  (l : list (ObjectId * A)) :
  In x (insert_sorted key d l) <-> x = d \/ In x l.
Proof.
  induction l as [| y l IH]; simpl.
  - split; intros [H | H]; auto.
  - destruct (String.leb (key (snd d)) (key (snd y))); simpl.
    + split; intros [H | H]; auto.
    + rewrite IH. split; intros H; tauto.
Qed.

Lemma In_sort_by {A : Type} (key : A -> string) (x : ObjectId * A)
  (l : list (ObjectId * A)) :
  In x (sort_by key l) <-> In x l.
Proof.
  unfold sort_by. induction l as [| y l IH]; simpl; [tauto |].
  rewrite In_insert_sorted, IH. split; intros [H | H]; auto.
Qed.

(** After a successful [addEmployee] the entry of the list of employees is
    gone: the next [getAllEmployees] reads the store, and its result
    includes the new employee. *)
Lemma added_employee_is_listed (now : Z) (n p d : string) (s : number)
  (st : State) :
  valid_texts n p d = true ->
  salary_accepted s = true ->
  has_id (generate (next_id (store st))) (employees (store st)) = false ->
  exists items : list value,
    fst (getAllEmployees now (snd (addEmployee n p d s st)))
    = Fulfilled (VArr items)
    /\ In (employee_value
             (generate (next_id (store st)), newEmployee n p d s))
          items.
Proof.
  intros Ht Hs Hf. rewrite (addEmployee_succeeds n p d s st Ht Hs Hf).
  cbn [snd]. rewrite getAllEmployees_miss.
  - eexists. split; [reflexivity |].
    apply in_map. apply In_sort_by. unfold added. cbn [store employees].
    apply in_or_app. right. left. reflexivity.
  - unfold served, added. cbn [cache]. unfold Lru.delete.
    rewrite (lookup_remove_absent _ _ _ (lookup_remove_same _ _)).
    reflexivity.
Qed.

(** After [incrementView] on an identifier without padding, the entry
    under that identifier is gone: [getEmployeeDetails] on it reads the
    store and returns the incremented record. *)
Lemma viewed_employee_is_read (now : Z) (id : string) (oid : ObjectId)
  (e : Employee) (st : State) :
  trim id = id ->
  isValid id = true ->
  ObjectId_new id = Some oid ->
  lookup_id oid (employees (store st)) = Some e ->
  fst (getEmployeeDetails now id (snd (incrementView id st)))
  = Fulfilled (employee_value (oid, inc_views e)).
Proof.
  intros Ht Hv Hn Hl.
  rewrite (incrementView_found id oid e st)
    by (try rewrite Ht; assumption).
  cbn [snd].
  rewrite (getEmployeeDetails_reads now id oid (inc_views e));
    [reflexivity | assumption | assumption | |].
  - unfold viewed. cbn [cache]. unfold Lru.delete.
    do 2 apply lookup_remove_absent. apply lookup_remove_same.
  - unfold viewed. cbn [store employees].
    apply lookup_update_first. exact Hl.
Qed.

(** ** The stale entry, in general *)

Lemma lookup_remove_other (key key' : string) (c : Lru.Cache) :
  key <> key' -> Lru.lookup key (Lru.remove key' c) = Lru.lookup key c.
Proof.
  intros Hne. unfold Lru.lookup, Lru.remove.
  induction c as [| e c IH]; simpl; [reflexivity |].
  destruct (String.eqb_spec (Lru.entry_key e) key') as [E' | N']; simpl.
  - destruct (String.eqb_spec (Lru.entry_key e) key) as [E | _];
      [congruence | exact IH].
  - destruct (String.eqb (Lru.entry_key e) key); [reflexivity | exact IH].
Qed.

Lemma append_inj_l (p a b : string) : (p ++ a)%string = (p ++ b)%string -> a = b.
Proof.
  induction p as [| c p IH]; simpl; intros H; [exact H |].
  injection H as H. exact (IH H).
Qed.

Lemma padded_differs (l s r : string) :
  (l ++ r)%string <> EmptyString -> s <> (l ++ s ++ r)%string.
Proof.
  intros Hne E. apply (f_equal String.length) in E.
  rewrite !length_append in E.
  destruct l as [| c l]; [destruct r as [| c r] |]; simpl in *;
    [congruence | lia | lia].
Qed.

Lemma getEmployeeDetails_hit (now : Z) (id : string) (st : State)
  (entry : Lru.Entry) :
  isValid id = true ->
  Lru.lookup (CACHE_KEYS.EMPLOYEE_DETAILS id) (cache st) = Some entry ->
  Lru.fresh now entry = true ->
  truthy (Lru.entry_value entry) = true ->
  getEmployeeDetails now id st
  = (Fulfilled (Lru.entry_value entry),
     mkState (store st) (cachedDb st)
       (entry :: Lru.remove (CACHE_KEYS.EMPLOYEE_DETAILS id) (cache st))).
Proof.
  intros Hv Hl Hf Ht. unfold getEmployeeDetails, try_catch. rewrite Hv.
  unfold bind, getFromCache, Lru.get. cbn [negb]. cbv beta iota zeta.
  rewrite Hl, Hf, Ht. reflexivity.
Qed.

(** Whenever a record is cached under its identifier [s] and
    [incrementView] is called with [s] padded by white space, the entry
    survives the call, and a read of [s] while the entry lives returns the
    cached record, not the incremented one. *)
Lemma padded_increment_leaves_entry (now : Z) (l s r : string) (oid : ObjectId)
  (e : Employee) (st : State) (entry : Lru.Entry) :
  isValid s = true ->
  ObjectId_new s = Some oid ->
  lookup_id oid (employees (store st)) = Some e ->
  all_space l = true -> all_space r = true ->
  (l ++ r)%string <> EmptyString ->
  Lru.lookup (CACHE_KEYS.EMPLOYEE_DETAILS s) (cache st) = Some entry ->
  Lru.fresh now entry = true ->
  truthy (Lru.entry_value entry) = true ->
  lookup_id oid (employees (store (snd (incrementView (l ++ s ++ r) st))))
  = Some (inc_views e)
  /\ fst (getEmployeeDetails now s (snd (incrementView (l ++ s ++ r) st)))
     = Fulfilled (Lru.entry_value entry).
Proof.
  intros Hv Hn Hl Hsl Hsr Hne Hc Hf Ht.
  assert (Htrim : trim (l ++ s ++ r) = s)
    by (apply trim_padded_id; assumption).
  rewrite (incrementView_found (l ++ s ++ r) oid e st)
    by (try rewrite Htrim; assumption).
  cbn [snd]. split.
  - unfold viewed. cbn [store employees]. apply lookup_update_first. exact Hl.
  - rewrite (getEmployeeDetails_hit now s _ entry Hv); [reflexivity | | exact Hf | exact Ht].
    unfold viewed. cbn [cache]. unfold Lru.delete.
    rewrite !lookup_remove_other; [exact Hc | | |].
    + unfold CACHE_KEYS.EMPLOYEE_DETAILS. intros E.
      apply append_inj_l in E. exact (padded_differs l s r Hne E).
    + unfold CACHE_KEYS.EMPLOYEE_DETAILS, CACHE_KEYS.EMPLOYEES.
      simpl. congruence.
    + unfold CACHE_KEYS.EMPLOYEE_DETAILS, CACHE_KEYS.EMPLOYEES_BY_DEPT.
      simpl. congruence.
Qed.

(** C2, the failing run.  A record is read and cached; [incrementView] is
    then called with the same identifier preceded by a space, succeeds and
    raises the stored counter to 1, but deletes the cache key built from
    the untrimmed argument; the read that follows, inside the time-to-live,
    is answered from the entry left behind and returns [views] 0. *)
Theorem stale_details_after_increment :
  let id := "000000000000000000000003" in
  let st1 := snd (getEmployeeDetails 0 id seeded_state) in
  let st2 := snd (incrementView (" " ++ id) st1) in
  fst (incrementView (" " ++ id) st1)
  = Fulfilled
      (VObj [ ("id", VStr id);
              ("name", VStr "Alice Johnson");
              ("position", VStr "Senior Developer");
              ("department", VStr "Engineering");
              ("salary", VNum (of_Z 95000));
              ("views", VInt 1) ])
  /\ option_map views (lookup_id 3%N (employees (store st2)))
     = Some (Some 1)
  /\ fst (getEmployeeDetails 1 id st2)
     = Fulfilled
         (VObj [ ("id", VStr id);
                 ("name", VStr "Alice Johnson");
                 ("position", VStr "Senior Developer");
                 ("department", VStr "Engineering");
                 ("salary", VNum (of_Z 95000));
                 ("views", VInt 0) ])
  /\ Lru.lookup (CACHE_KEYS.EMPLOYEE_DETAILS id) (cache st2)
     = Lru.lookup (CACHE_KEYS.EMPLOYEE_DETAILS id) (cache st1)
  /\ store (snd (getEmployeeDetails 1 id st2)) = store st2.
Proof. repeat split; vm_compute; reflexivity. Qed.

(* ===================================================================== *)
(** * Concurrent increments (claim C8) *)
(* ===================================================================== *)

(** A call that runs alone goes through its four stretches and ends as the
    resolver does. *)
Lemma run_incrementView (id : string) (st : State) :
  run 4 (Called id) st
  = (Settled (fst (incrementView id st)), snd (incrementView id st)).
Proof.
  unfold run, step, incrementView, try_catch, caught, with_store.
  destruct (isValid (trim id)); cbn [negb]; [| reflexivity].
  destruct (ObjectId_new (trim id)) as [oid |]; [| reflexivity].
  unfold bind, on_store, findOneEmployee, invalidateCache, on_cache, ret,
    throw.
  cbn [store cachedDb cache fst snd employees incrementViews log].
  destruct (lookup_id oid (employees (store st))) as [e |]; [| reflexivity].
  cbn [store cachedDb cache fst snd employees incrementViews log].
  destruct (lookup_id oid (update_first inc_views oid (employees (store st))))
    as [e' |]; reflexivity.
Qed.

Lemma step_bound (oid : ObjectId) (t : Thread) (st : State) (e : Employee) :
  bound_to oid t ->
  lookup_id oid (employees (store st)) = Some e ->
  bound_to oid (fst (step t st))
  /\ remaining (fst (step t st)) = Nat.pred (remaining t)
  /\ exists e' : Employee,
       lookup_id oid (employees (store (snd (step t st)))) = Some e'
       /\ views_or_0 e'
          = views_or_0 e + (counted (fst (step t st)) - counted t).
Proof.
  intros Hb Hl. destruct t as [id | id o | id o | id o r | [r | m]];
    cbn [bound_to] in Hb.
  - destruct Hb as [Hv Hn]. unfold step. rewrite Hv, Hn. cbn [negb].
    unfold findOneEmployee. cbn [fst snd]. rewrite Hl.
    cbn [fst snd bound_to remaining counted with_store store employees log
         Nat.pred].
    split; [reflexivity | split; [reflexivity |]].
    exists e. split; [exact Hl | lia].
  - subst o. cbn [step fst snd bound_to remaining counted with_store store
                  employees incrementViews Nat.pred].
    split; [reflexivity | split; [reflexivity |]].
    exists (inc_views e). split.
    + apply lookup_update_first. exact Hl.
    + rewrite views_or_0_inc_views. lia.
  - subst o. unfold step, findOneEmployee. cbn [fst snd]. rewrite Hl.
    cbn [fst snd bound_to remaining counted with_store store employees log
         Nat.pred].
    split; [reflexivity | split; [reflexivity |]].
    exists e. split; [exact Hl | lia].
  - subst o. cbn [step invalidateCache on_cache fst snd bound_to remaining
                  counted store employees Nat.pred].
    split; [exact I | split; [reflexivity |]].
    exists e. split; [exact Hl | lia].
  - cbn [step fst snd bound_to remaining counted Nat.pred].
    split; [exact I | split; [reflexivity |]].
    exists e. split; [exact Hl | lia].
  - contradiction.
Qed.

Lemma interleave_bound (oid : ObjectId) (schedule : list bool) :
  forall (a b : Thread) (st : State) (e : Employee),
    bound_to oid a ->
    bound_to oid b ->
    lookup_id oid (employees (store st)) = Some e ->
    let a' := fst (fst (interleave schedule a b st)) in
    let b' := snd (fst (interleave schedule a b st)) in
    let st' := snd (interleave schedule a b st) in
    bound_to oid a' /\ bound_to oid b'
    /\ remaining a' = (remaining a - turns true schedule)%nat
    /\ remaining b' = (remaining b - turns false schedule)%nat
    /\ exists e' : Employee,
         lookup_id oid (employees (store st')) = Some e'
         /\ views_or_0 e'
            = views_or_0 e + (counted a' - counted a) + (counted b' - counted b).
Proof.
  induction schedule as [| turn schedule IH]; intros a b st e Ha Hb Hl.
  - cbn [interleave fst snd turns count_occ].
    split; [exact Ha | split; [exact Hb |]].
    split; [lia | split; [lia |]].
    exists e. split; [exact Hl | lia].
  - destruct turn; cbn [interleave].
    + destruct (step_bound oid a st e Ha Hl) as (Ha1 & Hr1 & e1 & Hl1 & Hv1).
      destruct (step a st) as [a1 st1]. cbn [fst snd] in *.
      specialize (IH a1 b st1 e1 Ha1 Hb Hl1). cbv zeta in IH.
      destruct IH as (Ha2 & Hb2 & Hra & Hrb & e2 & Hl2 & Hv2).
      split; [exact Ha2 | split; [exact Hb2 |]].
      unfold turns in *. cbn [count_occ].
      destruct (bool_dec true true) as [_ | N]; [| congruence].
      destruct (bool_dec true false) as [N | _]; [discriminate |].
      split; [lia | split; [lia |]].
      exists e2. split; [exact Hl2 | lia].
    + destruct (step_bound oid b st e Hb Hl) as (Hb1 & Hr1 & e1 & Hl1 & Hv1).
      destruct (step b st) as [b1 st1]. cbn [fst snd] in *.
      specialize (IH a b1 st1 e1 Ha Hb1 Hl1). cbv zeta in IH.
      destruct IH as (Ha2 & Hb2 & Hra & Hrb & e2 & Hl2 & Hv2).
      split; [exact Ha2 | split; [exact Hb2 |]].
      unfold turns in *. cbn [count_occ].
      destruct (bool_dec false false) as [_ | N]; [| congruence].
      destruct (bool_dec false true) as [N | _]; [discriminate |].
      split; [lia | split; [lia |]].
      exists e2. split; [exact Hl2 | lia].
Qed.

Lemma settled_fulfilled (oid : ObjectId) (t : Thread) :
  bound_to oid t -> remaining t = 0%nat ->
  exists r : value, t = Settled (Fulfilled r).
Proof.
  destruct t as [id | id o | id o | id o r | [r | m]]; cbn;
    intros Hb Hr; try discriminate.
  - exists r. reflexivity.
  - contradiction.
Qed.

(** C8.  Two calls of [incrementView] on the same existing document, run
    concurrently: however their stretches between [await]s are interleaved,
    once both have run to their end both are fulfilled and the stored
    counter is larger by exactly 2.  The increment is the single update
    operation of the second stretch, applied by the store to the counter it
    holds; the service writes no value it has read. *)
Theorem concurrent_increments_both_count :
  forall (ida idb : string) (oid : ObjectId) (e : Employee) (st : State)
         (schedule : list bool),
    isValid (trim ida) = true -> ObjectId_new (trim ida) = Some oid ->
    isValid (trim idb) = true -> ObjectId_new (trim idb) = Some oid ->
    lookup_id oid (employees (store st)) = Some e ->
    (4 <= turns true schedule)%nat ->
    (4 <= turns false schedule)%nat ->
    exists (ra rb : value) (e' : Employee),
      fst (interleave schedule (Called ida) (Called idb) st)
      = (Settled (Fulfilled ra), Settled (Fulfilled rb))
      /\ lookup_id oid
           (employees
              (store (snd (interleave schedule (Called ida) (Called idb) st))))
         = Some e'
      /\ views_or_0 e' = views_or_0 e + 2.
Proof.
  intros ida idb oid e st schedule Hva Hna Hvb Hnb Hl Hta Htb.
  destruct (interleave_bound oid schedule (Called ida) (Called idb) st e)
    as (Ha & Hb & Hra & Hrb & e' & Hl' & Hv');
    [split; assumption | split; assumption | exact Hl |].
  cbn [remaining] in Hra, Hrb.
  destruct (settled_fulfilled oid _ Ha) as [ra Ea]; [lia |].
  destruct (settled_fulfilled oid _ Hb) as [rb Eb]; [lia |].
  exists ra, rb, e'. split; [| split; [exact Hl' |]].
  - destruct (interleave schedule (Called ida) (Called idb) st)
      as [[a' b'] st']. cbn [fst snd] in *. subst. reflexivity.
  - rewrite Ea, Eb in Hv'. cbn [counted] in Hv'. lia.
Qed.

Lemma concurrent_increments_both_count_witness :
  exists (ra rb : value) (e' : Employee),
    fst (interleave [true; false; false; true; true; false; true; false]
           (Called "000000000000000000000003")
           (Called " 000000000000000000000003") seeded_state)
    = (Settled (Fulfilled ra), Settled (Fulfilled rb))
    /\ lookup_id 3%N
         (employees
            (store
               (snd (interleave
                       [true; false; false; true; true; false; true; false]
                       (Called "000000000000000000000003")
                       (Called " 000000000000000000000003") seeded_state))))
       = Some e'
    /\ views_or_0 e' = 0 + 2.
Proof.
  apply (concurrent_increments_both_count
           "000000000000000000000003" " 000000000000000000000003" 3%N
           (mkEmployee "Alice Johnson" "Senior Developer" "Engineering"
                       (of_Z 95000) (Some 0)));
    try reflexivity; vm_compute; lia.
Defined.

(* ===================================================================== *)
(** * Well-formed states are kept by the resolvers *)
(* ===================================================================== *)

Lemma forallb_remove (f : Lru.Entry -> bool) (key : string) (c : Lru.Cache) :
  forallb f c = true -> forallb f (Lru.remove key c) = true.
Proof.
  unfold Lru.remove. induction c as [| e c IH]; simpl; [reflexivity |].
  intros H. apply andb_prop in H. destruct H as [He Hc].
  destruct (negb (String.eqb (Lru.entry_key e) key)); simpl.
  - rewrite He. exact (IH Hc).
  - exact (IH Hc).
Qed.

Lemma forallb_firstn {A : Type} (f : A -> bool) (n : nat) (l : list A) :
  forallb f l = true -> forallb f (firstn n l) = true.
Proof.
  revert l. induction n as [| n IH]; intros [| x l]; simpl;
    try reflexivity.
  intros H. apply andb_prop in H. destruct H as [Hx Hl].
  rewrite Hx. exact (IH l Hl).
Qed.

Lemma sound_get (f : Lru.Entry -> bool) (now : Z) (key : string)
  (c : Lru.Cache) :
  forallb f c = true -> forallb f (snd (Lru.get now key c)) = true.
Proof.
  intros H. unfold Lru.get.
  destruct (Lru.lookup key c) as [e |] eqn:Hl; [| exact H].
  destruct (Lru.fresh now e); cbn [snd].
  - cbn [forallb]. rewrite (forallb_remove f key c H), andb_true_r.
    unfold Lru.lookup in Hl. apply find_some in Hl. destruct Hl as [Hin _].
    rewrite forallb_forall in H. apply H. exact Hin.
  - apply forallb_remove. exact H.
Qed.

Lemma sound_set (f : Lru.Entry -> bool) (now : Z) (key : string) (v : value)
  (ttl : Z) (c : Lru.Cache) :
  f (Lru.mkEntry key v (now + ttl)) = true ->
  forallb f c = true ->
  forallb f (Lru.set now key v ttl c) = true.
Proof.
  intros He Hc. unfold Lru.set. apply forallb_firstn.
  cbn [forallb]. rewrite He. apply forallb_remove. exact Hc.
Qed.

Lemma entry_sound_ext (db db' : Db) (e : Lru.Entry) :
  (forall oid, has_id oid (employees db) = true ->
               has_id oid (employees db') = true) ->
  entry_sound db e = true -> entry_sound db' e = true.
Proof.
  intros Hi. unfold entry_sound.
  destruct (strip_prefix "employee:" (Lru.entry_key e)) as [id |];
    [| reflexivity].
  destruct (ObjectId_new id) as [oid |]; [| reflexivity].
  apply Hi.
Qed.

Lemma cache_sound_ext (db db' : Db) (c : Lru.Cache) :
  (forall oid, has_id oid (employees db) = true ->
               has_id oid (employees db') = true) ->
  forallb (entry_sound db) c = true -> forallb (entry_sound db') c = true.
Proof.
  intros Hi H. rewrite forallb_forall in *. intros e He.
  apply (entry_sound_ext db db' e Hi). apply H. exact He.
Qed.

Lemma has_id_update_first {A : Type} (u : A -> A) (oid oid' : ObjectId)
  (docs : list (ObjectId * A)) :
  has_id oid' (update_first u oid docs) = has_id oid' docs.
Proof.
  unfold has_id. induction docs as [| [i x] docs IH]; simpl; [reflexivity |].
  destruct (N.eqb i oid); simpl; [reflexivity | rewrite IH; reflexivity].
Qed.

Lemma ids_update_first {A : Type} (u : A -> A) (oid : ObjectId)
  (f : N -> bool) (docs : list (ObjectId * A)) :
  forallb (fun d => f (fst d)) (update_first u oid docs)
  = forallb (fun d => f (fst d)) docs.
Proof.
  induction docs as [| [i x] docs IH]; simpl; [reflexivity |].
  destruct (N.eqb i oid); simpl; [reflexivity | rewrite IH; reflexivity].
Qed.

Lemma well_formed_parts (st : State) :
  well_formed st = true <->
  forallb (fun d => (fst d <? next_id (store st))%N) (employees (store st))
  = true
  /\ (next_id (store st) <? ObjectId_bound)%N = true
  /\ forallb (entry_sound (store st)) (cache st) = true.
Proof.
  unfold well_formed. rewrite !andb_true_iff. tauto.
Qed.

Lemma well_formed_seeded : well_formed seeded_state = true.
Proof. reflexivity. Qed.

Lemma getAllEmployees_well_formed (now : Z) (st : State) :
  well_formed st = true ->
  well_formed (snd (getAllEmployees now st)) = true.
Proof.
  intros Hw. apply well_formed_parts in Hw. destruct Hw as (Ha & Hb & Hc).
  destruct (served now st) as [e |] eqn:Hs.
  - rewrite (getAllEmployees_hit now st e Hs). cbn [snd].
    apply well_formed_parts. cbn [store cache].
    split; [exact Ha | split; [exact Hb |]].
    pose proof (sound_get (entry_sound (store st)) now CACHE_KEYS.EMPLOYEES
                  (cache st) Hc) as Hg.
    unfold served in Hs. unfold Lru.get in Hg.
    destruct (Lru.lookup CACHE_KEYS.EMPLOYEES (cache st)) as [e' |];
      [| discriminate].
    destruct (Lru.fresh now e'); [| discriminate].
    destruct (truthy (Lru.entry_value e')); [| discriminate].
    injection Hs as <-. exact Hg.
  - rewrite (getAllEmployees_miss now st Hs). cbn [snd].
    apply well_formed_parts. unfold listed. cbn [store cache log employees
                                                 next_id].
    split; [exact Ha | split; [exact Hb |]].
    apply sound_set; [reflexivity |].
    apply (cache_sound_ext (store st)); [intros oid H; exact H |].
    apply sound_get. exact Hc.
Qed.

Lemma incrementView_well_formed (id : string) (st : State) :
  well_formed st = true ->
  well_formed (snd (incrementView id st)) = true.
Proof.
  intros Hw. pose proof Hw as Hw0.
  apply well_formed_parts in Hw. destruct Hw as (Ha & Hb & Hc).
  destruct (isValid (trim id)) eqn:Hv;
    [| rewrite (incrementView_invalid id st Hv); exact Hw0].
  destruct (isValid_new (trim id) Hv) as [oid Hn].
  destruct (lookup_id oid (employees (store st))) as [e |] eqn:Hl.
  - rewrite (incrementView_found id oid e st Hv Hn Hl). cbn [snd].
    apply well_formed_parts. unfold viewed.
    cbn [store cache employees next_id].
    split; [| split; [exact Hb |]].
    + rewrite (ids_update_first inc_views oid
                 (fun i => (i <? next_id (store st))%N)). exact Ha.
    + unfold Lru.delete. do 3 apply forallb_remove.
      apply (cache_sound_ext (store st)); [| exact Hc].
      intros oid' H. cbn [employees]. rewrite has_id_update_first. exact H.
  - rewrite (incrementView_absent id oid st Hv Hn Hl). cbn [snd].
    apply well_formed_parts. unfold looked_up.
    cbn [store cache log employees next_id].
    split; [exact Ha | split; [exact Hb |]].
    apply (cache_sound_ext (store st)); [intros oid' H; exact H | exact Hc].
Qed.

Lemma has_id_app {A : Type} (oid : ObjectId) (l l' : list (ObjectId * A)) :
  has_id oid (l ++ l') = has_id oid l || has_id oid l'.
Proof. unfold has_id. apply existsb_app. Qed.

Lemma lookup_has_id {A : Type} (oid : ObjectId) (doc : A)
  (docs : list (ObjectId * A)) :
  lookup_id oid docs = Some doc -> has_id oid docs = true.
Proof.
  intros H. destruct (has_id oid docs) eqn:E; [reflexivity |].
  apply has_id_lookup_id in E. congruence.
Qed.

Lemma getEmployeeDetails_well_formed (now : Z) (id : string) (st : State) :
  well_formed st = true ->
  well_formed (snd (getEmployeeDetails now id st)) = true.
Proof.
  intros Hw. pose proof Hw as Hw0.
  apply well_formed_parts in Hw. destruct Hw as (Ha & Hb & Hc).
  destruct (isValid id) eqn:Hv;
    [| rewrite (getEmployeeDetails_invalid now id st Hv); exact Hw0].
  destruct (isValid_new id Hv) as [oid Hn].
  pose proof (sound_get (entry_sound (store st)) now
                (CACHE_KEYS.EMPLOYEE_DETAILS id) (cache st) Hc) as Hg.
  unfold getEmployeeDetails, try_catch. rewrite Hv, Hn.
  unfold bind, getFromCache. cbn [negb]. cbv beta iota zeta.
  destruct (Lru.get now (CACHE_KEYS.EMPLOYEE_DETAILS id) (cache st))
    as [cached c'].
  cbn [snd] in Hg.
  destruct (truthy match cached with Some v => v | None => VNull end).
  - cbn [ret snd]. apply well_formed_parts. cbn [store cache].
    split; [exact Ha | split; [exact Hb | exact Hg]].
  - unfold on_store, findOneEmployee. cbn [store cachedDb cache fst snd].
    destruct (lookup_id oid (employees (store st))) as [e |] eqn:Hl.
    + unfold setInCache, on_cache, ret. cbn [store cachedDb cache fst snd].
      apply well_formed_parts. cbn [store cache log employees next_id].
      split; [exact Ha | split; [exact Hb |]].
      apply sound_set.
      * unfold entry_sound. cbn [Lru.entry_key].
        unfold CACHE_KEYS.EMPLOYEE_DETAILS.
        rewrite strip_prefix_app, Hn. cbn [employees log].
        apply (lookup_has_id oid e). exact Hl.
      * apply (cache_sound_ext (store st)); [intros o H; exact H | exact Hg].
    + unfold throw. cbn [snd]. apply well_formed_parts.
      cbn [store cache log employees next_id].
      split; [exact Ha | split; [exact Hb |]].
      apply (cache_sound_ext (store st)); [intros o H; exact H | exact Hg].
Qed.

Lemma addEmployee_well_formed (n p d : string) (s : number) (st : State) :
  well_formed st = true ->
  (N.succ (next_id (store st)) < ObjectId_bound)%N ->
  well_formed (snd (addEmployee n p d s st)) = true.
Proof.
  intros Hw Hroom. pose proof Hw as Hw0.
  destruct (well_formed_fresh st Hw) as (Hg & _ & Hf).
  apply well_formed_parts in Hw. destruct Hw as (Ha & Hb & Hc).
  unfold addEmployee, try_catch.
  destruct (validate n p d s) as [m |]; [exact Hw0 |].
  unfold bind, on_store, insertOneEmployee, insert_all.
  rewrite Hg, Hf.
  cbn [fst snd store cachedDb cache invalidateCache on_cache ret fold_left].
  apply well_formed_parts. cbn [store cache employees next_id].
  split; [| split].
  - rewrite forallb_app. cbn [forallb fst].
    apply andb_true_iff. split.
    + rewrite forallb_forall in *. intros x Hx.
      specialize (Ha x Hx). apply N.ltb_lt in Ha. apply N.ltb_lt. lia.
    + rewrite andb_true_r. apply N.ltb_lt. lia.
  - apply N.ltb_lt. exact Hroom.
  - unfold Lru.delete. do 2 apply forallb_remove.
    apply (cache_sound_ext (store st)); [| exact Hc].
    intros o H. cbn [employees]. rewrite has_id_app, H. reflexivity.
Qed.

(* ===================================================================== *)
(** * Further properties of the service *)
(* ===================================================================== *)

Import Service Notions.

(** ** What the resolvers do to the documents *)

Lemma lookup_id_app_old {A : Type} (oid : ObjectId) (doc : A)
  (docs more : list (ObjectId * A)) :
  lookup_id oid docs = Some doc -> lookup_id oid (docs ++ more) = Some doc.
Proof.
  unfold lookup_id. induction docs as [| [i x] docs IH]; simpl;
    [discriminate |].
  destruct (N.eqb i oid); [intros H; exact H | exact IH].
Qed.

Lemma lookup_update_elsewhere {A : Type} (u : A -> A) (oid oid' : ObjectId)
  (docs : list (ObjectId * A)) :
  oid' <> oid ->
  lookup_id oid' (update_first u oid docs) = lookup_id oid' docs.
Proof.
  intros Hne. unfold lookup_id. induction docs as [| [i x] docs IH]; simpl;
    [reflexivity |].
  destruct (N.eqb i oid) eqn:E; simpl.
  - apply N.eqb_eq in E.
    destruct (N.eqb i oid') eqn:E'; [| reflexivity].
    apply N.eqb_eq in E'. congruence.
  - destruct (N.eqb i oid'); [reflexivity | exact IH].
Qed.

Lemma lookup_default_views (oid : ObjectId)
  (docs : list (ObjectId * Employee)) :
  lookup_id oid (map (fun d => (fst d, default_views (snd d))) docs)
  = option_map default_views (lookup_id oid docs).
Proof.
  unfold lookup_id. induction docs as [| [i x] docs IH]; simpl;
    [reflexivity |].
  destruct (N.eqb i oid); [reflexivity | exact IH].
Qed.

Lemma same_person_refl (e : Employee) : same_person e e.
Proof. repeat split. Qed.

Lemma default_views_same (e : Employee) :
  same_person e (default_views e)
  /\ views_or_0 (default_views e) = views_or_0 e.
Proof.
  unfold default_views, views_or_0, same_person.
  destruct (views e) eqn:E; cbn; rewrite ?E; repeat split.
Qed.

(** The queries leave both collections and the generator as they are. *)
Lemma getEmployeeDetails_data (now : Z) (id : string) (st : State) :
  employees (store (snd (getEmployeeDetails now id st))) = employees (store st)
  /\ departments (store (snd (getEmployeeDetails now id st)))
     = departments (store st)
  /\ next_id (store (snd (getEmployeeDetails now id st))) = next_id (store st)
  /\ cachedDb (snd (getEmployeeDetails now id st)) = cachedDb st.
Proof.
  unfold getEmployeeDetails, try_catch.
  destruct (isValid id); cbn [negb]; [| repeat split].
  unfold bind, getFromCache. cbv beta iota zeta.
  destruct (Lru.get now (CACHE_KEYS.EMPLOYEE_DETAILS id) (cache st))
    as [cached c'].
  destruct (truthy match cached with Some v => v | None => VNull end);
    [repeat split |].
  destruct (ObjectId_new id) as [oid |]; [| repeat split].
  unfold on_store, findOneEmployee. cbn [store cachedDb cache fst snd].
  destruct (lookup_id oid (employees (store st))); repeat split.
Qed.

Lemma getAllEmployees_data (now : Z) (st : State) :
  employees (store (snd (getAllEmployees now st))) = employees (store st)
  /\ departments (store (snd (getAllEmployees now st)))
     = departments (store st)
  /\ next_id (store (snd (getAllEmployees now st))) = next_id (store st)
  /\ cachedDb (snd (getAllEmployees now st)) = cachedDb st.
Proof.
  destruct (served now st) as [e |] eqn:Hs.
  - rewrite (getAllEmployees_hit now st e Hs). repeat split.
  - rewrite (getAllEmployees_miss now st Hs). repeat split.
Qed.

Lemma getDepartments_data (now : Z) (st : State) :
  employees (store (snd (getDepartments now st))) = employees (store st)
  /\ departments (store (snd (getDepartments now st)))
     = departments (store st)
  /\ next_id (store (snd (getDepartments now st))) = next_id (store st)
  /\ cachedDb (snd (getDepartments now st)) = cachedDb st.
Proof.
  unfold getDepartments, try_catch, bind, getFromCache. cbv beta iota zeta.
  destruct (Lru.get now CACHE_KEYS.DEPARTMENTS (cache st)) as [cached c'].
  destruct (truthy match cached with Some v => v | None => VNull end);
    repeat split.
Qed.

Lemma getEmployeesByDepartment_run (dept : string) (st : State) :
  getEmployeesByDepartment dept st
  = (Fulfilled
       (VArr (map employee_value
                (filter (fun d => String.eqb (department (snd d)) dept)
                        (employees (store st))))),
     mkState (log (Find "employees") (store st)) (cachedDb st) (cache st)).
Proof. reflexivity. Qed.

(** [addEmployee] keeps every document there is. *)
Lemma addEmployee_keeps (n p d : string) (s : number) (st : State)
  (oid : ObjectId) (e : Employee) :
  lookup_id oid (employees (store st)) = Some e ->
  lookup_id oid (employees (store (snd (addEmployee n p d s st)))) = Some e.
Proof.
  intros Hl. unfold addEmployee, try_catch.
  destruct (validate n p d s) as [m |]; [exact Hl |].
  unfold bind, on_store, insertOneEmployee, insert_all.
  destruct (has_id (generate (next_id (store st))) (employees (store st)));
    cbn [fst snd store employees invalidateCache on_cache ret throw].
  - exact Hl.
  - apply lookup_id_app_old. exact Hl.
Qed.

(** [incrementView] adds one to the counter of the document its argument
    names, and leaves every other document as it is. *)
Lemma incrementView_counts (id : string) (st : State) (oid : ObjectId)
  (e : Employee) :
  lookup_id oid (employees (store st)) = Some e ->
  exists e' : Employee,
    lookup_id oid (employees (store (snd (incrementView id st)))) = Some e'
    /\ same_person e e'
    /\ views_or_0 e' = views_or_0 e + views_added oid (IncrementView id).
Proof.
  intros Hl. unfold views_added.
  destruct (isValid (trim id)) eqn:Hv.
  - destruct (isValid_new (trim id) Hv) as [o Hn]. rewrite Hn.
    destruct (N.eqb_spec o oid) as [-> | Hne].
    + rewrite (incrementView_found id oid e st Hv Hn Hl). cbn [snd].
      exists (inc_views e). split; [| split].
      * unfold viewed. cbn [store employees].
        apply lookup_update_first. exact Hl.
      * repeat split.
      * apply views_or_0_inc_views.
    + exists e. split; [| split; [apply same_person_refl | lia]].
      destruct (lookup_id o (employees (store st))) as [e0 |] eqn:Hlo.
      * rewrite (incrementView_found id o e0 st Hv Hn Hlo). cbn [snd].
        unfold viewed. cbn [store employees].
        rewrite lookup_update_elsewhere by congruence. exact Hl.
      * rewrite (incrementView_absent id o st Hv Hn Hlo). exact Hl.
  - rewrite (incrementView_invalid id st Hv). exists e.
    split; [exact Hl | split; [apply same_person_refl | lia]].
Qed.

Lemma resolve_counts (r : Request) (st : State) (oid : ObjectId)
  (e : Employee) :
  lookup_id oid (employees (store st)) = Some e ->
  exists e' : Employee,
    lookup_id oid (employees (store (snd (resolve r st)))) = Some e'
    /\ same_person e e'
    /\ views_or_0 e' = views_or_0 e + views_added oid r.
Proof.
  intros Hl.
  destruct r as [now | now id | dept | now | n p d s | id];
    try (apply incrementView_counts; exact Hl);
    exists e; (split; [| split; [apply same_person_refl | cbn; lia]]).
  - destruct (getAllEmployees_data now st) as [H _].
    cbn [resolve]. rewrite H. exact Hl.
  - destruct (getEmployeeDetails_data now id st) as [H _].
    cbn [resolve]. rewrite H. exact Hl.
  - cbn [resolve]. rewrite getEmployeesByDepartment_run. exact Hl.
  - destruct (getDepartments_data now st) as [H _].
    cbn [resolve]. rewrite H. exact Hl.
  - cbn [resolve]. apply addEmployee_keeps. exact Hl.
Qed.

(** A connection keeps every employee document, with its counter. *)
Lemma connectDB_keeps (st : State) (oid : ObjectId) (e : Employee) :
  lookup_id oid (employees (store st)) = Some e ->
  fst (connectDB st) = Fulfilled tt
  /\ exists e' : Employee,
       lookup_id oid (employees (store (snd (connectDB st)))) = Some e'
       /\ same_person e e' /\ views_or_0 e' = views_or_0 e.
Proof.
  intros Hl. destruct (cachedDb st) eqn:Hc.
  - rewrite (connectDB_connected st Hc). split; [reflexivity |].
    exists e. split; [exact Hl | split; [apply same_person_refl | reflexivity]].
  - rewrite (connectDB_finds_documents st Hc).
    + split; [reflexivity |]. exists (default_views e).
      unfold connected. cbn [snd store employees].
      rewrite lookup_default_views, Hl.
      split; [reflexivity | apply default_views_same].
    + left. intros E. rewrite E in Hl. discriminate.
Qed.

Lemma same_person_trans (a b c : Employee) :
  same_person a b -> same_person b c -> same_person a c.
Proof.
  unfold same_person. intros (H1 & H2 & H3 & H4) (K1 & K2 & K3 & K4).
  repeat split; congruence.
Qed.

Lemma handler_counts (r : Request) (st : State) (oid : ObjectId)
  (e : Employee) :
  lookup_id oid (employees (store st)) = Some e ->
  exists e' : Employee,
    lookup_id oid (employees (store (snd (handler r st)))) = Some e'
    /\ same_person e e'
    /\ views_or_0 e' = views_or_0 e + views_added oid r.
Proof.
  intros Hl. destruct (connectDB_keeps st oid e Hl) as (Hf & e1 & Hl1 & Hp1 & Hv1).
  unfold handler, bind. destruct (connectDB st) as [o st1].
  cbn [fst snd] in *. subst o.
  destruct (resolve_counts r st1 oid e1 Hl1) as (e2 & Hl2 & Hp2 & Hv2).
  exists e2. split; [exact Hl2 | split].
  - exact (same_person_trans e e1 e2 Hp1 Hp2).
  - lia.
Qed.

(** X1.  Whatever requests the endpoint handles, one after the other and
    across restarts of the process, a stored employee stays stored with the
    name, position, department and salary it had, and its counter ends
    larger by exactly the number of [incrementView] requests whose trimmed
    argument spells its identifier: no request deletes a document, lowers a
    counter or counts a view twice. *)
Theorem views_count_the_increments :
  forall (script : list (bool * Request)) (st : State) (oid : ObjectId)
         (e : Employee),
    lookup_id oid (employees (store st)) = Some e ->
    exists e' : Employee,
      lookup_id oid (employees (store (serve script st))) = Some e'
      /\ same_person e e'
      /\ views_or_0 e' = views_or_0 e + total_views_added oid script.
Proof.
  induction script as [| [restarted r] script IH]; intros st oid e Hl.
  - exists e. cbn. split; [exact Hl | split; [apply same_person_refl | lia]].
  - cbn [serve total_views_added].
    set (st0 := if restarted then restart st else st).
    assert (Hl0 : lookup_id oid (employees (store st0)) = Some e)
      by (unfold st0; destruct restarted; exact Hl).
    destruct (handler_counts r st0 oid e Hl0) as (e1 & Hl1 & Hp1 & Hv1).
    destruct (IH (snd (handler r st0)) oid e1 Hl1) as (e2 & Hl2 & Hp2 & Hv2).
    exists e2. split; [exact Hl2 | split].
    + exact (same_person_trans e e1 e2 Hp1 Hp2).
    + lia.
Qed.

Lemma views_count_the_increments_witness :
  exists e' : Employee,
    lookup_id 3%N
      (employees
         (store
            (serve [ (false, IncrementView "000000000000000000000003");
                     (true, GetAllEmployees 5);
                     (false, AddEmployee "Jane Doe" "Engineer" "Engineering"
                               (of_Z 90000));
                     (false, IncrementView " 000000000000000000000003 ");
                     (false, IncrementView "000000000000000000000004") ]
                   seeded_state)))
    = Some e'
    /\ same_person
         (mkEmployee "Alice Johnson" "Senior Developer" "Engineering"
                     (of_Z 95000) (Some 0)) e'
    /\ views_or_0 e' = 0 + 2.
Proof.
  apply (views_count_the_increments
           [ (false, IncrementView "000000000000000000000003");
             (true, GetAllEmployees 5);
             (false, AddEmployee "Jane Doe" "Engineer" "Engineering"
                       (of_Z 90000));
             (false, IncrementView " 000000000000000000000003 ");
             (false, IncrementView "000000000000000000000004") ]
           seeded_state 3%N
           (mkEmployee "Alice Johnson" "Senior Developer" "Engineering"
                       (of_Z 95000) (Some 0))).
  reflexivity.
Defined.

(** ** Lists in order *)

Lemma insert_sorted_perm {A : Type} (key : A -> string) (d : ObjectId * A)
  (l : list (ObjectId * A)) :
  Permutation (insert_sorted key d l) (d :: l).
Proof.
  induction l as [| x l IH]; simpl; [apply Permutation_refl |].
  destruct (String.leb (key (snd d)) (key (snd x))).
  - apply Permutation_refl.
  - apply perm_trans with (x :: d :: l).
    + apply perm_skip. exact IH.
    + apply perm_swap.
Qed.

Lemma sort_by_perm {A : Type} (key : A -> string) (l : list (ObjectId * A)) :
  Permutation (sort_by key l) l.
Proof.
  unfold sort_by. induction l as [| x l IH]; simpl; [apply perm_nil |].
  apply perm_trans with (x :: fold_right (insert_sorted key) [] l).
  - apply insert_sorted_perm.
  - apply perm_skip. exact IH.
Qed.

Lemma insert_sorted_ascending {A : Type} (key : A -> string)
  (d : ObjectId * A) (l : list (ObjectId * A)) :
  ascending key l -> ascending key (insert_sorted key d l).
Proof.
  induction l as [| x l IH]; intros Hl.
  - cbn. split; exact I.
  - cbn [insert_sorted].
    destruct (String.leb (key (snd d)) (key (snd x))) eqn:Hdx.
    + cbn [ascending]. split; [exact Hdx | exact Hl].
    + assert (Hxd : String.leb (key (snd x)) (key (snd d)) = true).
      { destruct (String.leb_total (key (snd d)) (key (snd x))) as [H | H];
          [congruence | exact H]. }
      cbn [ascending] in Hl. destruct Hl as [Hhead Htail].
      specialize (IH Htail). cbn [ascending]. split; [| exact IH].
      destruct l as [| y l]; cbn [insert_sorted] in *.
      * exact Hxd.
      * destruct (String.leb (key (snd d)) (key (snd y)));
          [exact Hxd | exact Hhead].
Qed.

Lemma sort_by_ascending {A : Type} (key : A -> string)
  (l : list (ObjectId * A)) :
  ascending key (sort_by key l).
Proof.
  unfold sort_by. induction l as [| x l IH]; simpl; [exact I |].
  apply insert_sorted_ascending. exact IH.
Qed.

(** X2.  When the cache has no live list to answer with, [getAllEmployees]
    returns the records of the stored employees, each document once and
    none else, in ascending order of name. *)
Theorem getAllEmployees_everyone_in_order :
  forall (now : Z) (st : State),
    served now st = None ->
    exists docs : list (ObjectId * Employee),
      fst (getAllEmployees now st) = Fulfilled (VArr (map employee_value docs))
      /\ Permutation docs (employees (store st))
      /\ ascending name docs.
Proof.
  intros now st Hs. exists (sort_by name (employees (store st))).
  rewrite (getAllEmployees_miss now st Hs).
  split; [reflexivity | split].
  - apply sort_by_perm.
  - apply sort_by_ascending.
Qed.

Lemma getAllEmployees_everyone_in_order_witness :
  exists docs : list (ObjectId * Employee),
    fst (getAllEmployees 0
           (snd (addEmployee "Aaron Zed" "Clerk" "Marketing" (of_Z 2000)
                   seeded_state)))
    = Fulfilled (VArr (map employee_value docs))
    /\ Permutation docs
         (employees
            (store (snd (addEmployee "Aaron Zed" "Clerk" "Marketing"
                           (of_Z 2000) seeded_state))))
    /\ ascending name docs.
Proof.
  apply getAllEmployees_everyone_in_order. reflexivity.
Defined.

(** ** The cached list of departments *)

Lemma getDepartments_hit (now : Z) (st : State) (e : Lru.Entry) :
  served_under CACHE_KEYS.DEPARTMENTS now st = Some e ->
  getDepartments now st
  = (Fulfilled (Lru.entry_value e),
     mkState (store st) (cachedDb st)
             (e :: Lru.remove CACHE_KEYS.DEPARTMENTS (cache st))).
Proof.
  unfold served_under. intros H.
  destruct (Lru.lookup CACHE_KEYS.DEPARTMENTS (cache st)) as [e' |] eqn:Hl;
    [| discriminate].
  destruct (Lru.fresh now e' && truthy (Lru.entry_value e')) eqn:Hb;
    [| discriminate].
  injection H as <-. apply andb_prop in Hb. destruct Hb as [Hf Ht].
  unfold getDepartments, try_catch, bind, getFromCache, Lru.get.
  cbv zeta. rewrite Hl, Hf, Ht. reflexivity.
Qed.

Lemma getDepartments_miss (now : Z) (st : State) :
  served_under CACHE_KEYS.DEPARTMENTS now st = None ->
  getDepartments now st
  = (Fulfilled (all_departments st), departments_listed now st).
Proof.
  unfold served_under. intros H.
  unfold getDepartments, try_catch, bind, getFromCache, departments_listed,
    Lru.get.
  cbv zeta.
  destruct (Lru.lookup CACHE_KEYS.DEPARTMENTS (cache st)) as [e |] eqn:Hl.
  - destruct (Lru.fresh now e) eqn:Hf.
    + destruct (truthy (Lru.entry_value e)) eqn:Ht; [discriminate |].
      reflexivity.
    + reflexivity.
  - reflexivity.
Qed.






(** ** What the mutations do to the cache *)

Lemma connectDB_cache (st : State) : cache (snd (connectDB st)) = cache st.
Proof.
  destruct (cachedDb st) eqn:Hc.
  - rewrite (connectDB_connected st Hc). reflexivity.
  - destruct (employees (store st)) as [| d l] eqn:He;
      [destruct (departments (store st)) as [| d' l'] eqn:Hd |].
    + rewrite (connectDB_seeds st Hc He Hd). reflexivity.
    + rewrite (connectDB_finds_documents st Hc); [reflexivity |].
      right. rewrite Hd. discriminate.
    + rewrite (connectDB_finds_documents st Hc); [reflexivity |].
      left. rewrite He. discriminate.
Qed.

Lemma addEmployee_cache (n p d : string) (s : number) (st : State) :
  cache (snd (addEmployee n p d s st)) = cache st
  \/ cache (snd (addEmployee n p d s st))
     = Lru.delete (CACHE_KEYS.EMPLOYEES_BY_DEPT d)
         (Lru.delete CACHE_KEYS.EMPLOYEES (cache st)).
Proof.
  unfold addEmployee, try_catch.
  destruct (validate n p d s) as [m |]; [left; reflexivity |].
  unfold bind, on_store, insertOneEmployee, insert_all.
  destruct (has_id (generate (next_id (store st))) (employees (store st)));
    [left | right]; reflexivity.
Qed.

Lemma incrementView_cache (id : string) (st : State) :
  cache (snd (incrementView id st)) = cache st
  \/ exists dept : string,
       cache (snd (incrementView id st))
       = Lru.delete (CACHE_KEYS.EMPLOYEES_BY_DEPT dept)
           (Lru.delete CACHE_KEYS.EMPLOYEES
              (Lru.delete (CACHE_KEYS.EMPLOYEE_DETAILS id) (cache st))).
Proof.
  destruct (isValid (trim id)) eqn:Hv;
    [| rewrite (incrementView_invalid id st Hv); left; reflexivity].
  destruct (isValid_new (trim id) Hv) as [o Hn].
  destruct (lookup_id o (employees (store st))) as [e |] eqn:Hl.
  - rewrite (incrementView_found id o e st Hv Hn Hl). right.
    exists (department e). reflexivity.
  - rewrite (incrementView_absent id o st Hv Hn Hl). left. reflexivity.
Qed.

Lemma mutation_keeps_departments_entry (r : Request) (st : State) :
  is_mutation r = true ->
  Lru.lookup CACHE_KEYS.DEPARTMENTS (cache (snd (handler r st)))
  = Lru.lookup CACHE_KEYS.DEPARTMENTS (cache st).
Proof.
  intros Hm. unfold handler, bind.
  pose proof (connectDB_cache st) as Hc.
  destruct (connectDB st) as [[[] | m] st1]; cbn [snd] in *;
    [| rewrite Hc; reflexivity].
  rewrite <- Hc.
  destruct r as [now | now id | dept | now | n p d s | id];
    try discriminate; cbn [resolve].
  - destruct (addEmployee_cache n p d s st1) as [H | H]; rewrite H;
      [reflexivity |].
    unfold Lru.delete. rewrite !lookup_remove_other; [reflexivity | |];
      unfold CACHE_KEYS.DEPARTMENTS, CACHE_KEYS.EMPLOYEES,
        CACHE_KEYS.EMPLOYEES_BY_DEPT; simpl; congruence.
  - destruct (incrementView_cache id st1) as [H | [dept H]]; rewrite H;
      [reflexivity |].
    unfold Lru.delete. rewrite !lookup_remove_other; [reflexivity | | |];
      unfold CACHE_KEYS.DEPARTMENTS, CACHE_KEYS.EMPLOYEES,
        CACHE_KEYS.EMPLOYEES_BY_DEPT, CACHE_KEYS.EMPLOYEE_DETAILS;
      simpl; congruence.
Qed.

Lemma mutations_keep_departments_entry (script : list (bool * Request)) :
  forall st : State,
    mutations_only script = true ->
    Lru.lookup CACHE_KEYS.DEPARTMENTS (cache (serve script st))
    = Lru.lookup CACHE_KEYS.DEPARTMENTS (cache st).
Proof.
  induction script as [| [restarted r] script IH]; intros st Hm;
    [reflexivity |].
  cbn [mutations_only forallb fst snd] in Hm.
  apply andb_prop in Hm. destruct Hm as [Hr Hrest].
  apply andb_prop in Hr. destruct Hr as [Hno Hmut].
  destruct restarted; [discriminate |].
  cbn [serve]. rewrite (IH _ Hrest).
  apply mutation_keeps_departments_entry. exact Hmut.
Qed.

(** X4.  The mutations never touch the cached list of departments: if the
    entry [departments:all] can answer at a time [t], then after any
    succession of [addEmployee] and [incrementView] requests handled by the
    process, [getDepartments] at [t] is still answered with the same value
    and reads nothing from the store. *)
Theorem mutations_spare_departments :
  forall (script : list (bool * Request)) (st : State) (t : Z)
         (e : Lru.Entry),
    mutations_only script = true ->
    served_under CACHE_KEYS.DEPARTMENTS t st = Some e ->
    fst (getDepartments t (serve script st)) = Fulfilled (Lru.entry_value e)
    /\ store (snd (getDepartments t (serve script st)))
       = store (serve script st).
Proof.
  intros script st t e Hm Hs.
  assert (Hs' : served_under CACHE_KEYS.DEPARTMENTS t (serve script st)
                = Some e).
  { unfold served_under in *.
    rewrite (mutations_keep_departments_entry script st Hm). exact Hs. }
  rewrite (getDepartments_hit t (serve script st) e Hs').
  split; reflexivity.
Qed.

Lemma mutations_spare_departments_witness :
  fst (getDepartments 7
         (serve [ (false, AddEmployee "Jane Doe" "Engineer" "Engineering"
                            (of_Z 90000));
                  (false, IncrementView "000000000000000000000003") ]
                (snd (getDepartments 0 seeded_state))))
  = fst (getDepartments 0 seeded_state).
Proof.
  destruct (mutations_spare_departments
              [ (false, AddEmployee "Jane Doe" "Engineer" "Engineering"
                          (of_Z 90000));
                (false, IncrementView "000000000000000000000003") ]
              (snd (getDepartments 0 seeded_state)) 7
              (Lru.mkEntry CACHE_KEYS.DEPARTMENTS
                 (all_departments seeded_state) (0 + T3)))
    as [H _]; [reflexivity | reflexivity |].
  rewrite H. reflexivity.
Defined.

(** ** [addEmployee], all its outcomes *)

Lemma addEmployee_outcomes (n p d : string) (s : number) (st : State) :
  (exists oid : ObjectId,
      fst (addEmployee n p d s st)
      = Fulfilled (employee_value (oid, newEmployee n p d s))
      /\ has_id oid (employees (store st)) = false
      /\ employees (store (snd (addEmployee n p d s st)))
         = (employees (store st) ++ [(oid, newEmployee n p d s)])%list
      /\ validate n p d s = None)
  \/ (exists reason : string,
         fst (addEmployee n p d s st)
         = Rejected ("Error adding employee: " ++ reason)
         /\ employees (store (snd (addEmployee n p d s st)))
            = employees (store st)
         /\ departments (store (snd (addEmployee n p d s st)))
            = departments (store st)
         /\ cache (snd (addEmployee n p d s st)) = cache st).
Proof.
  unfold addEmployee, try_catch.
  destruct (validate n p d s) as [m |] eqn:Hval.
  - right. exists m. repeat split.
  - unfold bind, on_store, insertOneEmployee, insert_all.
    destruct (has_id (generate (next_id (store st))) (employees (store st)))
      eqn:Hf.
    + right. exists duplicate_key. repeat split.
    + left. exists (generate (next_id (store st))). repeat split. exact Hf.
Qed.

(** X5.  [addEmployee] either fulfils, and then it has appended exactly one
    document, the trimmed texts with the salary and [views] 0, under an
    identifier no stored document had, and returns that document with that
    identifier; or it rejects with "Error adding employee: " and a reason,
    and then no employee or department document was added or changed and no
    cache entry was removed. *)
Theorem addEmployee_all_or_nothing :
  forall (n p d : string) (s : number) (st : State),
    (exists oid : ObjectId,
        fst (addEmployee n p d s st)
        = Fulfilled (employee_value (oid, newEmployee n p d s))
        /\ has_id oid (employees (store st)) = false
        /\ employees (store (snd (addEmployee n p d s st)))
           = (employees (store st) ++ [(oid, newEmployee n p d s)])%list
        /\ validate n p d s = None)
    \/ (exists reason : string,
           fst (addEmployee n p d s st)
           = Rejected ("Error adding employee: " ++ reason)
           /\ employees (store (snd (addEmployee n p d s st)))
              = employees (store st)
           /\ departments (store (snd (addEmployee n p d s st)))
              = departments (store st)
           /\ cache (snd (addEmployee n p d s st)) = cache st).
Proof.
  intros n p d s st.
  destruct (addEmployee_outcomes n p d s st) as [H | H]; [left | right];
    exact H.
Qed.

(** ** Employees of a department *)

(** X6.  [getEmployeesByDepartment] never uses the cache: it reads the
    store each time and returns records whose department is exactly the
    argument.  After a successful [addEmployee], the record it returned is
    among those listed for the trimmed department name. *)
Theorem added_employee_found_by_department :
  forall (n p d : string) (s : number) (st : State) (r : value),
    fst (addEmployee n p d s st) = Fulfilled r ->
    exists items : list value,
      getEmployeesByDepartment (trim d) (snd (addEmployee n p d s st))
      = (Fulfilled (VArr items),
         mkState (log (Find "employees")
                    (store (snd (addEmployee n p d s st))))
                 (cachedDb (snd (addEmployee n p d s st)))
                 (cache (snd (addEmployee n p d s st))))
      /\ In r items
      /\ forall item, In item items ->
                      field "department" item = Some (VStr (trim d)).
Proof.
  intros n p d s st r Hok.
  destruct (addEmployee_outcomes n p d s st)
    as [(oid & Hr & Hf & He & _) | (reason & Hr & _)];
    [| rewrite Hr in Hok; discriminate].
  rewrite Hr in Hok. injection Hok as <-.
  rewrite getEmployeesByDepartment_run. eexists. split; [reflexivity |].
  split.
  - apply in_map. apply filter_In. split.
    + rewrite He. apply in_or_app. right. left. reflexivity.
    + unfold newEmployee. cbn [snd department]. apply String.eqb_refl.
  - intros item Hin. apply in_map_iff in Hin.
    destruct Hin as (doc & <- & Hdoc). apply filter_In in Hdoc.
    destruct Hdoc as [_ Hdept]. apply String.eqb_eq in Hdept.
    unfold employee_value, field. cbn. rewrite Hdept. reflexivity.
Qed.

Lemma added_employee_found_by_department_witness :
  exists items : list value,
    fst (getEmployeesByDepartment "Engineering"
           (snd (addEmployee "Jane Doe" "Engineer" " Engineering "
                   (of_Z 90000) seeded_state)))
    = Fulfilled (VArr items)
    /\ In (employee_value
             (9%N, mkEmployee "Jane Doe" "Engineer" "Engineering"
                              (of_Z 90000) (Some 0)))
          items.
Proof.
  destruct (added_employee_found_by_department
              "Jane Doe" "Engineer" " Engineering " (of_Z 90000) seeded_state
              (employee_value
                 (9%N, mkEmployee "Jane Doe" "Engineer" "Engineering"
                                  (of_Z 90000) (Some 0))))
    as (items & Hrun & Hin & _); [reflexivity |].
  exists items. split; [| exact Hin].
  change (trim " Engineering ") with "Engineering" in Hrun.
  rewrite Hrun. reflexivity.
Defined.

(** ** The connection and the [views] field *)




(** ** Well-formed states along the requests *)

Lemma ids_assign {A : Type} (new : list A) (next : N) (bound : N) :
  (next + N.of_nat (List.length new) <= bound)%N ->
  (bound <= ObjectId_bound)%N ->
  forallb (fun d : ObjectId * A => (fst d <? bound)%N) (assign new next)
  = true.
Proof.
  revert next. induction new as [| d new IH]; intros next Hb Hbb;
    [reflexivity |].
  cbn [assign forallb fst List.length] in *.
  apply andb_true_iff. split.
  - apply N.ltb_lt. unfold generate. rewrite N.mod_small by lia. lia.
  - apply IH; lia.
Qed.

Lemma has_id_default_views (oid : ObjectId)
  (docs : list (ObjectId * Employee)) :
  has_id oid (map (fun d => (fst d, default_views (snd d))) docs)
  = has_id oid docs.
Proof.
  unfold has_id. induction docs as [| [i e] docs IH]; simpl;
    [reflexivity | rewrite IH; reflexivity].
Qed.

Lemma ids_default_views (f : N -> bool) (docs : list (ObjectId * Employee)) :
  forallb (fun d => f (fst d))
          (map (fun d => (fst d, default_views (snd d))) docs)
  = forallb (fun d => f (fst d)) docs.
Proof.
  induction docs as [| [i e] docs IH]; simpl;
    [reflexivity | rewrite IH; reflexivity].
Qed.

Lemma connectDB_well_formed (st : State) :
  well_formed st = true ->
  (next_id (store st) + 9 < ObjectId_bound)%N ->
  well_formed (snd (connectDB st)) = true
  /\ (next_id (store (snd (connectDB st))) <= next_id (store st) + 9)%N.
Proof.
  intros Hw Hroom. pose proof Hw as Hw0.
  apply well_formed_parts in Hw. destruct Hw as (Ha & Hb & Hc).
  destruct (cachedDb st) eqn:Hcd.
  - rewrite (connectDB_connected st Hcd). split; [exact Hw0 | cbn; lia].
  - destruct (employees (store st)) as [| d l] eqn:He;
      [destruct (departments (store st)) as [| d' l'] eqn:Hd |].
    + rewrite (connectDB_seeds st Hcd He Hd). cbn [snd].
      split; [| unfold seeded; cbn [store next_id]; lia].
      apply well_formed_parts. unfold seeded.
      cbn [store cache employees next_id]. split; [| split].
      * apply ids_assign; cbn [List.length seedEmployees]; lia.
      * apply N.ltb_lt. lia.
      * apply (cache_sound_ext (store st)); [| exact Hc].
        intros oid H. rewrite He in H. discriminate.
    + rewrite (connectDB_finds_documents st Hcd)
        by (right; rewrite Hd; discriminate).
      cbn [snd]. split; [| unfold connected; cbn [store next_id]; lia].
      apply well_formed_parts. unfold connected.
      cbn [store cache employees next_id]. rewrite He. cbn [map forallb].
      split; [reflexivity | split; [exact Hb |]].
      apply (cache_sound_ext (store st)); [| exact Hc].
      intros oid H. rewrite He in H. discriminate.
    + rewrite (connectDB_finds_documents st Hcd)
        by (left; rewrite He; discriminate).
      cbn [snd]. split; [| unfold connected; cbn [store next_id]; lia].
      apply well_formed_parts. unfold connected.
      cbn [store cache employees next_id].
      split; [| split; [exact Hb |]].
      * rewrite (ids_default_views
                   (fun i => (i <? next_id (store st))%N)).
        rewrite He. exact Ha.
      * apply (cache_sound_ext (store st)); [| exact Hc].
        intros oid H. cbn [employees].
        rewrite has_id_default_views. exact H.
Qed.

Lemma getDepartments_well_formed (now : Z) (st : State) :
  well_formed st = true ->
  well_formed (snd (getDepartments now st)) = true.
Proof.
  intros Hw. apply well_formed_parts in Hw. destruct Hw as (Ha & Hb & Hc).
  destruct (served_under CACHE_KEYS.DEPARTMENTS now st) as [e |] eqn:Hs.
  - rewrite (getDepartments_hit now st e Hs). cbn [snd].
    apply well_formed_parts. cbn [store cache].
    split; [exact Ha | split; [exact Hb |]].
    pose proof (sound_get (entry_sound (store st)) now CACHE_KEYS.DEPARTMENTS
                  (cache st) Hc) as Hg.
    unfold served_under in Hs. unfold Lru.get in Hg.
    destruct (Lru.lookup CACHE_KEYS.DEPARTMENTS (cache st)) as [e' |];
      [| discriminate].
    destruct (Lru.fresh now e'); [| discriminate].
    destruct (truthy (Lru.entry_value e')); [| discriminate].
    injection Hs as <-. exact Hg.
  - rewrite (getDepartments_miss now st Hs). cbn [snd].
    apply well_formed_parts. unfold departments_listed.
    cbn [store cache log employees next_id].
    split; [exact Ha | split; [exact Hb |]].
    apply sound_set; [reflexivity |].
    apply (cache_sound_ext (store st)); [intros oid H; exact H |].
    apply sound_get. exact Hc.
Qed.

Lemma addEmployee_next_id (n p d : string) (s : number) (st : State) :
  (next_id (store (snd (addEmployee n p d s st))) <= next_id (store st) + 1)%N.
Proof.
  unfold addEmployee, try_catch.
  destruct (validate n p d s) as [m |]; [cbn; lia |].
  unfold bind, on_store, insertOneEmployee, insert_all.
  destruct (has_id (generate (next_id (store st))) (employees (store st)));
    cbn; lia.
Qed.

Lemma incrementView_next_id (id : string) (st : State) :
  next_id (store (snd (incrementView id st))) = next_id (store st).
Proof.
  destruct (isValid (trim id)) eqn:Hv;
    [| rewrite (incrementView_invalid id st Hv); reflexivity].
  destruct (isValid_new (trim id) Hv) as [o Hn].
  destruct (lookup_id o (employees (store st))) as [e |] eqn:Hl.
  - rewrite (incrementView_found id o e st Hv Hn Hl). reflexivity.
  - rewrite (incrementView_absent id o st Hv Hn Hl). reflexivity.
Qed.

Lemma resolve_well_formed (r : Request) (st : State) :
  well_formed st = true ->
  (next_id (store st) + 1 < ObjectId_bound)%N ->
  well_formed (snd (resolve r st)) = true
  /\ (next_id (store (snd (resolve r st))) <= next_id (store st) + 1)%N.
Proof.
  intros Hw Hroom.
  destruct r as [now | now id | dept | now | n p d s | id]; cbn [resolve].
  - split; [apply getAllEmployees_well_formed; exact Hw |].
    destruct (getAllEmployees_data now st) as (_ & _ & H & _). rewrite H. lia.
  - split; [apply getEmployeeDetails_well_formed; exact Hw |].
    destruct (getEmployeeDetails_data now id st) as (_ & _ & H & _).
    rewrite H. lia.
  - rewrite getEmployeesByDepartment_run. cbn [snd]. split; [| cbn; lia].
    apply well_formed_parts in Hw. destruct Hw as (Ha & Hb & Hc).
    apply well_formed_parts. cbn [store cache log employees next_id].
    split; [exact Ha | split; [exact Hb |]].
    apply (cache_sound_ext (store st)); [intros oid H; exact H | exact Hc].
  - split; [apply getDepartments_well_formed; exact Hw |].
    destruct (getDepartments_data now st) as (_ & _ & H & _). rewrite H. lia.
  - split; [apply addEmployee_well_formed; [exact Hw | lia] |].
    apply addEmployee_next_id.
  - split; [apply incrementView_well_formed; exact Hw |].
    rewrite incrementView_next_id. lia.
Qed.

Lemma handler_well_formed (r : Request) (st : State) :
  well_formed st = true ->
  (next_id (store st) + 10 < ObjectId_bound)%N ->
  well_formed (snd (handler r st)) = true
  /\ (next_id (store (snd (handler r st))) <= next_id (store st) + 10)%N.
Proof.
  intros Hw Hroom.
  destruct (connectDB_well_formed st Hw) as [Hw1 Hn1]; [lia |].
  unfold handler, bind.
  destruct (connectDB st) as [[[] | m] st1]; cbn [snd] in *.
  - destruct (resolve_well_formed r st1 Hw1) as [Hw2 Hn2]; [lia |].
    split; [exact Hw2 | lia].
  - split; [exact Hw1 | lia].
Qed.

Lemma restart_well_formed (st : State) :
  well_formed st = true -> well_formed (restart st) = true.
Proof.
  intros Hw. apply well_formed_parts in Hw. destruct Hw as (Ha & Hb & _).
  apply well_formed_parts. cbn [restart store cache forallb].
  split; [exact Ha | split; [exact Hb | reflexivity]].
Qed.

Lemma serve_well_formed (script : list (bool * Request)) :
  forall st : State,
    well_formed st = true ->
    (next_id (store st) + 10 * N.of_nat (List.length script)
     < ObjectId_bound)%N ->
    well_formed (serve script st) = true.
Proof.
  induction script as [| [restarted r] script IH]; intros st Hw Hroom;
    [exact Hw |].
  cbn [serve]. cbn [List.length] in Hroom.
  set (st0 := if restarted then restart st else st).
  assert (Hw0 : well_formed st0 = true)
    by (unfold st0; destruct restarted;
        [apply restart_well_formed |]; exact Hw).
  assert (Hn0 : next_id (store st0) = next_id (store st))
    by (unfold st0; destruct restarted; reflexivity).
  destruct (handler_well_formed r st0 Hw0) as [Hw1 Hn1]; [lia |].
  apply IH; [exact Hw1 | lia].
Qed.

(** X8.  The cache never holds the record of an employee that is not
    stored.  From a well-formed state (the seeded one, say), after any
    requests, with restarts or without, as long as identifiers are left to
    generate, [getEmployeeDetails] on a well-formed identifier that names
    no stored document rejects with "Employee not found": no entry is there
    to answer in its place. *)
Theorem no_record_without_document :
  forall (script : list (bool * Request)) (st : State) (now : Z)
         (id : string),
    well_formed st = true ->
    (next_id (store st) + 10 * N.of_nat (List.length script)
     < ObjectId_bound)%N ->
    isValid id = true ->
    (forall oid, ObjectId_new id = Some oid ->
                 lookup_id oid (employees (store (serve script st))) = None) ->
    well_formed (serve script st) = true
    /\ fst (getEmployeeDetails now id (serve script st))
       = Rejected not_found_message.
Proof.
  intros script st now id Hw Hroom Hv Ha.
  pose proof (serve_well_formed script st Hw Hroom) as Hw'.
  split; [exact Hw' |].
  destruct (isValid_new id Hv) as [oid Hn]. specialize (Ha oid Hn).
  apply well_formed_parts in Hw'. destruct Hw' as (_ & _ & Hs).
  rewrite (getEmployeeDetails_absent now id oid (serve script st) Hv Hn);
    [reflexivity | | exact Ha].
  apply (sound_no_entry _ _ id oid Hs Hn).
  apply has_id_lookup_id. exact Ha.
Qed.

Lemma no_record_without_document_witness :
  fst (getEmployeeDetails 9 "0000000000000000000000ff"
         (serve [ (false, GetEmployeeDetails 1 "000000000000000000000003");
                  (false, IncrementView "000000000000000000000003");
                  (true, GetEmployeeDetails 2 "0000000000000000000000ff") ]
                seeded_state))
  = Rejected not_found_message.
Proof.
  destruct (no_record_without_document
              [ (false, GetEmployeeDetails 1 "000000000000000000000003");
                (false, IncrementView "000000000000000000000003");
                (true, GetEmployeeDetails 2 "0000000000000000000000ff") ]
              seeded_state 9 "0000000000000000000000ff")
    as [_ H]; [reflexivity | reflexivity | reflexivity | | exact H].
  intros oid Hoid. vm_compute in Hoid. injection Hoid as <-. reflexivity.
Defined.

Lemma mutation_drops_the_list (r : Request) (st : State) (v : value) :
  is_mutation r = true ->
  fst (resolve r st) = Fulfilled v ->
  Lru.lookup CACHE_KEYS.EMPLOYEES (cache (snd (resolve r st))) = None.
Proof.
  destruct r as [now | now id | dept | now | n p d s | id];
    try discriminate; intros _; cbn [resolve].
  - unfold addEmployee, try_catch.
    destruct (validate n p d s) as [m |]; [discriminate |].
    unfold bind, on_store, insertOneEmployee, insert_all.
    destruct (has_id (generate (next_id (store st))) (employees (store st)));
      [discriminate |].
    intros _.
    cbn [fst snd store cachedDb cache invalidateCache on_cache ret fold_left].
    unfold Lru.delete.
    apply lookup_remove_absent. apply lookup_remove_same.
  - destruct (isValid (trim id)) eqn:Hv;
      [| rewrite (incrementView_invalid id st Hv); discriminate].
    destruct (isValid_new (trim id) Hv) as [oid Hn].
    destruct (lookup_id oid (employees (store st))) as [e |] eqn:Hl;
      [| rewrite (incrementView_absent id oid st Hv Hn Hl); discriminate].
    rewrite (incrementView_found id oid e st Hv Hn Hl). intros _.
    unfold viewed. cbn [snd cache]. unfold Lru.delete.
    apply lookup_remove_absent. apply lookup_remove_same.
Qed.

(** X24.  A mutation that succeeds is seen by the next list of employees.
    After [addEmployee] or [incrementView] has fulfilled (the latter with
    white space around the identifier or without), the next
    [getAllEmployees] does not answer from the cache, whatever the time: it
    reads the store and returns all the employees stored by then, the new
    one or the new counter included. *)
Theorem list_is_fresh_after_mutation :
  forall (now : Z) (r : Request) (st : State) (v : value),
    is_mutation r = true ->
    fst (resolve r st) = Fulfilled v ->
    getAllEmployees now (snd (resolve r st))
    = (Fulfilled (all_employees (snd (resolve r st))),
       listed now (snd (resolve r st))).
Proof.
  intros now r st v Hm Hf. apply getAllEmployees_miss.
  unfold served. rewrite (mutation_drops_the_list r st v Hm Hf). reflexivity.
Qed.

Lemma list_is_fresh_after_mutation_witness :
  fst (getAllEmployees 2
         (snd (incrementView " 000000000000000000000003 "
                 (snd (getAllEmployees 1 seeded_state)))))
  = Fulfilled
      (all_employees
         (snd (incrementView " 000000000000000000000003 "
                 (snd (getAllEmployees 1 seeded_state))))).
Proof.
  pose proof (list_is_fresh_after_mutation 2
                (IncrementView " 000000000000000000000003 ")
                (snd (getAllEmployees 1 seeded_state))
                (employee_value
                   (3%N, mkEmployee "Alice Johnson" "Senior Developer"
                                    "Engineering" (of_Z 95000) (Some 1))))
    as H.
  cbn [resolve] in H. rewrite H; reflexivity.
Defined.

Lemma handler_connected (r : Request) (st : State) :
  cachedDb st = true -> handler r st = resolve r st.
Proof.
  intros H. unfold handler, bind. rewrite (connectDB_connected st H).
  destruct (resolve r st); reflexivity.
Qed.

Lemma query_reads (r : Request) (st : State) :
  is_mutation r = false ->
  cachedDb (snd (resolve r st)) = cachedDb st
  /\ (store (snd (resolve r st)) = store st
      \/ exists op, is_read op = true
                    /\ store (snd (resolve r st)) = log op (store st)).
Proof.
  destruct r as [now | now id | dept | now | n p d s | id];
    try discriminate; intros _; cbn [resolve].
  - destruct (served now st) as [e |] eqn:Hs.
    + rewrite (getAllEmployees_hit now st e Hs).
      split; [reflexivity | left; reflexivity].
    + rewrite (getAllEmployees_miss now st Hs).
      split; [reflexivity |]. right. eexists. split; [| reflexivity].
      reflexivity.
  - unfold getEmployeeDetails, try_catch.
    destruct (isValid id); cbn [negb];
      [| split; [reflexivity | left; reflexivity]].
    unfold bind, getFromCache. cbv beta iota zeta.
    destruct (Lru.get now (CACHE_KEYS.EMPLOYEE_DETAILS id) (cache st))
      as [cached c'].
    destruct (truthy match cached with Some v => v | None => VNull end);
      [split; [reflexivity | left; reflexivity] |].
    destruct (ObjectId_new id) as [oid |];
      [| split; [reflexivity | left; reflexivity]].
    unfold on_store, findOneEmployee. cbn [store cachedDb cache fst snd].
    destruct (lookup_id oid (employees (store st)));
      (split; [reflexivity |]; right; eexists; split; [| reflexivity];
       reflexivity).
  - rewrite getEmployeesByDepartment_run.
    split; [reflexivity |]. right. eexists. split; [| reflexivity].
    reflexivity.
  - unfold getDepartments, try_catch, bind, getFromCache.
    cbv beta iota zeta.
    destruct (Lru.get now CACHE_KEYS.DEPARTMENTS (cache st)) as [cached c'].
    destruct (truthy match cached with Some v => v | None => VNull end).
    + split; [reflexivity | left; reflexivity].
    + split; [reflexivity |]. right. eexists. split; [| reflexivity].
      reflexivity.
Qed.

(** X25.  Queries never write to the database.  When a connected process
    handles queries only, whatever they are and whatever the cache holds,
    both collections and the generator of identifiers stay as they were,
    and the operations sent to the database are reads, one at most for each
    query. *)
Theorem queries_are_read_only :
  forall (script : list (bool * Request)) (st : State),
    cachedDb st = true ->
    queries_only script = true ->
    employees (store (serve script st)) = employees (store st)
    /\ departments (store (serve script st)) = departments (store st)
    /\ next_id (store (serve script st)) = next_id (store st)
    /\ exists reads,
         oplog (store (serve script st)) = (reads ++ oplog (store st))%list
         /\ forallb is_read reads = true
         /\ (List.length reads <= List.length script)%nat.
Proof.
  induction script as [| [restarted r] script IH]; intros st Hc Hq.
  - cbn [serve]. repeat split. exists []. repeat split. cbn. lia.
  - cbn [queries_only forallb fst snd] in Hq.
    apply andb_prop in Hq. destruct Hq as [Hhead Hq].
    apply andb_prop in Hhead. destruct Hhead as [Hr Hm].
    apply negb_true_iff in Hr, Hm. subst restarted.
    cbn [serve]. rewrite (handler_connected r st Hc).
    destruct (query_reads r st Hm) as [Hc' Hstore].
    rewrite Hc in Hc'.
    destruct (IH (snd (resolve r st)) Hc' Hq)
      as (He & Hd & Hn & reads & Hlog & Hall & Hlen).
    rewrite He, Hd, Hn, Hlog.
    destruct Hstore as [-> | (op & Hop & ->)].
    + repeat split. exists reads. repeat split; [exact Hall |].
      cbn [List.length]. lia.
    + cbn [log employees departments next_id oplog]. repeat split.
      exists (reads ++ [op])%list. rewrite <- app_assoc. repeat split.
      * rewrite forallb_app, Hall. cbn. rewrite Hop. reflexivity.
      * rewrite length_app. cbn [List.length]. lia.
Qed.

Lemma queries_are_read_only_witness :
  employees
    (store (serve [ (false, GetAllEmployees 1);
                    (false, GetEmployeeDetails 2 "000000000000000000000003");
                    (false, GetEmployeesByDepartment "Engineering");
                    (false, GetDepartments 3) ]
                  seeded_state))
  = employees (store seeded_state).
Proof.
  destruct (queries_are_read_only
              [ (false, GetAllEmployees 1);
                (false, GetEmployeeDetails 2 "000000000000000000000003");
                (false, GetEmployeesByDepartment "Engineering");
                (false, GetDepartments 3) ]
              seeded_state) as (H & _); [reflexivity | reflexivity | exact H].
Defined.

(* ===================================================================== *)
(** * The pages and the service *)
(* ===================================================================== *)

Import JsText.








(** ** The form *)

Lemma trimStart_head (s : string) :
  trimStart s = ""
  \/ exists c r, trimStart s = String c r /\ is_space c = false.
Proof.
  induction s as [| c r IH]; simpl; [left; reflexivity |].
  destruct (is_space c) eqn:Hc; [exact IH |].
  right. exists c, r. split; [reflexivity | exact Hc].
Qed.

Lemma trimEnd_idempotent (s : string) : trimEnd (trimEnd s) = trimEnd s.
Proof.
  induction s as [| c r IH]; simpl; [reflexivity |].
  destruct (trimEnd r) as [| d r'] eqn:Hr.
  - destruct (is_space c) eqn:Hc; simpl; [reflexivity |].
    rewrite Hc. reflexivity.
  - cbn [trimEnd]. cbn [trimEnd] in IH. rewrite IH. reflexivity.
Qed.

Lemma trim_idempotent (s : string) : trim (trim s) = trim s.
Proof.
  unfold trim.
  assert (H : trimStart (trimEnd (trimStart s)) = trimEnd (trimStart s)).
  { destruct (trimStart_head s) as [-> | (c & r & -> & Hc)];
      [reflexivity |].
    cbn [trimEnd]. destruct (trimEnd r); [rewrite Hc |];
      cbn [trimStart]; rewrite Hc; reflexivity. }
  rewrite H. apply trimEnd_idempotent.
Qed.

Lemma falsy_length (s : string) :
  falsy_string s = (String.length s =? 0)%nat.
Proof. destruct s; reflexivity. Qed.

Section FormLemmas.

Variable parseFloat : string -> number.

Lemma form_checks (f : AddEmployeePage.FormData) :
  AddEmployeePage.validate parseFloat f = true ->
  (2 <= String.length (trim (AddEmployeePage.name f)))%nat
  /\ (2 <= String.length (trim (AddEmployeePage.position f)))%nat
  /\ AddEmployeePage.department f <> ""
  /\ parseFloat (AddEmployeePage.salary f) <> NaN
  /\ num_lt (parseFloat (AddEmployeePage.salary f)) (of_Z 1000) = false
  /\ num_gt (parseFloat (AddEmployeePage.salary f)) (of_Z 1000000) = false.
Proof.
  unfold AddEmployeePage.validate, AddEmployeePage.check.
  destruct (falsy_string (trim (AddEmployeePage.name f))); [discriminate |].
  destruct (String.length (trim (AddEmployeePage.name f)) <? 2)%nat eqn:Hn;
    [discriminate |].
  destruct (falsy_string (trim (AddEmployeePage.position f)));
    [discriminate |].
  destruct (String.length (trim (AddEmployeePage.position f)) <? 2)%nat
    eqn:Hp; [discriminate |].
  destruct (falsy_string (AddEmployeePage.department f)) eqn:Hd;
    [discriminate |].
  destruct (falsy_string (AddEmployeePage.salary f)); [discriminate |].
  destruct (AddEmployeePage.isNaN (parseFloat (AddEmployeePage.salary f)))
    eqn:Hnan; [discriminate |].
  cbn [orb].
  destruct (num_le (parseFloat (AddEmployeePage.salary f)) (of_Z 0));
    [discriminate |].
  destruct (num_lt (parseFloat (AddEmployeePage.salary f)) (of_Z 1000));
    [discriminate |].
  destruct (num_gt (parseFloat (AddEmployeePage.salary f)) (of_Z 1000000));
    [discriminate |].
  intros _. apply Nat.ltb_ge in Hn, Hp.
  repeat split; try assumption.
  - intros E. rewrite E in Hd. discriminate.
  - intros E. rewrite E in Hnan. discriminate.
Qed.

End FormLemmas.

(** X11.  A form that passes the page's own validation passes the
    service's validation too, but for one case: the page only asks for a
    department that is not empty, the service for one that is not blank.
    The salary such a form sends is a number from 1000 to 1000000, never
    NaN, whatever [parseFloat] is; and with a department that is not blank
    and an unused next identifier, a connected process answers the
    submission with the record made of the trimmed fields. *)
Theorem valid_form_is_accepted :
  forall (parseFloat : string -> number) (f : AddEmployeePage.FormData)
         (st : State),
    AddEmployeePage.validate parseFloat f = true ->
    validate (trim (AddEmployeePage.name f))
             (trim (AddEmployeePage.position f))
             (AddEmployeePage.department f)
             (parseFloat (AddEmployeePage.salary f))
    = (if (String.length (trim (AddEmployeePage.department f)) =? 0)%nat
       then Some "Department is required" else None)
    /\ in_documented_range (parseFloat (AddEmployeePage.salary f)) = true
    /\ (trim (AddEmployeePage.department f) <> "" ->
        cachedDb st = true ->
        has_id (generate (next_id (store st))) (employees (store st))
        = false ->
        fst (AddEmployeePage.handleSubmit parseFloat f st)
        = Some (Fulfilled
                  (employee_value
                     (generate (next_id (store st)),
                      mkEmployee (trim (AddEmployeePage.name f))
                                 (trim (AddEmployeePage.position f))
                                 (trim (AddEmployeePage.department f))
                                 (parseFloat_toString
                                    (parseFloat (AddEmployeePage.salary f)))
                                 (Some 0))))).
Proof.
  intros parseFloat f st Hval.
  destruct (form_checks parseFloat f Hval)
    as (Hn & Hp & Hd & Hnan & Hlo & Hhi).
  assert (Hfn : falsy_string (trim (AddEmployeePage.name f)) = false).
  { rewrite falsy_length. apply Nat.eqb_neq. lia. }
  assert (Hfp : falsy_string (trim (AddEmployeePage.position f)) = false).
  { rewrite falsy_length. apply Nat.eqb_neq. lia. }
  assert (Hfd : falsy_string (AddEmployeePage.department f) = false).
  { destruct (AddEmployeePage.department f); [contradiction | reflexivity]. }
  assert (Hln : (String.length (trim (trim (AddEmployeePage.name f))) <? 2)%nat
                = false)
    by (rewrite trim_idempotent; apply Nat.ltb_ge; exact Hn).
  assert (Hlp : (String.length (trim (trim (AddEmployeePage.position f)))
                 <? 2)%nat = false)
    by (rewrite trim_idempotent; apply Nat.ltb_ge; exact Hp).
  assert (Hserver :
    validate (trim (AddEmployeePage.name f))
             (trim (AddEmployeePage.position f))
             (AddEmployeePage.department f)
             (parseFloat (AddEmployeePage.salary f))
    = (if (String.length (trim (AddEmployeePage.department f)) =? 0)%nat
       then Some "Department is required" else None)).
  { unfold validate. rewrite Hfn, Hln, Hfp, Hlp, Hfd, Hlo, Hhi. cbn [orb].
    destruct (String.length (trim (AddEmployeePage.department f)) =? 0)%nat;
      reflexivity. }
  assert (Hacc : salary_accepted (parseFloat (AddEmployeePage.salary f))
                 = true)
    by (unfold salary_accepted; rewrite Hlo, Hhi; reflexivity).
  split; [exact Hserver |]. split.
  - apply salary_accepted_iff in Hacc. destruct Hacc as [H | H];
      [exact H | contradiction].
  - intros Hblank Hc Hfree. unfold AddEmployeePage.handleSubmit.
    rewrite Hval. unfold AddEmployeePage.submitted.
    rewrite (handler_connected _ st Hc). cbn [resolve].
    rewrite addEmployee_succeeds; [| | exact Hacc | exact Hfree].
    + cbn [fst]. unfold newEmployee. rewrite !trim_idempotent. reflexivity.
    + unfold valid_texts. rewrite Hfn, Hln, Hfp, Hlp, Hfd. cbn [orb negb andb].
      apply negb_true_iff. apply Nat.eqb_neq. intros E.
      apply Hblank. destruct (trim (AddEmployeePage.department f));
        [reflexivity | discriminate].
Qed.

Lemma valid_form_is_accepted_witness :
  validate "Jane Doe" "Engineer" "Engineering" (of_Z 50000) = None
  /\ fst (AddEmployeePage.handleSubmit (fun _ => of_Z 50000)
            (AddEmployeePage.mkFormData " Jane Doe " "Engineer "
               "Engineering" "50000")
            seeded_state)
     = Some (Fulfilled
               (employee_value
                  (generate (next_id (store seeded_state)),
                   mkEmployee "Jane Doe" "Engineer" "Engineering"
                              (of_Z 50000) (Some 0)))).
Proof.
  destruct (valid_form_is_accepted (fun _ => of_Z 50000)
              (AddEmployeePage.mkFormData " Jane Doe " "Engineer "
                 "Engineering" "50000")
              seeded_state)
    as (H1 & _ & H2); [reflexivity |].
  split; [exact H1 |].
  apply H2; [discriminate | reflexivity | reflexivity].
Defined.

(** ** The filters of the list *)

Lemma lower_unit_space (c : ascii) : is_space (lower_unit c) = is_space c.
Proof.
  destruct c as [b0 b1 b2 b3 b4 b5 b6 b7].
  destruct b0, b1, b2, b3, b4, b5, b6, b7; reflexivity.
Qed.

Lemma lower_unit_idempotent (c : ascii) :
  lower_unit (lower_unit c) = lower_unit c.
Proof.
  destruct c as [b0 b1 b2 b3 b4 b5 b6 b7].
  destruct b0, b1, b2, b3, b4, b5, b6, b7; reflexivity.
Qed.

Lemma toLowerCase_idempotent (s : string) :
  toLowerCase (toLowerCase s) = toLowerCase s.
Proof.
  induction s as [| c r IH]; simpl; [reflexivity |].
  rewrite lower_unit_idempotent, IH. reflexivity.
Qed.

Lemma toLowerCase_app (s t : string) :
  toLowerCase (s ++ t) = (toLowerCase s ++ toLowerCase t)%string.
Proof.
  induction s as [| c r IH]; simpl; [reflexivity |]. rewrite IH. reflexivity.
Qed.

Lemma toLowerCase_spaces (s : string) :
  all_space (toLowerCase s) = all_space s.
Proof.
  induction s as [| c r IH]; simpl; [reflexivity |].
  rewrite lower_unit_space, IH. reflexivity.
Qed.

Lemma trimStart_toLowerCase (s : string) :
  trimStart (toLowerCase s) = toLowerCase (trimStart s).
Proof.
  induction s as [| c r IH]; simpl; [reflexivity |].
  rewrite lower_unit_space. destruct (is_space c); [exact IH | reflexivity].
Qed.

Lemma trimEnd_toLowerCase (s : string) :
  trimEnd (toLowerCase s) = toLowerCase (trimEnd s).
Proof.
  induction s as [| c r IH]; simpl; [reflexivity |].
  rewrite IH, lower_unit_space.
  destruct (trimEnd r); simpl; [destruct (is_space c) |]; reflexivity.
Qed.

Lemma trim_toLowerCase (s : string) :
  trim (toLowerCase s) = toLowerCase (trim s).
Proof.
  unfold trim. rewrite trimStart_toLowerCase. apply trimEnd_toLowerCase.
Qed.

Lemma falsy_toLowerCase (s : string) :
  falsy_string (toLowerCase s) = falsy_string s.
Proof. destruct s; reflexivity. Qed.

Lemma trimStart_all_space (s : string) :
  all_space s = true -> trimStart s = "".
Proof.
  induction s as [| c r IH]; simpl; [reflexivity |].
  intros H. apply andb_prop in H. destruct H as [Hc Hr].
  rewrite Hc. exact (IH Hr).
Qed.

Lemma trimStart_app (t r : string) :
  trimStart (t ++ r)
  = if all_space t then trimStart r else (trimStart t ++ r)%string.
Proof.
  induction t as [| c t IH]; simpl; [reflexivity |].
  destruct (is_space c); [exact IH | reflexivity].
Qed.

Lemma trim_padding (l t r : string) :
  all_space l = true -> all_space r = true -> trim (l ++ t ++ r) = trim t.
Proof.
  intros Hl Hr. unfold trim.
  rewrite (trimStart_spaces l (t ++ r) Hl), trimStart_app.
  destruct (all_space t) eqn:Ht.
  - rewrite (trimStart_all_space r Hr), (trimStart_all_space t Ht).
    reflexivity.
  - apply trimEnd_app_spaces. exact Hr.
Qed.

Lemma filteredEmployees_term (all : list HomePage.Employee)
  (d t1 t2 : string) :
  trim (toLowerCase t1) = trim (toLowerCase t2) ->
  HomePage.filteredEmployees all d t1 = HomePage.filteredEmployees all d t2.
Proof.
  intros H. unfold HomePage.filteredEmployees.
  assert (Hb : falsy_string (trim t1) = falsy_string (trim t2)).
  { rewrite <- (falsy_toLowerCase (trim t1)),
            <- (falsy_toLowerCase (trim t2)), <- !trim_toLowerCase, H.
    reflexivity. }
  rewrite Hb, H. reflexivity.
Qed.

(** X12.  The search of the list ignores the case of the term and the
    white space around it: two terms that are equal once put in lower case
    and trimmed show the same employees, whatever the list and the selected
    department; so a term, the term in lower case, and the term with white
    space around it all give one result. *)
Theorem search_ignores_case_and_padding :
  forall (all : list HomePage.Employee) (d t1 t2 l r : string),
    trim (toLowerCase t1) = trim (toLowerCase t2) ->
    all_space l = true ->
    all_space r = true ->
    HomePage.filteredEmployees all d t1 = HomePage.filteredEmployees all d t2
    /\ HomePage.filteredEmployees all d (toLowerCase t1)
       = HomePage.filteredEmployees all d t1
    /\ HomePage.filteredEmployees all d (l ++ t1 ++ r)
       = HomePage.filteredEmployees all d t1.
Proof.
  intros all d t1 t2 l r H Hl Hr. split; [| split].
  - apply filteredEmployees_term. exact H.
  - apply filteredEmployees_term. rewrite toLowerCase_idempotent.
    reflexivity.
  - apply filteredEmployees_term.
    rewrite !toLowerCase_app.
    apply trim_padding; rewrite toLowerCase_spaces; assumption.
Qed.

Lemma search_ignores_case_and_padding_witness :
  HomePage.filteredEmployees
    [ HomePage.mkEmployee "1" "Alice Johnson" "Senior Developer"
        "Engineering" 0 "95000";
      HomePage.mkEmployee "2" "Bob Smith" "Designer" "Design" 0 "70000" ]
    "all" "  DEV "
  = HomePage.filteredEmployees
      [ HomePage.mkEmployee "1" "Alice Johnson" "Senior Developer"
          "Engineering" 0 "95000";
        HomePage.mkEmployee "2" "Bob Smith" "Designer" "Design" 0 "70000" ]
      "all" "dev".
Proof.
  destruct (search_ignores_case_and_padding
              [ HomePage.mkEmployee "1" "Alice Johnson" "Senior Developer"
                  "Engineering" 0 "95000";
                HomePage.mkEmployee "2" "Bob Smith" "Designer" "Design" 0
                  "70000" ]
              "all" "  DEV " "dev" " " " ")
    as (H & _ & _); [reflexivity | reflexivity | reflexivity | exact H].
Defined.

Lemma filter_nil_length {A : Type} (f : A -> bool) (l : list A) :
  (if (List.length l =? 0)%nat then l else filter f l) = filter f l.
Proof. destruct l; reflexivity. Qed.

(** X13.  Choosing a department in the filter shows, in the order of the
    list, exactly the employees whose department is that one up to case
    (and is not empty), while the search is blank; but for a department
    whose name is "all" in some case, for which every employee is shown.
    Clearing the filter shows every employee again. *)
Theorem selecting_a_department :
  forall (all : list HomePage.Employee) (deptName : string)
         (s : HomePage.Filters),
    trim (HomePage.searchTerm s) = "" ->
    HomePage.shown all (HomePage.handleDepartmentSelect deptName s)
    = (if String.eqb (toLowerCase deptName) "all" then all
       else filter (fun emp =>
                      negb (falsy_string (HomePage.department emp))
                      && String.eqb (toLowerCase (HomePage.department emp))
                                    (toLowerCase deptName))
                   all)
    /\ HomePage.shown all (HomePage.handleClearDepartmentFilter s) = all.
Proof.
  intros all deptName s Hblank.
  unfold HomePage.shown, HomePage.handleDepartmentSelect,
    HomePage.handleClearDepartmentFilter, HomePage.filteredEmployees.
  cbn [HomePage.selectedDepartment HomePage.searchTerm].
  rewrite Hblank. cbn [falsy_string negb]. split.
  - destruct (String.eqb (toLowerCase deptName) "all"); cbn [negb].
    + destruct (List.length all =? 0)%nat; reflexivity.
    + unfold HomePage.in_department. rewrite toLowerCase_idempotent.
      apply filter_nil_length.
  - cbn. destruct (List.length all =? 0)%nat; reflexivity.
Qed.

Lemma selecting_a_department_witness :
  HomePage.shown
    [ HomePage.mkEmployee "1" "Alice Johnson" "Senior Developer"
        "engineering" 0 "95000";
      HomePage.mkEmployee "2" "Bob Smith" "Designer" "Design" 0 "70000" ]
    (HomePage.handleDepartmentSelect "Engineering" HomePage.initial)
  = [ HomePage.mkEmployee "1" "Alice Johnson" "Senior Developer"
        "engineering" 0 "95000" ]
  /\ HomePage.shown
       [ HomePage.mkEmployee "1" "Alice Johnson" "Senior Developer"
           "engineering" 0 "95000";
         HomePage.mkEmployee "2" "Bob Smith" "Designer" "Design" 0 "70000" ]
       (HomePage.handleDepartmentSelect "All" HomePage.initial)
     = [ HomePage.mkEmployee "1" "Alice Johnson" "Senior Developer"
           "engineering" 0 "95000";
         HomePage.mkEmployee "2" "Bob Smith" "Designer" "Design" 0 "70000" ].
Proof.
  split.
  - destruct (selecting_a_department
                [ HomePage.mkEmployee "1" "Alice Johnson" "Senior Developer"
                    "engineering" 0 "95000";
                  HomePage.mkEmployee "2" "Bob Smith" "Designer" "Design" 0
                    "70000" ]
                "Engineering" HomePage.initial) as [H _];
      [reflexivity | exact H].
  - destruct (selecting_a_department
                [ HomePage.mkEmployee "1" "Alice Johnson" "Senior Developer"
                    "engineering" 0 "95000";
                  HomePage.mkEmployee "2" "Bob Smith" "Designer" "Design" 0
                    "70000" ]
                "All" HomePage.initial) as [H _];
      [reflexivity | exact H].
Defined.

Lemma handleKeyDown_selection (departments : list HomePage.Department)
  (key : HomePage.Key) (s : HomePage.Filters) :
  HomePage.selectedDepartment (HomePage.handleKeyDown departments key s)
  = HomePage.selectedDepartment s
  \/ exists dept,
       In dept departments
       /\ HomePage.selectedDepartment
            (HomePage.handleKeyDown departments key s)
          = toLowerCase (HomePage.dept_name dept).
Proof.
  unfold HomePage.handleKeyDown.
  destruct (HomePage.isFilterOpen s); cbn [negb]; [| left; reflexivity].
  destruct key; try (left; reflexivity).
  destruct (HomePage.filteredDepartments departments
              (HomePage.departmentSearch s)) as [| dept [| d2 rest]] eqn:Hf;
    try (left; reflexivity).
  right. exists dept. split; [| reflexivity].
  unfold HomePage.filteredDepartments in Hf.
  destruct (falsy_string (trim (HomePage.departmentSearch s))).
  - rewrite Hf. left. reflexivity.
  - assert (Hin : In dept [dept]) by (left; reflexivity).
    rewrite <- Hf in Hin. apply filter_In in Hin. tauto.
Qed.

Lemma filteredDepartments_offered (departments : list HomePage.Department)
  (search : string) (dept : HomePage.Department) :
  In dept (HomePage.filteredDepartments departments search) ->
  In dept departments.
Proof.
  unfold HomePage.filteredDepartments.
  destruct (falsy_string (trim search)); [tauto |].
  intros H. apply filter_In in H. tauto.
Qed.

Lemma step_selection (departments : list HomePage.Department)
  (e : HomePage.Event) (s : HomePage.Filters) :
  HomePage.selectedDepartment (HomePage.step departments e s)
  = HomePage.selectedDepartment s
  \/ HomePage.selectedDepartment (HomePage.step departments e s) = "all"
  \/ exists dept,
       In dept departments
       /\ HomePage.selectedDepartment (HomePage.step departments e s)
          = toLowerCase (HomePage.dept_name dept).
Proof.
  destruct e; cbn [HomePage.step].
  - left. reflexivity.
  - left. reflexivity.
  - destruct (HomePage.isFilterOpen s); left; reflexivity.
  - destruct (HomePage.isFilterOpen s); [right; left | left]; reflexivity.
  - destruct (HomePage.isFilterOpen s); [| left; reflexivity].
    destruct (nth_error _ n) as [dept |] eqn:Hn; [| left; reflexivity].
    right. right. exists dept. split; [| reflexivity].
    apply nth_error_In in Hn.
    exact (filteredDepartments_offered _ _ _ Hn).
  - destruct (HomePage.isFilterOpen s
              && negb (HomePage.selectedDepartment s =? "all")%string);
      [right; left | left]; reflexivity.
  - destruct (HomePage.isFilterOpen s); left; reflexivity.
  - destruct (HomePage.isFilterOpen s); [| left; reflexivity].
    destruct (handleKeyDown_selection departments key s) as [H | H];
      [left | right; right]; exact H.
  - destruct (negb (HomePage.selectedDepartment s =? "all")%string);
      [right; left | left]; reflexivity.
  - destruct (negb (falsy_string (trim (HomePage.searchTerm s))));
      left; reflexivity.
  - destruct (HomePage.filtered s); [right; left | left]; reflexivity.
Qed.

Lemma find_offered (departments : list HomePage.Department)
  (dept : HomePage.Department) :
  In dept departments ->
  exists d,
    find (fun d => String.eqb (toLowerCase (HomePage.dept_name d))
                              (toLowerCase (HomePage.dept_name dept)))
         departments = Some d
    /\ In d departments
    /\ toLowerCase (HomePage.dept_name d)
       = toLowerCase (HomePage.dept_name dept).
Proof.
  induction departments as [| x rest IH]; [contradiction |].
  intros Hin. cbn [find].
  destruct (String.eqb (toLowerCase (HomePage.dept_name x))
                       (toLowerCase (HomePage.dept_name dept))) eqn:E.
  - exists x. split; [reflexivity |]. split; [left; reflexivity |].
    apply String.eqb_eq. exact E.
  - destruct Hin as [-> | Hin]; [rewrite String.eqb_refl in E; discriminate |].
    destruct (IH Hin) as (d & Hf & Hd & Hl).
    exists d. split; [exact Hf |]. split; [right; exact Hd | exact Hl].
Qed.

(** X14.  The department filter never holds a department that is not
    offered.  Whatever the user does on the page (typing in either search
    box, opening and closing the list, clicking an offered department or a
    clear button, pressing keys), with a list of departments that stays the
    same, the selected department is "all" or the lower-case name of one of
    the departments; so the name on the chip of the filter, which is looked
    up with no fall-back, is always found when a department is selected. *)
Theorem selection_is_all_or_offered :
  forall (departments : list HomePage.Department)
         (events : list HomePage.Event),
    let s := HomePage.run departments events HomePage.initial in
    HomePage.selectedDepartment s = "all"
    \/ exists dept,
         In dept departments
         /\ HomePage.selectedDepartment s
            = toLowerCase (HomePage.dept_name dept)
         /\ exists d,
              In d departments
              /\ HomePage.selectedName departments s
                 = Some (HomePage.dept_name d)
              /\ toLowerCase (HomePage.dept_name d)
                 = HomePage.selectedDepartment s.
Proof.
  intros departments events.
  assert (Hinv : forall s0,
    (HomePage.selectedDepartment s0 = "all"
     \/ exists dept, In dept departments
          /\ HomePage.selectedDepartment s0
             = toLowerCase (HomePage.dept_name dept)) ->
    HomePage.selectedDepartment (HomePage.run departments events s0) = "all"
    \/ exists dept, In dept departments
         /\ HomePage.selectedDepartment (HomePage.run departments events s0)
            = toLowerCase (HomePage.dept_name dept)).
  { induction events as [| e rest IH]; intros s0 H0; [exact H0 |].
    unfold HomePage.run. cbn [fold_left]. apply IH.
    destruct (step_selection departments e s0) as [H | [H | H]].
    - rewrite H. exact H0.
    - left. exact H.
    - right. exact H. }
  intros s. subst s.
  destruct (Hinv HomePage.initial (or_introl eq_refl))
    as [H | (dept & Hin & Hsel)]; [left; exact H |].
  right. exists dept. split; [exact Hin |]. split; [exact Hsel |].
  destruct (find_offered departments dept Hin) as (d & Hf & Hd & Hl).
  exists d. split; [exact Hd |]. split.
  - unfold HomePage.selectedName. rewrite Hsel, Hf. reflexivity.
  - rewrite Hsel. exact Hl.
Qed.

(* ===================================================================== *)
(** * The performance utilities *)
(* ===================================================================== *)

Import Performance.

(** ** The monitor *)

Lemma slice_latest {T : Type} (l : list T) :
  Z.of_nat (List.length l) > maxMetrics ->
  slice l (- maxMetrics) (Z.of_nat (List.length l)) = latest 1000 l.
Proof.
  unfold maxMetrics, slice, latest. intros H.
  change (- (1000) <? 0) with true. cbv iota.
  replace (Z.of_nat (List.length l) <? 0) with false
    by (symmetry; apply Z.ltb_ge; lia).
  rewrite Z.min_id, Z.max_l by lia.
  replace (Z.to_nat (Z.of_nat (List.length l) + - (1000)))
    with (List.length l - 1000)%nat by lia.
  apply firstn_all2. rewrite length_skipn. lia.
Qed.

Lemma recordMetric_latest (m : PerformanceMetrics)
  (metrics : list PerformanceMetrics) :
  recordMetric m metrics = latest 1000 (metrics ++ [m]).
Proof.
  unfold recordMetric.
  destruct (Z.of_nat (List.length (metrics ++ [m])) >? maxMetrics) eqn:E.
  - apply slice_latest. apply Z.gtb_lt in E. lia.
  - unfold latest, maxMetrics in *.
    replace (List.length (metrics ++ [m]) - 1000)%nat with 0%nat;
      [reflexivity |].
    destruct (Z.gtb_spec (Z.of_nat (List.length (metrics ++ [m]))) 1000);
      [discriminate | lia].
Qed.

Lemma latest_length {T : Type} (n : nat) (l : list T) :
  (List.length (latest n l) <= n)%nat.
Proof. unfold latest. rewrite length_skipn. lia. Qed.

Lemma latest_all {T : Type} (n : nat) (l : list T) :
  (List.length l <= n)%nat -> latest n l = l.
Proof.
  intros H. unfold latest.
  replace (List.length l - n)%nat with 0%nat by lia. reflexivity.
Qed.

Lemma latest_app {T : Type} (n : nat) (a b : list T) :
  latest n (latest n a ++ b) = latest n (a ++ b).
Proof.
  destruct (Nat.le_gt_cases (List.length a) n) as [H | H].
  - rewrite (latest_all n a H). reflexivity.
  - unfold latest at 1 3.
    rewrite !length_app. unfold latest. rewrite length_skipn.
    replace (List.length a - (List.length a - n) + List.length b - n)%nat
      with (List.length b) by lia.
    replace (List.length a + List.length b - n)%nat
      with (List.length b + (List.length a - n))%nat by lia.
    rewrite <- skipn_skipn. f_equal.
    rewrite skipn_app.
    replace (List.length a - n - List.length a)%nat with 0%nat by lia.
    reflexivity.
Qed.

Lemma monitor_snoc (calls : list MonitorCall) (c : MonitorCall) :
  monitor (calls ++ [c]) = monitor_call c (monitor calls).
Proof. unfold monitor. rewrite fold_left_app. reflexivity. Qed.

Lemma monitor_length (calls : list MonitorCall) :
  (List.length (monitor calls) <= 1000)%nat.
Proof.
  induction calls as [| c calls IH] using rev_ind; [cbn; lia |].
  rewrite monitor_snoc. destruct c as [m | now]; cbn [monitor_call].
  - rewrite recordMetric_latest. apply latest_length.
  - unfold clearOldMetrics.
    pose proof (filter_length_le
                  (fun m => num_gt (timestamp m)
                              (SFsub prec emax now (of_Z 3600000)))
                  (monitor calls)).
    lia.
Qed.

Lemma latest_In {T : Type} (n : nat) (l : list T) (x : T) :
  In x (latest n l) -> In x l.
Proof.
  unfold latest. intros H.
  rewrite <- (firstn_skipn (List.length l - n) l).
  apply in_or_app. right. exact H.
Qed.

(** X15.  The monitor keeps the latest thousand metrics.  Whatever has been
    called on the monitor before, recording further metrics leaves exactly
    the last 1000 of the metrics it held followed by the new ones, in the
    order in which they were recorded; none of the older ones is kept in
    place of a newer one. *)
Theorem monitor_keeps_the_latest :
  forall (calls : list MonitorCall) (new : list PerformanceMetrics),
    monitor (calls ++ map RecordMetric new)
    = latest 1000 (monitor calls ++ new).
Proof.
  intros calls new. induction new as [| m new IH] using rev_ind.
  - cbn [map]. rewrite !app_nil_r. symmetry. apply latest_all.
    apply monitor_length.
  - rewrite map_app. cbn [map]. rewrite app_assoc, monitor_snoc, IH.
    cbn [monitor_call]. rewrite recordMetric_latest, latest_app.
    rewrite app_assoc. reflexivity.
Qed.

(** X16.  The monitor never holds more than 1000 metrics, whatever is
    recorded and whenever old metrics are cleared, so [getStats] never
    counts more than 1000 queries; every metric it holds was recorded; and
    right after [clearOldMetrics] every metric left has a time stamp that
    is a number greater than the time of the call less 3600000: a metric
    whose time stamp is NaN is always dropped. *)
Theorem monitor_is_bounded :
  forall (calls : list MonitorCall) (now : number),
    (List.length (monitor calls) <= 1000)%nat
    /\ 0 <= totalQueries (getStats (monitor calls)) <= 1000
    /\ (forall m, In m (monitor calls) -> In m (recorded calls))
    /\ (forall m,
           In m (monitor (calls ++ [ClearOldMetrics now])) ->
           In m (monitor calls)
           /\ timestamp m <> NaN
           /\ num_gt (timestamp m) (SFsub prec emax now (of_Z 3600000))
              = true).
Proof.
  intros calls now. split; [apply monitor_length |]. split; [| split].
  - pose proof (monitor_length calls) as H. unfold getStats.
    destruct (monitor calls) as [| m ms]; [cbn; lia |].
    cbn [List.length Nat.eqb totalQueries] in *. lia.
  - induction calls as [| c calls IH] using rev_ind; [contradiction |].
    intros m. rewrite monitor_snoc. unfold recorded.
    rewrite flat_map_app. fold (recorded calls). intros H.
    apply in_or_app. destruct c as [m' | now']; cbn [monitor_call] in H.
    + rewrite recordMetric_latest in H. apply latest_In in H.
      apply in_app_or in H. destruct H as [H | H];
        [left; exact (IH m H) | right].
      cbn. cbn in H. exact H.
    + unfold clearOldMetrics in H. apply filter_In in H.
      left. apply IH. tauto.
  - intros m. rewrite monitor_snoc. cbn [monitor_call].
    unfold clearOldMetrics. intros H. apply filter_In in H.
    destruct H as [Hin Hgt]. split; [exact Hin |]. split; [| exact Hgt].
    intros E. rewrite E in Hgt. unfold num_gt, SFltb in Hgt.
    destruct (SFsub prec emax now (of_Z 3600000)); discriminate.
Qed.

Lemma monitor_is_bounded_witness :
  monitor [ RecordMetric (mkMetrics (of_Z 12) true (of_Z 300) NaN);
            RecordMetric (mkMetrics (of_Z 8) false (of_Z 100) (of_Z 5000000));
            ClearOldMetrics (of_Z 5000100) ]
  = [ mkMetrics (of_Z 8) false (of_Z 100) (of_Z 5000000) ]
  /\ timestamp (mkMetrics (of_Z 8) false (of_Z 100) (of_Z 5000000)) <> NaN.
Proof.
  split; [reflexivity |].
  destruct (monitor_is_bounded
              [ RecordMetric (mkMetrics (of_Z 12) true (of_Z 300) NaN);
                RecordMetric
                  (mkMetrics (of_Z 8) false (of_Z 100) (of_Z 5000000)) ]
              (of_Z 5000100)) as (_ & _ & _ & H).
  destruct (H (mkMetrics (of_Z 8) false (of_Z 100) (of_Z 5000000)))
    as (_ & Hnan & _); [left; reflexivity | exact Hnan].
Defined.

(** ** Batches *)

Lemma slice_batch {T : Type} (items : list T) (batchSize i : Z) :
  batchSize > 0 -> 0 <= i < Z.of_nat (List.length items) ->
  slice items i (i + batchSize)
  = firstn (Z.to_nat batchSize) (skipn (Z.to_nat i) items).
Proof.
  intros Hb Hi. unfold slice.
  replace (i <? 0) with false by (symmetry; apply Z.ltb_ge; lia).
  replace (i + batchSize <? 0) with false by (symmetry; apply Z.ltb_ge; lia).
  rewrite (Z.min_l i) by lia.
  destruct (Z.le_gt_cases (i + batchSize) (Z.of_nat (List.length items)))
    as [H | H].
  - rewrite Z.min_l by lia. f_equal. lia.
  - rewrite Z.min_r by lia.
    rewrite !firstn_all2; [reflexivity | |]; rewrite length_skipn; lia.
Qed.

Lemma skipn_batch {T : Type} (items : list T) (batchSize i : Z) :
  batchSize > 0 -> 0 <= i ->
  skipn (Z.to_nat i) items
  = (firstn (Z.to_nat batchSize) (skipn (Z.to_nat i) items)
     ++ skipn (Z.to_nat (i + batchSize)) items)%list.
Proof.
  intros Hb Hi.
  replace (Z.to_nat (i + batchSize)) with (Z.to_nat batchSize + Z.to_nat i)%nat
    by lia.
  rewrite <- skipn_skipn. symmetry. apply firstn_skipn.
Qed.

Lemma batch_loop_spec {T : Type} (items : list T) (batchSize : Z) :
  batchSize > 0 ->
  forall (fuel : nat) (i : Z) (batches : list (list T)),
    0 <= i < Z.of_nat (List.length items) + batchSize ->
    (List.length items - Z.to_nat i < fuel)%nat ->
    exists rest,
      batch_loop fuel items batchSize i batches = Some (batches ++ rest)%list
      /\ List.concat rest = skipn (Z.to_nat i) items
      /\ Forall (fun b => (1 <= List.length b <= Z.to_nat batchSize)%nat) rest
      /\ Z.of_nat (List.length rest)
         = (Z.of_nat (List.length items) - i + batchSize - 1) / batchSize.
Proof.
  intros Hb. induction fuel as [| fuel IH]; intros i batches Hi Hfuel;
    [lia |].
  cbn [batch_loop].
  destruct (Z.ltb_spec i (Z.of_nat (List.length items))) as [Hlt | Hge].
  - destruct (IH (i + batchSize)
                (batches ++ [slice items i (i + batchSize)])%list)
      as (rest & Hrun & Hcat & Hall & Hcount); [lia | lia |].
    exists (slice items i (i + batchSize) :: rest).
    split; [| split; [| split]].
    + rewrite Hrun, <- app_assoc. reflexivity.
    + cbn [List.concat]. rewrite Hcat, slice_batch by lia.
      symmetry. apply skipn_batch; lia.
    + constructor; [| exact Hall].
      rewrite slice_batch by lia.
      rewrite length_firstn, length_skipn. lia.
    + cbn [List.length]. rewrite Nat2Z.inj_succ, Hcount.
      replace (Z.of_nat (List.length items) - i + batchSize - 1)
        with (Z.of_nat (List.length items) - (i + batchSize) + batchSize - 1
              + 1 * batchSize) by lia.
      rewrite Z.div_add by lia. lia.
  - exists []. rewrite app_nil_r. split; [reflexivity |].
    split; [| split].
    + symmetry. apply skipn_all2. lia.
    + constructor.
    + rewrite Z.div_small by lia. reflexivity.
Qed.

Lemma batch_loop_forever {T : Type} (items : list T) (batchSize : Z) :
  batchSize <= 0 -> items <> [] ->
  forall (fuel : nat) (i : Z) (batches : list (list T)),
    i <= 0 -> batch_loop fuel items batchSize i batches = None.
Proof.
  intros Hb Hne. induction fuel as [| fuel IH]; intros i batches Hi;
    cbn [batch_loop];
    (destruct (Z.ltb_spec i (Z.of_nat (List.length items))) as [Hlt | Hge];
     [| destruct items; [contradiction | cbn [List.length] in Hge; lia]]).
  - reflexivity.
  - apply IH. lia.
Qed.

(** X17.  [batch] with a positive batch size hands every item to the
    processor exactly once and in order: the loop ends, the batches put end
    to end are the items, no batch is empty or longer than the batch size,
    and there are as many batches as the items divided by the batch size,
    rounded up.  With a batch size of zero or less and any item at all the
    loop never ends, however many rounds it is given. *)
Theorem batch_covers_the_items :
  forall (T : Type) (items : list T) (batchSize : Z) (fuel : nat),
    (batchSize > 0 ->
     (List.length items < fuel)%nat ->
     exists batches,
       batch fuel items batchSize = Some batches
       /\ List.concat batches = items
       /\ Forall (fun b => (1 <= List.length b <= Z.to_nat batchSize)%nat)
                 batches
       /\ Z.of_nat (List.length batches)
          = (Z.of_nat (List.length items) + batchSize - 1) / batchSize)
    /\ (batchSize <= 0 -> items <> [] ->
        batch fuel items batchSize = None).
Proof.
  intros T items batchSize fuel. split.
  - intros Hb Hfuel.
    destruct (batch_loop_spec items batchSize Hb fuel 0 [])
      as (rest & Hrun & Hcat & Hall & Hcount); [lia | cbn; lia |].
    exists rest. unfold batch. rewrite Hrun.
    split; [reflexivity |]. split; [exact Hcat |]. split; [exact Hall |].
    rewrite Hcount. f_equal. lia.
  - intros Hb Hne. apply batch_loop_forever; [exact Hb | exact Hne | lia].
Qed.

Lemma batch_covers_the_items_witness :
  batch 8 [1; 2; 3; 4; 5; 6; 7] 3 = Some [[1; 2; 3]; [4; 5; 6]; [7]]
  /\ batch 8 [1; 2; 3] (-1) = None.
Proof.
  split.
  - destruct (batch_covers_the_items Z [1; 2; 3; 4; 5; 6; 7] 3 8)
      as [H _].
    destruct H as (batches & H & _); [lia | cbn; lia |].
    rewrite H. vm_compute in H. exact (eq_sym H).
  - destruct (batch_covers_the_items Z [1; 2; 3] (-1) 8) as [_ H].
    apply H; [lia | discriminate].
Defined.

Section BatchInsertLemmas.

Variables (T C : Type).
Variable insertMany : list T -> C -> bool * C.

(** A batch of several documents is inserted in order, and the insertion
    stops at the first document that is refused. *)
Hypothesis insertMany_ordered :
  forall (a b : list T) (c : C),
    a <> [] -> b <> [] ->
    insertMany (a ++ b) c
    = (let (ok, c') := insertMany a c in
       if ok then insertMany b c' else (false, c')).


End BatchInsertLemmas.





(** ** Memoized functions *)

Section MemoizeLemmas.

Variables (Args Result : Type).
Variable func : Args -> Result.
Variable keyGenerator : option (Args -> string).
Variable stringify : Args -> string.

Lemma memo_get_evaluated (k : string) (ev : list Args) :
  memo_get k (map (fun a => (memo_key keyGenerator stringify a, func a)) ev)
  = option_map func
      (find (fun b => String.eqb (memo_key keyGenerator stringify b) k) ev).
Proof.
  unfold memo_get. induction ev as [| a ev IH]; cbn; [reflexivity |].
  destruct (String.eqb (memo_key keyGenerator stringify a) k);
    [reflexivity | exact IH].
Qed.

Lemma find_app_list {A : Type} (f : A -> bool) (l1 l2 : list A) :
  find f (l1 ++ l2)
  = match find f l1 with Some x => Some x | None => find f l2 end.
Proof.
  induction l1 as [| x l1 IH]; cbn; [reflexivity |].
  destruct (f x); [reflexivity | exact IH].
Qed.

Lemma find_none_key (a : Args) (ev : list Args) :
  find (same_key keyGenerator stringify a) ev = None ->
  ~ In (memo_key keyGenerator stringify a)
       (map (memo_key keyGenerator stringify) ev).
Proof.
  intros H Hin. apply in_map_iff in Hin. destruct Hin as (b & Hk & Hb).
  pose proof (find_none _ _ H b Hb) as Hn. unfold same_key in Hn.
  rewrite Hk, String.eqb_refl in Hn. discriminate.
Qed.

Lemma memoized_spec (a : Args) (m : Memo Args Result) :
  memo_inv func keyGenerator stringify m ->
  memoized func keyGenerator stringify a m
  = match find (same_key keyGenerator stringify a) (evaluated m) with
    | Some a' => (func a', m)
    | None => (func a,
               mkMemo (memo_cache m
                       ++ [(memo_key keyGenerator stringify a, func a)])
                      (evaluated m ++ [a]))
    end
  /\ memo_inv func keyGenerator stringify
       (snd (memoized func keyGenerator stringify a m)).
Proof.
  intros [Hc Hn]. unfold memoized. rewrite Hc, memo_get_evaluated.
  change (fun b => String.eqb (memo_key keyGenerator stringify b)
                     (memo_key keyGenerator stringify a))
    with (same_key keyGenerator stringify a).
  destruct (find (same_key keyGenerator stringify a) (evaluated m))
    as [a' |] eqn:Hf; cbn [option_map snd].
  - split; [reflexivity | split; assumption].
  - rewrite <- Hc. split; [reflexivity |]. split.
    + cbn [memo_cache evaluated]. rewrite map_app, Hc. reflexivity.
    + cbn [evaluated]. rewrite map_app. apply NoDup_app; [exact Hn | |].
      * constructor; [intros [] | constructor].
      * intros k Hk [<- | []]. exact (find_none_key a _ Hf Hk).
Qed.

Lemma first_with_key_skip (a b : Args) (ev rest : list Args) (a' : Args) :
  find (same_key keyGenerator stringify a) ev = Some a' ->
  find (same_key keyGenerator stringify b) (ev ++ a :: rest)
  = find (same_key keyGenerator stringify b) (ev ++ rest).
Proof.
  intros Ha. rewrite !find_app_list.
  destruct (find (same_key keyGenerator stringify b) ev) as [b' |] eqn:Hb;
    [reflexivity |].
  cbn [find]. destruct (same_key keyGenerator stringify b a) eqn:E;
    [| reflexivity].
  unfold same_key in E.
  apply String.eqb_eq in E. apply find_some in Ha. destruct Ha as [Hin Hk].
  pose proof (find_none _ _ Hb a' Hin) as Hn. unfold same_key in Hn, Hk.
  apply String.eqb_eq in Hk. rewrite Hk, E, String.eqb_refl in Hn.
  discriminate.
Qed.

Lemma memoized_all_spec (calls : list Args) :
  forall m : Memo Args Result,
    memo_inv func keyGenerator stringify m ->
    fst (memoized_all func keyGenerator stringify calls m)
    = map (fun a => func (first_with_key keyGenerator stringify a
                            (evaluated m ++ calls)))
          calls
    /\ memo_inv func keyGenerator stringify
         (snd (memoized_all func keyGenerator stringify calls m))
    /\ (forall a,
           In a (evaluated
                   (snd (memoized_all func keyGenerator stringify calls m)))
           -> In a (evaluated m ++ calls))
    /\ (forall a,
           In a (evaluated m ++ calls) ->
           In (memo_key keyGenerator stringify a)
              (map (memo_key keyGenerator stringify)
                 (evaluated
                    (snd (memoized_all func keyGenerator stringify calls
                            m))))).
Proof.
  induction calls as [| a rest IH]; intros m Hinv.
  - cbn. rewrite app_nil_r. split; [reflexivity |]. split; [exact Hinv |].
    split; [tauto |]. intros a Ha. apply in_map. exact Ha.
  - cbn [memoized_all].
    destruct (memoized_spec a m Hinv) as [Hstep Hinv'].
    destruct (memoized func keyGenerator stringify a m) as [r m'] eqn:Hrun.
    cbn [snd] in Hinv'.
    destruct (IH m' Hinv') as (Hres & Hinv'' & Hsub & Hall).
    destruct (memoized_all func keyGenerator stringify rest m')
      as [rs m''] eqn:Hrest.
    cbn [fst snd] in *.
    destruct (find (same_key keyGenerator stringify a) (evaluated m))
      as [a' |] eqn:Hf; injection Hstep as -> ->.
    + split; [| split; [exact Hinv'' | split]].
      * cbn [map]. f_equal.
        -- unfold first_with_key. rewrite find_app_list, Hf. reflexivity.
        -- rewrite Hres. apply map_ext. intros b. unfold first_with_key.
           rewrite (first_with_key_skip a b _ rest a' Hf). reflexivity.
      * intros b Hb. specialize (Hsub b Hb). apply in_app_or in Hsub.
        apply in_or_app. destruct Hsub; [left | right; right]; assumption.
      * intros b Hb. apply in_app_or in Hb.
        destruct Hb as [Hb | [<- | Hb]].
        -- apply Hall. apply in_or_app. left. exact Hb.
        -- apply find_some in Hf. destruct Hf as [Hin Hk].
           unfold same_key in Hk.
           apply String.eqb_eq in Hk. rewrite <- Hk.
           apply Hall. apply in_or_app. left. exact Hin.
        -- apply Hall. apply in_or_app. right. exact Hb.
    + cbn [evaluated] in *. rewrite <- app_assoc in Hres, Hsub, Hall.
      cbn [app] in Hres, Hsub, Hall.
      split; [| split; [exact Hinv'' | split; [exact Hsub | exact Hall]]].
      cbn [map]. f_equal; [| exact Hres].
      unfold first_with_key. rewrite find_app_list, Hf. cbn [find].
      unfold same_key at 1. rewrite String.eqb_refl. reflexivity.
Qed.

End MemoizeLemmas.

(** X19.  A memoized function evaluates the function once for each key,
    and answers every call with the result for the first arguments that
    had the key of the call.  So the answers are those of the function
    itself when different arguments of the calls have different keys; when
    two have the same key, the later call gets the result of the earlier
    one. *)
Theorem memoized_once_per_key :
  forall (Args Result : Type) (func : Args -> Result)
         (keyGenerator : option (Args -> string))
         (stringify : Args -> string) (calls : list Args),
    let run := memoized_all func keyGenerator stringify calls
                 (memo_empty Args Result) in
    let key := memo_key keyGenerator stringify in
    fst run
    = map (fun a => func (first_with_key keyGenerator stringify a calls))
          calls
    /\ NoDup (map key (evaluated (snd run)))
    /\ (forall a, In a (evaluated (snd run)) -> In a calls)
    /\ (forall a, In a calls -> In (key a) (map key (evaluated (snd run))))
    /\ ((forall a b, In a calls -> In b calls -> key a = key b -> a = b) ->
        fst run = map func calls).
Proof.
  intros Args Result func keyGenerator stringify calls run key.
  assert (Hinv : memo_inv func keyGenerator stringify
                   (memo_empty Args Result))
    by (split; [reflexivity | constructor]).
  destruct (memoized_all_spec Args Result func keyGenerator stringify calls
              (memo_empty Args Result) Hinv)
    as (Hres & [_ Hnd] & Hsub & Hall).
  cbn [memo_empty evaluated app] in Hres, Hsub, Hall.
  fold run in Hres, Hnd, Hsub, Hall.
  split; [exact Hres |]. split; [exact Hnd |]. split; [exact Hsub |].
  split; [exact Hall |].
  intros Hinj. rewrite Hres. apply map_ext_in. intros a Ha. f_equal.
  unfold first_with_key.
  destruct (find (same_key keyGenerator stringify a) calls)
    as [a' |] eqn:Hf; [| reflexivity].
  apply find_some in Hf. destruct Hf as [Hin Hk]. unfold same_key in Hk.
  apply String.eqb_eq in Hk. exact (Hinj a' a Hin Ha Hk).
Qed.

Lemma memoized_once_per_key_witness :
  fst (memoized_all (fun n : Z => 2 * n)
         (Some (fun n : Z => if n <? 10 then "small" else "large"))
         (fun _ => "[]") [1; 2; 20; 3] (memo_empty Z Z))
  = [2; 2; 40; 2]
  /\ fst (memoized_all (fun s : string => String.length s) None
            (fun s => s) ["ab"; "c"; "ab"] (memo_empty string nat))
     = [2%nat; 1%nat; 2%nat].
Proof.
  split.
  - destruct (memoized_once_per_key Z Z (fun n : Z => 2 * n)
                (Some (fun n : Z => if n <? 10 then "small" else "large"))
                (fun _ => "[]") [1; 2; 20; 3]) as (H & _).
    rewrite H. reflexivity.
  - destruct (memoized_once_per_key string nat
                (fun s : string => String.length s) None
                (fun s => s) ["ab"; "c"; "ab"]) as (_ & _ & _ & _ & H).
    rewrite H; [reflexivity |].
    intros a b _ _ E. exact E.
Defined.

(** ** Throttled and debounced functions *)

Section TimerLemmas.

Variable Args : Type.

Lemma spaced_snoc (limit : Z) (l : list (Z * Args)) (t1 t : Z)
  (a1 a : Args) :
  spaced limit (l ++ [(t1, a1)]) ->
  t1 + limit <= t ->
  spaced limit ((l ++ [(t1, a1)]) ++ [(t, a)]).
Proof.
  intros Hs Hle. induction l as [| [t0 a0] l IH].
  - cbn. tauto.
  - cbn [app spaced] in *. destruct Hs as [Hhead Htail].
    split; [| exact (IH Htail)].
    destruct l as [| [t2 a2] l]; exact Hhead.
Qed.

(** What holds of the closure of [throttle] between events. *)
Lemma throttle_step_inv (limit : Z) (e : TimerEvent Args)
  (s s' : Throttle Args) :
  spaced limit (throttle_invoked s)
  /\ ((throttle_invoked s = [] /\ inThrottle s = false
       /\ throttle_timers s = [])
      \/ exists l t1 a1,
           throttle_invoked s = (l ++ [(t1, a1)])%list
           /\ t1 <= throttle_clock s
           /\ ((inThrottle s = true /\ throttle_timers s = [t1 + limit])
               \/ (inThrottle s = false /\ throttle_timers s = []
                   /\ t1 + limit <= throttle_clock s))) ->
  throttle_step limit e s = Some s' ->
  (spaced limit (throttle_invoked s')
   /\ ((throttle_invoked s' = [] /\ inThrottle s' = false
        /\ throttle_timers s' = [])
       \/ exists l t1 a1,
            throttle_invoked s' = (l ++ [(t1, a1)])%list
            /\ t1 <= throttle_clock s'
            /\ ((inThrottle s' = true /\ throttle_timers s' = [t1 + limit])
                \/ (inThrottle s' = false /\ throttle_timers s' = []
                    /\ t1 + limit <= throttle_clock s'))))
  /\ (forall x, In x (throttle_invoked s') ->
                In x (throttle_invoked s)
                \/ exists t a, x = (t, a) /\ e = Called t a)
  /\ (forall x rest, throttle_invoked s = x :: rest ->
                     exists rest', throttle_invoked s' = x :: rest')
  /\ (throttle_invoked s = [] ->
      forall t a, e = Called t a -> inThrottle s = false ->
                  throttle_invoked s' = [(t, a)]).
Proof.
  intros [Hsp Hst] Hstep. unfold throttle_step in Hstep.
  destruct (Z.ltb_spec (time_of e) (throttle_clock s)) as [| Hclock];
    [discriminate |].
  destruct e as [t args | t]; cbn [time_of] in Hclock.
  - destruct (inThrottle s) eqn:Hin; cbn [negb] in Hstep;
      injection Hstep as <-; cbn [throttle_invoked inThrottle throttle_timers
                                    throttle_clock].
    + split; [| split; [| split]].
      * split; [exact Hsp |].
        destruct Hst as [(_ & Hf & _) | (l & t1 & a1 & Hl & Ht1 & Hcase)];
          [discriminate |].
        right. exists l, t1, a1. split; [exact Hl |]. split; [lia |].
        destruct Hcase as [Hc | (Hf & _)]; [left; exact Hc | discriminate].
      * intros x Hx. left. exact Hx.
      * intros x rest Hx. exists rest. exact Hx.
      * intros _ t0 a0 _ Hf. discriminate.
    + split; [| split; [| split]].
      * destruct Hst as [(Hnil & _ & Htm) | (l & t1 & a1 & Hl & Ht1 & Hcase)].
        -- rewrite Hnil, Htm. cbn [app]. split; [cbn; tauto |].
           right. exists [], t, args. split; [reflexivity |].
           split; [lia |]. left. split; reflexivity.
        -- destruct Hcase as [(Hf & _) | (_ & Htm & Hgap)]; [discriminate |].
           rewrite Hl, Htm. cbn [app]. split.
           ++ apply spaced_snoc; [rewrite <- Hl; exact Hsp | lia].
           ++ right. exists (l ++ [(t1, a1)])%list, t, args.
              split; [reflexivity |]. split; [lia |].
              left. split; reflexivity.
      * intros x Hx. apply in_app_or in Hx.
        destruct Hx as [Hx | [<- | []]]; [left; exact Hx |].
        right. exists t, args. split; reflexivity.
      * intros x rest Hx. rewrite Hx. exists (rest ++ [(t, args)])%list.
        reflexivity.
      * intros Hnil t0 a0 E _. injection E as <- <-. rewrite Hnil.
        reflexivity.
  - destruct (throttle_timers s) as [| due rest] eqn:Htm; [discriminate |].
    destruct (Z.leb_spec due t) as [Hdue |]; [| discriminate].
    injection Hstep as <-.
    cbn [throttle_invoked inThrottle throttle_timers throttle_clock].
    split; [| split; [| split]].
    + split; [exact Hsp |].
      destruct Hst as [(_ & _ & Hno) | (l & t1 & a1 & Hl & Ht1 & Hcase)];
        [discriminate |].
      right. exists l, t1, a1. split; [exact Hl |]. split; [lia |].
      destruct Hcase as [(_ & Hone) | (_ & Hno & _)]; [| discriminate].
      injection Hone as -> ->. right. repeat split. lia.
    + intros x Hx. left. exact Hx.
    + intros x rest' Hx. exists rest'. exact Hx.
    + intros _ t0 a0 E. discriminate.
Qed.

Lemma throttle_run_inv (limit : Z) (trace : list (TimerEvent Args)) :
  forall s s' : Throttle Args,
    spaced limit (throttle_invoked s)
    /\ ((throttle_invoked s = [] /\ inThrottle s = false
         /\ throttle_timers s = [])
        \/ exists l t1 a1,
             throttle_invoked s = (l ++ [(t1, a1)])%list
             /\ t1 <= throttle_clock s
             /\ ((inThrottle s = true /\ throttle_timers s = [t1 + limit])
                 \/ (inThrottle s = false /\ throttle_timers s = []
                     /\ t1 + limit <= throttle_clock s))) ->
    throttle_run limit trace s = Some s' ->
    spaced limit (throttle_invoked s')
    /\ (forall x, In x (throttle_invoked s') ->
                  In x (throttle_invoked s)
                  \/ exists t a, x = (t, a) /\ In (Called t a) trace)
    /\ (forall x rest, throttle_invoked s = x :: rest ->
                       exists rest', throttle_invoked s' = x :: rest').
Proof.
  induction trace as [| e trace IH]; intros s s' Hinv Hrun.
  - injection Hrun as <-. split; [tauto |]. split; [tauto |].
    intros x rest Hx. exists rest. exact Hx.
  - cbn [throttle_run] in Hrun.
    destruct (throttle_step limit e s) as [s1 |] eqn:Hstep; [| discriminate].
    destruct (throttle_step_inv limit e s s1 Hinv Hstep)
      as (Hinv1 & Hsub1 & Hhead1 & _).
    destruct (IH s1 s' Hinv1 Hrun) as (Hsp & Hsub & Hhead).
    split; [exact Hsp |]. split.
    + intros x Hx. destruct (Hsub x Hx) as [H1 | (t & a & -> & Hin)].
      * destruct (Hsub1 x H1) as [H0 | (t & a & -> & ->)];
          [left; exact H0 |].
        right. exists t, a. split; [reflexivity | left; reflexivity].
      * right. exists t, a. split; [reflexivity | right; exact Hin].
    + intros x rest Hx. destruct (Hhead1 x rest Hx) as [rest1 H1].
      exact (Hhead x rest1 H1).
Qed.

Lemma debounce_run_settled (wait : Z) (trace : list (TimerEvent Args)) :
  forall s s' : Debounce Args,
    debounce_run wait trace s = Some s' ->
    debounce_invoked s'
    = (debounce_invoked s
       ++ settled_from (option_map snd (timeout s)) trace)%list
    /\ (forall t a,
           In (t, a) (settled_from (option_map snd (timeout s)) trace) ->
           (exists t0, In (Called t0 a) trace /\ t0 + wait <= t)
           \/ exists due, timeout s = Some (due, a) /\ due <= t).
Proof.
  induction trace as [| e trace IH]; intros s s' Hrun.
  - injection Hrun as <-. cbn. rewrite app_nil_r. split; [reflexivity |].
    intros t a [].
  - cbn [debounce_run] in Hrun. unfold debounce_step in Hrun.
    destruct (time_of e <? debounce_clock s); [discriminate |].
    destruct e as [t1 a1 | t1].
    + destruct (IH _ _ Hrun) as [Hinv Hgap].
      cbn [timeout debounce_invoked option_map snd] in Hinv, Hgap.
      cbn [settled_from]. split; [exact Hinv |].
      intros t a Hin. left.
      destruct (Hgap t a Hin) as [(t0 & H0 & Hle) | (due & Hd & Hle)].
      * exists t0. split; [right; exact H0 | exact Hle].
      * injection Hd as <- <-. exists t1. split; [left; reflexivity | lia].
    + destruct (timeout s) as [[due a0] |] eqn:Hto; [| discriminate].
      destruct (Z.leb_spec due t1) as [Hdue |]; [| discriminate].
      destruct (IH _ _ Hrun) as [Hinv Hgap].
      cbn [timeout debounce_invoked option_map snd] in Hinv, Hgap.
      cbn [settled_from option_map snd]. split.
      * rewrite Hinv, <- app_assoc. reflexivity.
      * intros t a [E | Hin].
        -- injection E as <- <-. right. exists due. split; [reflexivity | lia].
        -- destruct (Hgap t a Hin) as [(t0 & H0 & Hle) | (d & Hd & _)];
             [| discriminate].
           left. exists t0. split; [right; exact H0 | exact Hle].
Qed.

End TimerLemmas.

(** X20.  A throttled function calls the function at most once in any
    span of [limit] milliseconds.  Whatever the calls and whenever the host
    runs the timers, two calls of the function that follow each other are
    at least [limit] apart; the function is only ever called with the
    arguments, and at the time, of a call of the throttled function; and
    the first call is always passed on. *)
Theorem throttle_spaces_the_calls :
  forall (Args : Type) (limit start : Z) (trace : list (TimerEvent Args))
         (s : Throttle Args),
    throttle_run limit trace (throttle_start Args start) = Some s ->
    spaced limit (throttle_invoked s)
    /\ (forall t a, In (t, a) (throttle_invoked s) -> In (Called t a) trace)
    /\ (forall t a rest,
           trace = Called t a :: rest ->
           exists more, throttle_invoked s = (t, a) :: more).
Proof.
  intros Args limit start trace s Hrun.
  assert (Hinv :
    spaced limit (throttle_invoked (throttle_start Args start))
    /\ ((throttle_invoked (throttle_start Args start) = []
         /\ inThrottle (throttle_start Args start) = false
         /\ throttle_timers (throttle_start Args start) = [])
        \/ exists l t1 a1,
             throttle_invoked (throttle_start Args start)
             = (l ++ [(t1, a1)])%list
             /\ t1 <= throttle_clock (throttle_start Args start)
             /\ ((inThrottle (throttle_start Args start) = true
                  /\ throttle_timers (throttle_start Args start)
                     = [t1 + limit])
                 \/ (inThrottle (throttle_start Args start) = false
                     /\ throttle_timers (throttle_start Args start) = []
                     /\ t1 + limit
                        <= throttle_clock (throttle_start Args start)))))
    by (split; [exact I | left; repeat split]).
  destruct (throttle_run_inv Args limit trace _ s Hinv Hrun)
    as (Hsp & Hsub & _).
  split; [exact Hsp |]. split.
  - intros t a Hin. destruct (Hsub _ Hin) as [[] | (t' & a' & E & H)].
    injection E as -> ->. exact H.
  - intros t a rest ->. cbn [throttle_run] in Hrun.
    destruct (throttle_step limit (Called t a) (throttle_start Args start))
      as [s1 |] eqn:Hstep; [| discriminate].
    destruct (throttle_step_inv Args limit _ _ s1 Hinv Hstep)
      as (Hinv1 & _ & _ & Hfirst).
    specialize (Hfirst eq_refl t a eq_refl eq_refl).
    destruct (throttle_run_inv Args limit rest s1 s Hinv1 Hrun)
      as (_ & _ & Hhead).
    exact (Hhead (t, a) [] Hfirst).
Qed.

Lemma throttle_spaces_the_calls_witness :
  option_map (@throttle_invoked string)
    (throttle_run 100
       [Called 0 "a"; Called 40 "b"; TimerRuns string 103; Called 110 "c";
        Called 150 "d"]
       (throttle_start string 0))
  = Some [(0, "a"); (110, "c")]
  /\ spaced 100 [(0, "a"); (110, "c")].
Proof.
  split; [reflexivity |].
  destruct (throttle_spaces_the_calls string 100 0
              [Called 0 "a"; Called 40 "b"; TimerRuns string 103; Called 110 "c";
               Called 150 "d"]
              (mkThrottle true [210] 150 [(0, "a"); (110, "c")]))
    as (H & _); [reflexivity | exact H].
Defined.

(** X21.  A debounced function calls the function only for the last call
    of a burst, and only once the calls have paused.  Whatever the calls
    and whenever the host runs the timers, the calls of the function are
    exactly one for each timer that runs, with the arguments of the last
    call before it; each is made [wait] milliseconds or more after that
    call, and every call that is followed by another before its timer runs
    is dropped. *)
Theorem debounce_serves_the_last_call :
  forall (Args : Type) (wait start : Z) (trace : list (TimerEvent Args))
         (s : Debounce Args),
    debounce_run wait trace (debounce_start Args start) = Some s ->
    debounce_invoked s = settled trace
    /\ (forall t a,
           In (t, a) (debounce_invoked s) ->
           exists t0, In (Called t0 a) trace /\ t0 + wait <= t).
Proof.
  intros Args wait start trace s Hrun.
  destruct (debounce_run_settled Args wait trace _ s Hrun) as [Hinv Hgap].
  cbn [debounce_start timeout debounce_invoked option_map app] in Hinv, Hgap.
  split; [exact Hinv |].
  intros t a Hin. rewrite Hinv in Hin.
  destruct (Hgap t a Hin) as [H | (due & Hd & _)]; [exact H | discriminate].
Qed.

Lemma debounce_serves_the_last_call_witness :
  debounce_run 300
    [Called 0 "e"; Called 100 "en"; Called 250 "eng"; TimerRuns string 551;
     Called 900 "engi"]
    (debounce_start string 0)
  = Some (mkDebounce (Some (1200, "engi")) 900 [(551, "eng")])
  /\ settled
       [Called 0 "e"; Called 100 "en"; Called 250 "eng"; TimerRuns string 551;
        Called 900 "engi"]
     = [(551, "eng")].
Proof.
  split; [reflexivity |].
  destruct (debounce_serves_the_last_call string 300 0
              [Called 0 "e"; Called 100 "en"; Called 250 "eng";
               TimerRuns string 551; Called 900 "engi"]
              (mkDebounce (Some (1200, "engi")) 900 [(551, "eng")]))
    as (H & _); [reflexivity |].
  rewrite <- H. reflexivity.
Defined.

(** ** Cache keys and times to live *)

(** X22.  The table of times to live of [calculateTTL] is the one the
    resolvers use.  When [getAllEmployees], [getDepartments] or
    [getEmployeeDetails] reads the store at [now], the entry it writes
    under its key expires at [now] plus the time [calculateTTL] gives for
    its kind of data; and as long as [isCacheValid] holds for the time of
    writing and that time to live, the entry is live in the cache. *)
Theorem ttl_table_is_the_resolvers :
  forall (now : Z) (st : State),
    (served now st = None ->
     Lru.lookup CACHE_KEYS.EMPLOYEES (cache (snd (getAllEmployees now st)))
     = Some (Lru.mkEntry CACHE_KEYS.EMPLOYEES
               (json_roundtrip (all_employees st))
               (now + calculateTTL employees_type)))
    /\ (served_under CACHE_KEYS.DEPARTMENTS now st = None ->
        Lru.lookup CACHE_KEYS.DEPARTMENTS
          (cache (snd (getDepartments now st)))
        = Some (Lru.mkEntry CACHE_KEYS.DEPARTMENTS
                  (json_roundtrip (all_departments st))
                  (now + calculateTTL departments_type)))
    /\ (forall id oid e,
           isValid id = true ->
           ObjectId_new id = Some oid ->
           Lru.lookup (CACHE_KEYS.EMPLOYEE_DETAILS id) (cache st) = None ->
           lookup_id oid (employees (store st)) = Some e ->
           Lru.lookup (CACHE_KEYS.EMPLOYEE_DETAILS id)
             (cache (snd (getEmployeeDetails now id st)))
           = Some (Lru.mkEntry (CACHE_KEYS.EMPLOYEE_DETAILS id)
                     (json_roundtrip (employee_value (oid, e)))
                     (now + calculateTTL employee_details_type)))
    /\ (forall kind key v later,
           isCacheValid later now (calculateTTL kind) = true ->
           Lru.fresh later (Lru.mkEntry key v (now + calculateTTL kind))
           = true).
Proof.
  intros now st. split; [| split; [| split]].
  - intros H. rewrite (getAllEmployees_miss now st H). apply lookup_set.
  - intros H. rewrite (getDepartments_miss now st H). apply lookup_set.
  - intros id oid e Hv Hn Hc Hl.
    rewrite (getEmployeeDetails_reads now id oid e st Hv Hn Hc Hl).
    apply lookup_set.
  - intros kind key v later H. unfold isCacheValid in H.
    unfold Lru.fresh. cbn [Lru.entry_expires].
    apply Z.ltb_lt in H. apply Z.leb_le. lia.
Qed.

Lemma ttl_table_is_the_resolvers_witness :
  Lru.lookup CACHE_KEYS.EMPLOYEES
    (cache (snd (getAllEmployees 7 seeded_state)))
  = Some (Lru.mkEntry CACHE_KEYS.EMPLOYEES
            (json_roundtrip (all_employees seeded_state)) 300007)
  /\ Lru.fresh 300006 (Lru.mkEntry "employees:all" VNull 300007) = true.
Proof.
  destruct (ttl_table_is_the_resolvers 7 seeded_state) as (H1 & _ & _ & H2).
  split.
  - apply H1. reflexivity.
  - apply (H2 employees_type "employees:all" VNull 300006). reflexivity.
Defined.

Lemma includes_after_colon (b v : string) :
  includes (b ++ String ":" v) ":" = true.
Proof.
  induction b as [| c b IH]; [reflexivity |].
  change (String c b ++ String ":" v)%string
    with (String c (b ++ String ":" v)).
  cbn [includes]. rewrite IH. apply orb_true_r.
Qed.

Lemma versioned_key_inj (b1 b2 v1 v2 : string) :
  includes v1 ":" = false -> includes v2 ":" = false ->
  (b1 ++ String ":" v1)%string = (b2 ++ String ":" v2)%string ->
  b1 = b2 /\ v1 = v2.
Proof.
  intros H1 H2. revert b2.
  induction b1 as [| c b1 IH]; intros [| d b2] E; cbn [append] in E.
  - injection E as E. split; [reflexivity | exact E].
  - injection E as <- E. rewrite E, includes_after_colon in H1.
    discriminate.
  - injection E as -> E. rewrite <- E, includes_after_colon in H2.
    discriminate.
  - injection E as <- E. destruct (IH b2 E) as [-> ->]. split; reflexivity.
Qed.

(** X23.  Versioned cache keys do not collide: when the versions hold no
    colon (as the version 'v1' that is taken when none is given), two keys
    are equal only if they were made from the same base key and the same
    version. *)
Theorem versioned_keys_do_not_collide :
  forall (b1 b2 : string) (v1 v2 : option string),
    includes (match v1 with Some v => v | None => "v1" end) ":" = false ->
    includes (match v2 with Some v => v | None => "v1" end) ":" = false ->
    generateCacheKey b1 v1 = generateCacheKey b2 v2 ->
    b1 = b2
    /\ match v1 with Some v => v | None => "v1" end
       = match v2 with Some v => v | None => "v1" end.
Proof.
  intros b1 b2 v1 v2 H1 H2 E. unfold generateCacheKey in E.
  exact (versioned_key_inj _ _ _ _ H1 H2 E).
Qed.

Lemma versioned_keys_do_not_collide_witness :
  "employees:all" = "employees:all" /\ "v1" = "v1".
Proof.
  apply (versioned_keys_do_not_collide "employees:all" "employees:all"
           None (Some "v1")); reflexivity.
Defined.
